(** * OmniTranslateAi: the live audio session of [LiveTranslator.tsx]

    A shallow embedding of the React component
    [src/components/LiveTranslator.tsx]: its state and refs, the browser and
    SDK objects its handlers touch, and one function per handler
    ([cleanup], [toggleSession], [onopen], [onaudioprocess], [onmessage],
    [onclose], [onerror]).  An asynchronous handler is split at each
    [await]: the part before it, and a [_resume] function run when the
    awaited promise settles.  The event loop is the function [step]; a run
    of the component is a list of events. *)

From Stdlib Require Import ZArith QArith Floats.
From stdpp Require Import gmap strings list.

Set Warnings "-inexact-float".

(** ** JavaScript numbers

    Times ([currentTime], [duration], the playback cursor) are JavaScript
    numbers.  The handlers use only [+], [Math.max] and the literal [0];
    the model is written over any carrier with these operations, and run
    on IEEE binary64 ([Float64]) and on exact rationals ([Exact]). *)

Class JSNumber (T : Type) := {
  num_zero : T;
  num_add : T -> T -> T;
  Math_max : T -> T -> T;
  num_leb : T -> T -> bool
}.

(** The order facts the scheduling proofs use, stated for the numbers at
    or above zero: there IEEE doubles have them ([Float64_laws]), as exact
    arithmetic does ([Exact_laws]).  [num_leb b b] says that [b] is a
    number: among doubles it fails of NaN alone. *)
Class JSNumberLaws (T : Type) `{JSNumber T} : Prop := {
  num_zero_leb : num_leb num_zero num_zero = true;
  num_leb_refl : forall a,
    num_leb num_zero a = true -> num_leb a a = true;
  num_leb_trans : forall a b c,
    num_leb num_zero a = true ->
    num_leb a b = true -> num_leb b c = true -> num_leb a c = true;
  Math_max_ge_l : forall a b,
    num_leb num_zero a = true -> num_leb b b = true ->
    num_leb a (Math_max a b) = true;
  num_add_nonneg : forall a d,
    num_leb num_zero a = true -> num_leb num_zero d = true ->
    num_leb a (num_add a d) = true
}.

Module Float64.

(** [Math.max] on doubles: NaN if either argument is NaN, and [+0] is
    larger than [-0]. *)
Definition max (a b : float) : float :=
  if (PrimFloat.is_nan a || PrimFloat.is_nan b)%bool then PrimFloat.nan
  else if PrimFloat.ltb a b then b
  else if PrimFloat.ltb b a then a
  else if PrimFloat.get_sign a then b else a.

#[global] Instance number : JSNumber float := {|
  num_zero := PrimFloat.zero;
  num_add := PrimFloat.add;
  Math_max := max;
  num_leb := PrimFloat.leb
|}.

End Float64.

Module Exact.

Definition max (a b : Q) : Q := if Qle_bool a b then b else a.

#[global] Instance number : JSNumber Q := {|
  num_zero := 0%Q;
  num_add := Qplus;
  Math_max := max;
  num_leb := Qle_bool
|}.

End Exact.

(** ** Objects of the Web Audio, media and SDK interfaces *)

(** Objects are referred to by handle: the index at which the object was
    created in the browser's table of its kind. *)
Definition handle := nat.

Record AudioBuffer (T : Type) := { duration : T }.
Arguments duration {T} _.

(** ** [utils/audioUtils] and the host

    [decodeAudio], [decodeAudioData] and [createPcmBlob] are imported from
    [../utils/audioUtils]; the handlers are written against their
    interface.  [None] stands for a thrown exception ([decodeAudio]) or a
    rejected promise ([decodeAudioData]). *)
Class AudioUtils (T : Type) := {
  Bytes : Type;
  Blob : Type;
  decodeAudio : string -> option Bytes;
  decodeAudioData : Bytes -> Z -> Z -> option (AudioBuffer T);
  createPcmBlob : list T -> Blob
}.

(** The calls by which [cleanup] releases a resource. *)
Inductive Call :=
| CallDisconnect (node : handle)
| CallTrackStop (stream : handle)
| CallClose (context : handle).

(** The host: the build-time [process.env.API_KEY], and which release
    calls throw.  ([AudioContext.close] reports failure by rejecting the
    promise it returns, which [cleanup] drops; only an exception changes
    the control flow.) *)
Record Host := { API_KEY : option string; throws : Call -> bool }.

Inductive AudioContextState := running | closed.
Inductive TrackState := live | ended.
Inductive PromiseState := Pending | Fulfilled | Rejected.

(** ** Exceptions

    A handler either runs to its end or is cut short by an exception; both
    carry the world as the handler left it. *)
Inductive Completion (A : Type) :=
| Normal (a : A)
| Abrupt (a : A).
Arguments Normal {A} _.
Arguments Abrupt {A} _.

Definition world_of {A} (c : Completion A) : A :=
  match c with Normal a | Abrupt a => a end.

Definition and_then {A} (c : Completion A) (k : A -> Completion A)
  : Completion A :=
  match c with Normal a => k a | Abrupt a => Abrupt a end.

Notation "x <- c ;; k" := (and_then c (fun x => k))
  (at level 100, c at next level, right associativity).

(** ** Messages of the live connection ([LiveServerMessage]) *)

Record InlineData := { data : option string; mimeType : option string }.
Record Part := { inlineData : option InlineData }.
Record Content := { parts : option (list Part) }.
Record ServerContent := { modelTurn : option Content }.
Record LiveServerMessage := { serverContent : option ServerContent }.

(** [message.serverContent?.modelTurn?.parts?.[0]?.inlineData?.data] *)
Definition audioData_of (message : LiveServerMessage) : option string :=
  sc ← serverContent message;
  mt ← modelTurn sc;
  ps ← parts mt;
  p ← ps !! 0%nat;
  i ← inlineData p;
  data i.

(** [getUserMedia] resolves to a stream or rejects with an error. *)
Inductive MediaResult := Granted | Refused (message : string).

(** JavaScript truthiness of an optional string, and [msg || dflt]. *)
Definition truthy (s : option string) : bool :=
  match s with Some s => bool_decide (s <> "") | None => false end.

Definition or_default (msg dflt : string) : string :=
  if bool_decide (msg = "") then dflt else msg.

Section Model.
Context {T : Type} {num : JSNumber T} {utils : AudioUtils T}.

Record AudioContext := {
  sampleRate : Z;
  state : AudioContextState;
  currentTime : T
}.

Record MediaStream := { tracks : list TrackState }.

(** A [ScriptProcessorNode] with its [onaudioprocess] handler, which
    closes over the session it was created for. *)
Record ScriptProcessor := {
  sp_context : handle;
  sp_bufferSize : nat;
  sp_session : handle;
  sp_connected : bool
}.

(** An [AudioBufferSourceNode] on which [start(when)] was called. *)
Record BufferSource := {
  bs_context : handle;
  bs_buffer : AudioBuffer T;
  bs_when : T
}.

(** One call of [ai.live.connect]: the bindings its callbacks close over
    ([isActive], [inputCtx], [outputCtx] with its [outputNode], [stream]),
    the promise [sessionPromise] with the [then] callbacks waiting on it
    (each holds the [pcmBlob] it will send), and what
    [session.sendRealtimeInput] has handed to the remote side. *)
Record Session := {
  s_isActive : bool;
  s_inputCtx : handle;
  s_outputCtx : handle;
  s_stream : handle;
  s_promise : PromiseState;
  s_thens : list Blob;
  s_sent : list Blob
}.

(** [toggleSession] suspended at [await getUserMedia]. *)
Record PendingStart := {
  ps_isActive : bool;
  ps_inputCtx : handle;
  ps_outputCtx : handle;
  ps_settled : bool
}.

(** [onmessage] suspended at [await decodeAudioData]: the session whose
    callback it is, the local [ctx], and how the promise will settle. *)
Record PendingDecode := {
  pd_session : handle;
  pd_ctx : handle;
  pd_result : option (AudioBuffer T);
  pd_settled : bool
}.

(** ** The component *)

(** [useState] cells. *)
Record UiState := {
  isActive : bool;
  status : string;
  error : option string
}.

(** [useRef] cells. *)
Record Refs := {
  inputContextRef : option handle;
  outputContextRef : option handle;
  nextStartTimeRef : T;
  sourcesRef : gset handle;
  sessionPromiseRef : option handle;
  streamRef : option handle;
  scriptProcessorRef : option handle
}.

Record Browser := {
  contexts : list AudioContext;
  streams : list MediaStream;
  processors : list ScriptProcessor;
  sources : list BufferSource;
  sessions : list Session;
  startsAwaiting : list PendingStart;
  decodesAwaiting : list PendingDecode;
  console : list string
}.

Record World := { ui : UiState; refs : Refs; browser : Browser }.

(** *** Field updates *)

Definition setIsActive (v : bool) (w : World) : World :=
  {| ui := {| isActive := v; status := status (ui w); error := error (ui w) |};
     refs := refs w; browser := browser w |}.

Definition setStatus (v : string) (w : World) : World :=
  {| ui := {| isActive := isActive (ui w); status := v; error := error (ui w) |};
     refs := refs w; browser := browser w |}.

Definition setError (v : option string) (w : World) : World :=
  {| ui := {| isActive := isActive (ui w); status := status (ui w); error := v |};
     refs := refs w; browser := browser w |}.

Definition with_refs (f : Refs -> Refs) (w : World) : World :=
  {| ui := ui w; refs := f (refs w); browser := browser w |}.

Definition with_browser (f : Browser -> Browser) (w : World) : World :=
  {| ui := ui w; refs := refs w; browser := f (browser w) |}.

Definition set_inputContextRef (v : option handle) : World -> World :=
  with_refs (fun r =>
    {| inputContextRef := v; outputContextRef := outputContextRef r;
       nextStartTimeRef := nextStartTimeRef r; sourcesRef := sourcesRef r;
       sessionPromiseRef := sessionPromiseRef r; streamRef := streamRef r;
       scriptProcessorRef := scriptProcessorRef r |}).

Definition set_outputContextRef (v : option handle) : World -> World :=
  with_refs (fun r =>
    {| inputContextRef := inputContextRef r; outputContextRef := v;
       nextStartTimeRef := nextStartTimeRef r; sourcesRef := sourcesRef r;
       sessionPromiseRef := sessionPromiseRef r; streamRef := streamRef r;
       scriptProcessorRef := scriptProcessorRef r |}).

Definition set_nextStartTimeRef (v : T) : World -> World :=
  with_refs (fun r =>
    {| inputContextRef := inputContextRef r;
       outputContextRef := outputContextRef r;
       nextStartTimeRef := v; sourcesRef := sourcesRef r;
       sessionPromiseRef := sessionPromiseRef r; streamRef := streamRef r;
       scriptProcessorRef := scriptProcessorRef r |}).

Definition set_sourcesRef (v : gset handle) : World -> World :=
  with_refs (fun r =>
    {| inputContextRef := inputContextRef r;
       outputContextRef := outputContextRef r;
       nextStartTimeRef := nextStartTimeRef r; sourcesRef := v;
       sessionPromiseRef := sessionPromiseRef r; streamRef := streamRef r;
       scriptProcessorRef := scriptProcessorRef r |}).

Definition set_sessionPromiseRef (v : option handle) : World -> World :=
  with_refs (fun r =>
    {| inputContextRef := inputContextRef r;
       outputContextRef := outputContextRef r;
       nextStartTimeRef := nextStartTimeRef r; sourcesRef := sourcesRef r;
       sessionPromiseRef := v; streamRef := streamRef r;
       scriptProcessorRef := scriptProcessorRef r |}).

Definition set_streamRef (v : option handle) : World -> World :=
  with_refs (fun r =>
    {| inputContextRef := inputContextRef r;
       outputContextRef := outputContextRef r;
       nextStartTimeRef := nextStartTimeRef r; sourcesRef := sourcesRef r;
       sessionPromiseRef := sessionPromiseRef r; streamRef := v;
       scriptProcessorRef := scriptProcessorRef r |}).

Definition set_scriptProcessorRef (v : option handle) : World -> World :=
  with_refs (fun r =>
    {| inputContextRef := inputContextRef r;
       outputContextRef := outputContextRef r;
       nextStartTimeRef := nextStartTimeRef r; sourcesRef := sourcesRef r;
       sessionPromiseRef := sessionPromiseRef r; streamRef := streamRef r;
       scriptProcessorRef := v |}).

Definition upd_contexts (f : list AudioContext -> list AudioContext)
  : World -> World :=
  with_browser (fun b =>
    {| contexts := f (contexts b); streams := streams b;
       processors := processors b; sources := sources b;
       sessions := sessions b; startsAwaiting := startsAwaiting b;
       decodesAwaiting := decodesAwaiting b; console := console b |}).

Definition upd_streams (f : list MediaStream -> list MediaStream)
  : World -> World :=
  with_browser (fun b =>
    {| contexts := contexts b; streams := f (streams b);
       processors := processors b; sources := sources b;
       sessions := sessions b; startsAwaiting := startsAwaiting b;
       decodesAwaiting := decodesAwaiting b; console := console b |}).

Definition upd_processors (f : list ScriptProcessor -> list ScriptProcessor)
  : World -> World :=
  with_browser (fun b =>
    {| contexts := contexts b; streams := streams b;
       processors := f (processors b); sources := sources b;
       sessions := sessions b; startsAwaiting := startsAwaiting b;
       decodesAwaiting := decodesAwaiting b; console := console b |}).

Definition upd_sources (f : list BufferSource -> list BufferSource)
  : World -> World :=
  with_browser (fun b =>
    {| contexts := contexts b; streams := streams b;
       processors := processors b; sources := f (sources b);
       sessions := sessions b; startsAwaiting := startsAwaiting b;
       decodesAwaiting := decodesAwaiting b; console := console b |}).

Definition upd_sessions (f : list Session -> list Session)
  : World -> World :=
  with_browser (fun b =>
    {| contexts := contexts b; streams := streams b;
       processors := processors b; sources := sources b;
       sessions := f (sessions b); startsAwaiting := startsAwaiting b;
       decodesAwaiting := decodesAwaiting b; console := console b |}).

Definition upd_startsAwaiting (f : list PendingStart -> list PendingStart)
  : World -> World :=
  with_browser (fun b =>
    {| contexts := contexts b; streams := streams b;
       processors := processors b; sources := sources b;
       sessions := sessions b; startsAwaiting := f (startsAwaiting b);
       decodesAwaiting := decodesAwaiting b; console := console b |}).

Definition upd_decodesAwaiting (f : list PendingDecode -> list PendingDecode)
  : World -> World :=
  with_browser (fun b =>
    {| contexts := contexts b; streams := streams b;
       processors := processors b; sources := sources b;
       sessions := sessions b; startsAwaiting := startsAwaiting b;
       decodesAwaiting := f (decodesAwaiting b); console := console b |}).

(** [console.error(err)]: the log keeps the message. *)
Definition console_error (msg : string) : World -> World :=
  with_browser (fun b =>
    {| contexts := contexts b; streams := streams b;
       processors := processors b; sources := sources b;
       sessions := sessions b; startsAwaiting := startsAwaiting b;
       decodesAwaiting := decodesAwaiting b; console := console b ++ [msg] |}).

(** ** Browser operations *)

Definition new_AudioContext (rate : Z) (w : World) : handle * World :=
  (length (contexts (browser w)),
   upd_contexts (fun l => l ++
     [{| sampleRate := rate; state := running; currentTime := num_zero |}]) w).

Definition disconnected (sp : ScriptProcessor) : ScriptProcessor :=
  {| sp_context := sp_context sp; sp_bufferSize := sp_bufferSize sp;
     sp_session := sp_session sp; sp_connected := false |}.

Definition stopped (ms : MediaStream) : MediaStream :=
  {| tracks := (fun _ => ended) <$> tracks ms |}.

(** A closed context keeps its last [currentTime]. *)
Definition closed_context (ac : AudioContext) : AudioContext :=
  {| sampleRate := sampleRate ac; state := closed;
     currentTime := currentTime ac |}.

(** [node.disconnect()] *)
Definition disconnect (h : Host) (p : handle) (w : World) : Completion World :=
  if throws h (CallDisconnect p) then Abrupt w
  else Normal (upd_processors (alter disconnected p) w).

(** [stream.getTracks().forEach(track => track.stop())] *)
Definition stop_tracks (h : Host) (s : handle) (w : World) : Completion World :=
  if throws h (CallTrackStop s) then Abrupt w
  else Normal (upd_streams (alter stopped s) w).

(** [context.close()]: the context counts as closed from the call on. *)
Definition close (h : Host) (c : handle) (w : World) : Completion World :=
  if throws h (CallClose c) then Abrupt w
  else Normal (upd_contexts (alter closed_context c) w).

(** ** The handlers of [LiveTranslator.tsx] *)

(** [cleanup] (lines 25-44). *)
Definition cleanup (h : Host) (w : World) : Completion World :=
  w <- match scriptProcessorRef (refs w) with
       | Some p => w <- disconnect h p w;;
                   Normal (set_scriptProcessorRef None w)
       | None => Normal w
       end;;
  w <- match streamRef (refs w) with
       | Some s => w <- stop_tracks h s w;;
                   Normal (set_streamRef None w)
       | None => Normal w
       end;;
  w <- match inputContextRef (refs w) with
       | Some c => w <- close h c w;;
                   Normal (set_inputContextRef None w)
       | None => Normal w
       end;;
  w <- match outputContextRef (refs w) with
       | Some c => w <- close h c w;;
                   Normal (set_outputContextRef None w)
       | None => Normal w
       end;;
  Normal (set_sessionPromiseRef None w).

(** The [catch] block of [toggleSession] (lines 167-172). *)
Definition toggleSession_catch (h : Host) (message : string) (w : World)
  : Completion World :=
  let w := console_error message w in
  let w := setError (Some (or_default message "Failed to start live session")) w in
  let w := setIsActive false w in
  cleanup h w.

(** [toggleSession] up to [await getUserMedia] (lines 50-79).  [isActive]
    is the value the closure of the current render holds.  The two
    [AudioContext] constructors are taken to succeed; a new context is
    running and its clock reads [0]. *)
Definition toggleSession (h : Host) (isActive : bool) (w : World)
  : Completion World :=
  if isActive then
    let w := setIsActive false w in
    let w := setStatus "Disconnected" w in
    cleanup h w
  else
    let w := setIsActive true w in
    let w := setStatus "Connecting..." w in
    let w := setError None w in
    if negb (truthy (API_KEY h)) then toggleSession_catch h "API Key missing" w
    else
      let '(inputCtx, w) := new_AudioContext 16000 w in
      let '(outputCtx, w) := new_AudioContext 24000 w in
      let w := set_inputContextRef (Some inputCtx) w in
      let w := set_outputContextRef (Some outputCtx) w in
      let w := set_nextStartTimeRef num_zero w in
      Normal (upd_startsAwaiting (fun l => l ++
        [{| ps_isActive := isActive; ps_inputCtx := inputCtx;
            ps_outputCtx := outputCtx; ps_settled := false |}]) w).

(** [toggleSession] after [await getUserMedia] (lines 80-165): the stream
    (one live audio track) is stored, [ai.live.connect] is called and its
    promise stored; or [getUserMedia] rejected and the [catch] block
    runs. *)
Definition toggleSession_resume (h : Host) (ps : PendingStart)
  (r : MediaResult) (w : World) : Completion World :=
  match r with
  | Refused message => toggleSession_catch h message w
  | Granted =>
      let stream := length (streams (browser w)) in
      let w := upd_streams (fun l => l ++ [{| tracks := [live] |}]) w in
      let w := set_streamRef (Some stream) w in
      let sessionPromise := length (sessions (browser w)) in
      let w := upd_sessions (fun l => l ++
        [{| s_isActive := ps_isActive ps; s_inputCtx := ps_inputCtx ps;
            s_outputCtx := ps_outputCtx ps; s_stream := stream;
            s_promise := Pending; s_thens := []; s_sent := [] |}]) w in
      Normal (set_sessionPromiseRef (Some sessionPromise) w)
  end.

(** [onopen] (lines 87-106): the processor is created, stored, given its
    handler and connected between the stream source and the destination. *)
Definition onopen (sid : handle) (s : Session) (w : World) : World :=
  let w := setStatus "Connected - Speak now" w in
  let processor := length (processors (browser w)) in
  let w := upd_processors (fun l => l ++
    [{| sp_context := s_inputCtx s; sp_bufferSize := 4096;
        sp_session := sid; sp_connected := true |}]) w in
  set_scriptProcessorRef (Some processor) w.

(** [session.sendRealtimeInput({ media })] *)
Definition sendRealtimeInput (sid : handle) (media : Blob) : World -> World :=
  upd_sessions (alter (fun s =>
    {| s_isActive := s_isActive s; s_inputCtx := s_inputCtx s;
       s_outputCtx := s_outputCtx s; s_stream := s_stream s;
       s_promise := s_promise s; s_thens := s_thens s;
       s_sent := s_sent s ++ [media] |}) sid).

(** [sessionPromise.then(session => session.sendRealtimeInput(...))]: on a
    fulfilled promise the callback runs as a microtask, before any other
    event; on a pending one it waits, in registration order; on a rejected
    one it is never called. *)
Definition then_send (sid : handle) (pcmBlob : Blob) (w : World) : World :=
  match sessions (browser w) !! sid with
  | Some s =>
      match s_promise s with
      | Fulfilled => sendRealtimeInput sid pcmBlob w
      | Pending =>
          upd_sessions (alter (fun s =>
            {| s_isActive := s_isActive s; s_inputCtx := s_inputCtx s;
               s_outputCtx := s_outputCtx s; s_stream := s_stream s;
               s_promise := s_promise s; s_thens := s_thens s ++ [pcmBlob];
               s_sent := s_sent s |}) sid) w
      | Rejected => w
      end
  | None => w
  end.

(** [processor.onaudioprocess] (lines 95-102), in the closure of session
    [sid]. *)
Definition onaudioprocess (sid : handle) (inputData : list T) (w : World)
  : World :=
  let pcmBlob := createPcmBlob inputData in
  then_send sid pcmBlob w.

(** [onmessage] up to [await decodeAudioData] (lines 107-122). *)
Definition onmessage (sid : handle) (message : LiveServerMessage) (w : World)
  : World :=
  match audioData_of message with
  | Some audioData =>
      if bool_decide (audioData = "") then w
      else
        match outputContextRef (refs w) with
        | None => w
        | Some ctx =>
            match contexts (browser w) !! ctx with
            | None => w
            | Some ac =>
                let w := set_nextStartTimeRef
                  (Math_max (nextStartTimeRef (refs w)) (currentTime ac)) w in
                match decodeAudio audioData with
                | None => w
                | Some bytes =>
                    upd_decodesAwaiting (fun l => l ++
                      [{| pd_session := sid; pd_ctx := ctx;
                          pd_result := decodeAudioData bytes 24000 1;
                          pd_settled := false |}]) w
                end
            end
        end
  | None => w
  end.

(** [onmessage] after [await decodeAudioData] (lines 124-134).
    [source.connect(outputNode)] throws [InvalidAccessError] when [ctx]
    is not the context [outputNode] was created on. *)
Definition onmessage_resume (pd : PendingDecode) (w : World) : World :=
  match pd_result pd with
  | None => w
  | Some audioBuffer =>
      match sessions (browser w) !! pd_session pd with
      | None => w
      | Some s =>
          if bool_decide (pd_ctx pd = s_outputCtx s) then
            let source := length (sources (browser w)) in
            let w := upd_sources (fun l => l ++
              [{| bs_context := pd_ctx pd; bs_buffer := audioBuffer;
                  bs_when := nextStartTimeRef (refs w) |}]) w in
            let w := set_nextStartTimeRef
              (num_add (nextStartTimeRef (refs w)) (duration audioBuffer)) w in
            set_sourcesRef ({[source]} ∪ sourcesRef (refs w)) w
          else w
      end
  end.

(** The ['ended'] listener (lines 128-130). *)
Definition onended (source : handle) (w : World) : World :=
  set_sourcesRef (sourcesRef (refs w) ∖ {[source]}) w.

(** [onclose] (lines 137-142); [isActive] is the binding of the render in
    which [toggleSession] ran. *)
Definition onclose (s : Session) (w : World) : World :=
  if s_isActive s then
    let w := setStatus "Connection Closed" w in
    setIsActive false w
  else w.

(** [onerror] (lines 143-147). *)
Definition onerror (err : string) (w : World) : World :=
  let w := console_error err w in
  let w := setError (Some "Connection error occurred") w in
  setIsActive false w.

(** ** The event loop *)

(** The session promise settles once.  On fulfilment the waiting [then]
    callbacks run in registration order; on rejection they are dropped. *)
Definition settle_sessionPromise (sid : handle) (ok : bool) (w : World)
  : World :=
  match sessions (browser w) !! sid with
  | Some s =>
      match s_promise s with
      | Pending =>
          upd_sessions (alter (fun s =>
            {| s_isActive := s_isActive s; s_inputCtx := s_inputCtx s;
               s_outputCtx := s_outputCtx s; s_stream := s_stream s;
               s_promise := if ok then Fulfilled else Rejected;
               s_thens := [];
               s_sent := if ok then s_sent s ++ s_thens s else s_sent s |})
            sid) w
      | _ => w
      end
  | None => w
  end.

Definition settle_start (ps : PendingStart) : PendingStart :=
  {| ps_isActive := ps_isActive ps; ps_inputCtx := ps_inputCtx ps;
     ps_outputCtx := ps_outputCtx ps; ps_settled := true |}.

Definition settle_decode (pd : PendingDecode) : PendingDecode :=
  {| pd_session := pd_session pd; pd_ctx := pd_ctx pd;
     pd_result := pd_result pd; pd_settled := true |}.

(** The audio thread publishes a new [currentTime] for a running context. *)
Definition tick (t : T) (ac : AudioContext) : AudioContext :=
  match state ac with
  | running => {| sampleRate := sampleRate ac; state := running;
                  currentTime := t |}
  | closed => ac
  end.

Definition is_running (ac : AudioContext) : bool :=
  match state ac with running => true | closed => false end.

Definition context_running (c : handle) (w : World) : bool :=
  match contexts (browser w) !! c with
  | Some ac => is_running ac
  | None => false
  end.

Definition processor_connected (p : handle) (w : World) : bool :=
  match processors (browser w) !! p with
  | Some sp => sp_connected sp
  | None => false
  end.

Definition is_live (t : TrackState) : bool :=
  match t with live => true | ended => false end.

(** Some track of the stream is still capturing. *)
Definition stream_live (s : handle) (w : World) : bool :=
  match streams (browser w) !! s with
  | Some ms => existsb is_live (tracks ms)
  | None => false
  end.

(** What can happen to the mounted component: the user clicks the button,
    React unmounts it, a promise a handler awaits settles, the SDK calls
    one of the callbacks given to [ai.live.connect], an audio node fires,
    the audio clock moves. *)
Inductive Event :=
| Click
| Unmount
| MediaSettled (k : nat) (r : MediaResult)
| RemoteOpen (sid : handle)
| ConnectSettled (sid : handle) (ok : bool)
| AudioProcess (p : handle) (inputData : list T)
| RemoteMessage (sid : handle) (message : LiveServerMessage)
| DecodeSettled (k : nat)
| SourceEnded (source : handle)
| RemoteClose (sid : handle)
| RemoteError (sid : handle) (err : string)
| Tick (ctx : handle) (t : T).

(** One turn of the event loop.  An event for an object that does not
    exist, a promise that has settled, or an [audioprocess] of a node that
    is disconnected or whose context is closed, does not occur: the world
    is unchanged.  An exception that escapes a handler ends that handler
    and nothing else. *)
Definition step (h : Host) (e : Event) (w : World) : World :=
  match e with
  | Click => world_of (toggleSession h (isActive (ui w)) w)
  | Unmount => world_of (cleanup h w)
  | MediaSettled k r =>
      match startsAwaiting (browser w) !! k with
      | Some ps =>
          if ps_settled ps then w
          else world_of (toggleSession_resume h ps r
                 (upd_startsAwaiting (alter settle_start k) w))
      | None => w
      end
  | RemoteOpen sid =>
      match sessions (browser w) !! sid with
      | Some s => onopen sid s w
      | None => w
      end
  | ConnectSettled sid ok => settle_sessionPromise sid ok w
  | AudioProcess p inputData =>
      match processors (browser w) !! p with
      | Some sp =>
          if sp_connected sp && context_running (sp_context sp) w
          then onaudioprocess (sp_session sp) inputData w
          else w
      | None => w
      end
  | RemoteMessage sid message =>
      match sessions (browser w) !! sid with
      | Some _ => onmessage sid message w
      | None => w
      end
  | DecodeSettled k =>
      match decodesAwaiting (browser w) !! k with
      | Some pd =>
          if pd_settled pd then w
          else onmessage_resume pd
                 (upd_decodesAwaiting (alter settle_decode k) w)
      | None => w
      end
  | SourceEnded source =>
      match sources (browser w) !! source with
      | Some _ => onended source w
      | None => w
      end
  | RemoteClose sid =>
      match sessions (browser w) !! sid with
      | Some s => onclose s w
      | None => w
      end
  | RemoteError sid err =>
      match sessions (browser w) !! sid with
      | Some _ => onerror err w
      | None => w
      end
  | Tick c t => upd_contexts (alter (tick t) c) w
  end.

Definition run (h : Host) (events : list Event) (w : World) : World :=
  foldl (fun w e => step h e w) w events.

(** The component as mounted (lines 12-23). *)
Definition mount : World :=
  {| ui := {| isActive := false; status := "Ready to connect";
              error := None |};
     refs := {| inputContextRef := None; outputContextRef := None;
                nextStartTimeRef := num_zero; sourcesRef := ∅;
                sessionPromiseRef := None; streamRef := None;
                scriptProcessorRef := None |};
     browser := {| contexts := []; streams := []; processors := [];
                   sources := []; sessions := []; startsAwaiting := [];
                   decodesAwaiting := []; console := [] |} |}.

(** ** Observations used in the statements *)

Definition all_null (r : Refs) : Prop :=
  scriptProcessorRef r = None /\ streamRef r = None /\
  inputContextRef r = None /\ outputContextRef r = None /\
  sessionPromiseRef r = None.

(** The playback cursor. *)
Definition cursor (w : World) : T := nextStartTimeRef (refs w).

(** Where a scheduled buffer ends. *)
Definition bs_end (src : BufferSource) : T :=
  num_add (bs_when src) (duration (bs_buffer src)).

(** Buffers scheduled one after another, starting no earlier than [c] and
    ending no later than [c']: each starts at or after the end of the one
    before it. *)
Fixpoint chained (c : T) (l : list BufferSource) (c' : T) : bool :=
  match l with
  | [] => num_leb c c'
  | src :: l => num_leb c (bs_when src) && chained (bs_end src) l c'
  end.

Definition nonneg_duration (src : BufferSource) : Prop :=
  num_leb num_zero (duration (bs_buffer src)) = true.

(** Audio buffers have a duration of at least zero. *)
Definition durations_nonneg : Prop :=
  forall bytes rate channels b,
    decodeAudioData bytes rate channels = Some b ->
    num_leb num_zero (duration b) = true.

Definition pending_nonneg (w : World) : Prop :=
  forall k pd b,
    decodesAwaiting (browser w) !! k = Some pd ->
    pd_result pd = Some b ->
    num_leb num_zero (duration b) = true.

(** What [onmessage] makes of a message when nothing fails: the buffer
    decoded from the payload of its first part. *)
Definition decoded (message : LiveServerMessage) : option (AudioBuffer T) :=
  audioData ← audioData_of message;
  if bool_decide (audioData = "") then None
  else bytes ← decodeAudio audioData; decodeAudioData bytes 24000 1.

(** Chunks arrive on a session and their decodes settle, oldest first: a
    turn is the arrival of a message or the settling of the decode that
    has been pending longest. *)
Inductive Turn :=
| Arrives (message : LiveServerMessage)
| DecodeSettles.

Fixpoint oldest_pending (l : list PendingDecode) : nat :=
  match l with
  | [] => 0
  | pd :: l => if pd_settled pd then S (oldest_pending l) else 0
  end.

Definition turn (h : Host) (sid : handle) (t : Turn) (w : World) : World :=
  match t with
  | Arrives message => step h (RemoteMessage sid message) w
  | DecodeSettles =>
      step h (DecodeSettled (oldest_pending (decodesAwaiting (browser w)))) w
  end.

Definition arrivals (turns : list Turn) : list LiveServerMessage :=
  omap (fun t => match t with Arrives m => Some m | DecodeSettles => None end)
    turns.

Definition all_settled (l : list PendingDecode) : Prop :=
  Forall (fun pd => pd_settled pd = true) l.

(** Decodes not yet settled, started by the [onmessage] of session [sid]
    on the context [ctx]. *)
Definition in_flight (sid ctx : handle) (l : list PendingDecode) : Prop :=
  Forall (fun pd => pd_settled pd = false /\ pd_session pd = sid /\
                    pd_ctx pd = ctx) l.

(** No [onmessage] is suspended. *)
Definition none_in_flight (w : World) : Prop :=
  all_settled (decodesAwaiting (browser w)).

(** Nothing of the session is torn down or reported between [w] and [w']:
    same lifecycle state, same console, same device objects, same
    handles. *)
Definition undisturbed (w w' : World) : Prop :=
  ui w' = ui w /\
  console (browser w') = console (browser w) /\
  contexts (browser w') = contexts (browser w) /\
  streams (browser w') = streams (browser w) /\
  processors (browser w') = processors (browser w) /\
  sessions (browser w') = sessions (browser w) /\
  inputContextRef (refs w') = inputContextRef (refs w) /\
  outputContextRef (refs w') = outputContextRef (refs w) /\
  streamRef (refs w') = streamRef (refs w) /\
  scriptProcessorRef (refs w') = scriptProcessorRef (refs w) /\
  sessionPromiseRef (refs w') = sessionPromiseRef (refs w).

(** A number: NaN alone is not at or below itself. *)
Definition is_number (t : T) : Prop := num_leb t t = true.

(** The clock of every context reads a number. *)
Definition clocks_read_numbers (w : World) : Prop :=
  Forall (fun ac => is_number (currentTime ac)) (contexts (browser w)).

(** The audio thread publishes numbers only. *)
Definition tick_is_number (e : Event) : Prop :=
  match e with
  | Tick _ t => is_number t
  | _ => True
  end.

Definition ticks_are_numbers (events : list Event) : Prop :=
  Forall tick_is_number events.

End Model.

(** ** Fixtures for concrete runs *)

Module Fixture.

(** A host with an API key on which no release call throws. *)
Definition host : Host :=
  {| API_KEY := Some "key"; throws := fun _ => false |}.


(** A table-driven stand-in for [utils/audioUtils]: the payload names the
    decoded buffer's duration; ["corrupt"] makes [decodeAudio] throw and
    ["garbled"] makes [decodeAudioData] reject.  A frame is sent as it
    is. *)
Definition utils {T : Type} (half third one : T) : AudioUtils T :=
  {| Bytes := string;
     Blob := list T;
     decodeAudio := fun s =>
       if bool_decide (s = "corrupt") then None else Some s;
     decodeAudioData := fun b _ _ =>
       if bool_decide (b = "garbled") then None
       else if bool_decide (b = "half") then Some {| duration := half |}
       else if bool_decide (b = "third") then Some {| duration := third |}
       else Some {| duration := one |};
     createPcmBlob := fun frame => frame |}.

(** A server message whose first part carries [payload] as inline audio. *)
Definition chunk (payload : string) : LiveServerMessage :=
  {| serverContent := Some {| modelTurn := Some {| parts := Some
       [{| inlineData := Some {| data := Some payload;
             mimeType := Some "audio/pcm;rate=24000" |} |}] |} |} |}.

(** The events that bring a mounted component to a live session: start,
    microphone granted, connection opened, session promise fulfilled. *)
Definition go_live {T : Type} : list (@Event T) :=
  [Click; MediaSettled 0 Granted; RemoteOpen 0; ConnectSettled 0 true].

End Fixture.

(** Runs on doubles. *)
Module FloatRun.

#[global] Instance utils : AudioUtils float :=
  Fixture.utils 0.5%float 0.3%float 1%float.

Definition active : World := run Fixture.host Fixture.go_live mount.

(** The same session after one chunk of half a second was scheduled. *)
Definition played : World :=
  run Fixture.host
    [RemoteMessage 0 (Fixture.chunk "half"); DecodeSettled 0] active.

(** ... and after the user has then stopped it. *)
Definition stopped : World := step Fixture.host Click played.

End FloatRun.

(** Runs on exact rationals. *)
Module ExactRun.

#[global] Instance utils : AudioUtils Q :=
  Fixture.utils (1 # 2)%Q (3 # 10)%Q 1%Q.

Definition active : World := run Fixture.host Fixture.go_live mount.

End ExactRun.

(** * The translation service and the application shell

    [services/geminiService.ts], [constants.ts], [types.ts],
    [components/LanguageSelect.tsx] and the handlers of [App.tsx]. *)

(** ** Thrown values and settled promises *)

Module Js.

(** A thrown value (an object or a primitive other than [null] and
    [undefined]), as far as the code looks at it: its [message], which is
    [undefined] for a value that is not an [Error], such as the event a
    [FileReader] rejects with. *)
Record Thrown := { message : option string }.

(** [new Error(msg)] *)
Definition Error (msg : string) : Thrown := {| message := Some msg |}.

(** What an awaited promise settles with. *)
Inductive Settled (A : Type) :=
| Resolved (value : A)
| Rejected (reason : Thrown).
Arguments Resolved {A} value.
Arguments Rejected {A} reason.

(** [x || dflt] *)
Definition or_else (x : option string) (dflt : string) : string :=
  if truthy x then default dflt x else dflt.

(** [x] appended to a string: [undefined] reads as the word. *)
Definition to_string (x : option string) : string := default "undefined" x.

(** [s.toLowerCase()], on the letters A to Z. *)
Definition lower (c : Ascii.ascii) : Ascii.ascii :=
  let n := Ascii.nat_of_ascii c in
  if (65 <=? n)%nat && (n <=? 90)%nat then Ascii.ascii_of_nat (n + 32)
  else c.

Fixpoint toLowerCase (s : string) : string :=
  match s with
  | EmptyString => EmptyString
  | String c s => String (lower c) (toLowerCase s)
  end.

(** The comma, code unit 44. *)
Definition COMMA : Ascii.ascii := Ascii.ascii_of_nat 44.

(** [s.split(',')] *)
Fixpoint split_comma (s : string) : list string :=
  match s with
  | EmptyString => [EmptyString]
  | String c s =>
      if Ascii.eqb c COMMA then EmptyString :: split_comma s
      else match split_comma s with
           | x :: l => String c x :: l
           | [] => [String c EmptyString]
           end
  end.

(** The line feed and the double quote of a template literal. *)
Definition LF : string := String (Ascii.ascii_of_nat 10) EmptyString.
Definition QUOTE : string := String (Ascii.ascii_of_nat 34) EmptyString.

End Js.

(** ** [types.ts] *)

Inductive TranslationMode := TEXT | DOCUMENT | AUDIO | VIDEO | IMAGE | LIVE.

(** The string each member stands for; [===] on modes compares these. *)
Definition TranslationMode_value (m : TranslationMode) : string :=
  match m with
  | TEXT => "TEXT"
  | DOCUMENT => "DOCUMENT"
  | AUDIO => "AUDIO"
  | VIDEO => "VIDEO"
  | IMAGE => "IMAGE"
  | LIVE => "LIVE"
  end.

Definition mode_is (m id : TranslationMode) : bool :=
  bool_decide (TranslationMode_value m = TranslationMode_value id).

Inductive Tone := CASUAL | PROFESSIONAL | CREATIVE | ACADEMIC | PRECISE.

Definition Tone_value (t : Tone) : string :=
  match t with
  | CASUAL => "Casual"
  | PROFESSIONAL => "Professional"
  | CREATIVE => "Creative"
  | ACADEMIC => "Academic"
  | PRECISE => "Literal/Precise"
  end.

Module Language.
Record t := { code : string; name : string }.
End Language.

Module ModelOption.
Record t := { id : string; name : string; description : string }.
End ModelOption.

(** [content] is a string by its type; at run time it is whatever
    [fileToBase64] resolved with, which can be [undefined]. *)
Module TranslationRequest.
Record t := {
  sourceLang : string;
  targetLang : string;
  content : option string;
  mimeType : option string;
  mode : TranslationMode;
  model : string;
  tone : Tone
}.
End TranslationRequest.

(** ** [constants.ts] *)

Module constants.

Definition MODELS : list ModelOption.t := [
  {| ModelOption.id := "gemini-2.0-flash";
     ModelOption.name := "Gemini 2.0 Flash";
     ModelOption.description := "Fast experimental model." |};
  {| ModelOption.id := "gemini-2.5-flash-lite";
     ModelOption.name := "Gemini 2.5 Flash Lite";
     ModelOption.description := "Lightweight and cost-effective." |};
  {| ModelOption.id := "gemini-2.5-flash";
     ModelOption.name := "Gemini 2.5 Flash";
     ModelOption.description :=
       "Balanced performance & cost. Best for general use." |};
  {| ModelOption.id := "gemini-2.5-pro";
     ModelOption.name := "Gemini 2.5 Pro";
     ModelOption.description :=
       "High reasoning capability for complex translations." |};
  {| ModelOption.id := "gemini-3-flash-preview";
     ModelOption.name := "Gemini 3 Flash";
     ModelOption.description := "Most recent model, greatly developed." |};
  {| ModelOption.id := "gemini-3-pro-preview";
     ModelOption.name := "Gemini 3 Pro";
     ModelOption.description :=
       "High reasoning capability for complex translations." |}
].

Definition TONES : list Tone :=
  [PROFESSIONAL; CASUAL; CREATIVE; ACADEMIC; PRECISE].

Definition language (code name : string) : Language.t :=
  {| Language.code := code; Language.name := name |}.

Definition LANGUAGES : list Language.t := [
  language "auto" "Detect Language";
  language "en" "English";
  language "es" "Spanish";
  language "fr" "French";
  language "de" "German";
  language "zh" "Chinese (Simplified)";
  language "ja" "Japanese";
  language "ko" "Korean";
  language "it" "Italian";
  language "pt" "Portuguese";
  language "ru" "Russian";
  language "ar" "Arabic";
  language "hi" "Hindi";
  language "bn" "Bengali";
  language "nl" "Dutch";
  language "tr" "Turkish";
  language "vi" "Vietnamese";
  language "pl" "Polish";
  language "uk" "Ukrainian";
  language "th" "Thai";
  language "id" "Indonesian";
  language "cs" "Czech";
  language "sv" "Swedish";
  language "da" "Danish";
  language "fi" "Finnish";
  language "el" "Greek";
  language "he" "Hebrew"
].

End constants.

(** ** [components/LanguageSelect.tsx]: the options of the select *)

Module LanguageSelect.

Definition options (excludeAuto : bool) : list Language.t :=
  List.filter
    (fun l => if excludeAuto then bool_decide (Language.code l <> "auto")
              else true)
    constants.LANGUAGES.

End LanguageSelect.

(** ** The [@google/genai] calls of the service *)

Module GenAI.

(** [new GoogleGenAI({ apiKey })] *)
Record Client := { apiKey : string }.

Inductive Modality := AUDIO.

(** A part of a request: [{ text }] or [{ inlineData: { mimeType, data } }]. *)
Inductive RequestPart :=
| TextPart (text : option string)
| InlineDataPart (mimeType : string) (data : option string).

(** The [config] of a request: [{ systemInstruction, temperature }], or
    [{ responseModalities, speechConfig }] down to its [voiceName]. *)
Inductive Config :=
| TranslationConfig (systemInstruction : string) (temperature : float)
| SpeechConfig (responseModalities : list Modality) (voiceName : string).

(** The argument of [ai.models.generateContent]; [role] and [parts] are
    those of its [contents]. *)
Record GenerateContentParameters := {
  model : string;
  role : option string;
  parts : list RequestPart;
  config : Config
}.

Record Candidate := { content : option Content }.

(** The response, as far as the service reads it. *)
Record GenerateContentResponse := {
  text : option string;
  candidates : option (list Candidate)
}.

(** The remote side: what a [generateContent] call settles with. *)
Definition Remote : Type :=
  Client -> GenerateContentParameters -> Js.Settled GenerateContentResponse.

End GenAI.

(** ** [services/geminiService.ts] *)

Module Gemini.

(** A line of [console.error(label, error)]. *)
Definition LogLine : Type := string * Js.Thrown.

(** What a call of the service did: the requests it issued and the lines
    it logged. *)
Record Effects := {
  requests : list (GenAI.Client * GenAI.GenerateContentParameters);
  console : list LogLine
}.

Definition getAiClient (h : Host) : Js.Thrown + GenAI.Client :=
  if truthy (API_KEY h) then
    inr {| GenAI.apiKey := default EmptyString (API_KEY h) |}
  else
    inl (Js.Error
      "API Key is missing. Please ensure process.env.API_KEY is available.").

Definition systemInstruction (request : TranslationRequest.t) : string :=
  let tone := Tone_value (TranslationRequest.tone request) in
  let sourceLang := TranslationRequest.sourceLang request in
  let targetLang := TranslationRequest.targetLang request in
  "You are OmniTranslate, a world-class expert translator and linguist. "
  +:+ Js.LF +:+
  "  Your goal is to provide the most accurate, natural, and context-aware translation possible."
  +:+ Js.LF +:+
  "  " +:+ Js.LF +:+
  "  Current Settings:" +:+ Js.LF +:+
  "  - Tone: " +:+ tone +:+ Js.LF +:+
  "  - Source Language: " +:+
  (if bool_decide (sourceLang = "auto") then "Detect automatically"
   else sourceLang) +:+ Js.LF +:+
  "  - Target Language: " +:+ targetLang +:+ Js.LF +:+
  "  " +:+ Js.LF +:+
  "  Instructions:" +:+ Js.LF +:+
  "  1. Translate the input content into " +:+ targetLang +:+ "." +:+ Js.LF +:+
  "  2. Maintain the requested tone (" +:+ tone +:+ ")." +:+ Js.LF +:+
  "  3. If the input is an audio or video file, transcribe the speech and then translate it."
  +:+ Js.LF +:+
  "  4. If the input is an image, transcribe any text found within the image and translate it. Describe relevant visual context if it aids understanding."
  +:+ Js.LF +:+
  "  5. If the input is a document, preserve the formatting structure as best as possible in plain text."
  +:+ Js.LF +:+
  "  6. OUTPUT ONLY THE TRANSLATED TEXT. Do not add introductory phrases like "
  +:+ Js.QUOTE +:+ "Here is the translation:" +:+ Js.QUOTE +:+ "." +:+ Js.LF +:+
  "  ".

Definition effectiveModel (request : TranslationRequest.t) : string :=
  if mode_is (TranslationRequest.mode request) IMAGE
  then "gemini-2.5-pro-preview"
  else TranslationRequest.model request.

(** The [parts] of the request, or the exception of line 45. *)
Definition request_parts (request : TranslationRequest.t)
  : Js.Thrown + list GenAI.RequestPart :=
  if mode_is (TranslationRequest.mode request) TEXT then
    inr [GenAI.TextPart (TranslationRequest.content request)]
  else if truthy (TranslationRequest.mimeType request) then
    inr [GenAI.InlineDataPart
           (default EmptyString (TranslationRequest.mimeType request))
           (TranslationRequest.content request);
         GenAI.TextPart (Some (
           "Translate this " +:+
           Js.toLowerCase
             (TranslationMode_value (TranslationRequest.mode request)) +:+
           " file content to " +:+
           TranslationRequest.targetLang request +:+ "."))]
  else inl (Js.Error "MIME type is required for file translation.").

(** [translateContent] up to its [await]: an exception (the promise is
    rejected and nothing was requested), or the request it issues. *)
Definition translateContent_call (h : Host) (request : TranslationRequest.t)
  : Js.Thrown + GenAI.Client * GenAI.GenerateContentParameters :=
  match getAiClient h with
  | inl e => inl e
  | inr ai =>
      match request_parts request with
      | inl e => inl e
      | inr parts =>
          inr (ai, {| GenAI.model := effectiveModel request;
                      GenAI.role := Some "user";
                      GenAI.parts := parts;
                      GenAI.config :=
                        GenAI.TranslationConfig (systemInstruction request)
                                                0.3%float |})
      end
  end.

(** [catch (error) { console.error(label, error); throw error; }] *)
Definition logged {A} (label : string) (body : Js.Settled A)
  : Js.Settled A * list LogLine :=
  match body with
  | Js.Resolved v => (Js.Resolved v, [])
  | Js.Rejected error => (Js.Rejected error, [(label, error)])
  end.

(** [translateContent] from its [await] on: the [try] block and its
    [catch]. *)
Definition translateContent_settle
  (outcome : Js.Settled GenAI.GenerateContentResponse)
  : Js.Settled string * list LogLine :=
  logged "Translation Error:"
    match outcome with
    | Js.Resolved response =>
        let resultText := GenAI.text response in
        if truthy resultText then Js.Resolved (default EmptyString resultText)
        else Js.Rejected (Js.Error "No translation returned from the model.")
    | Js.Rejected error => Js.Rejected error
    end.

Definition translateContent (h : Host) (remote : GenAI.Remote)
  (request : TranslationRequest.t) : Js.Settled string * Effects :=
  match translateContent_call h request with
  | inl e => (Js.Rejected e, {| requests := []; console := [] |})
  | inr (ai, params) =>
      let (result, lines) := translateContent_settle (remote ai params) in
      (result, {| requests := [(ai, params)]; console := lines |})
  end.

(** [generateSpeech] up to its [await]. *)
Definition generateSpeech_call (h : Host) (text : string)
  : Js.Thrown + GenAI.Client * GenAI.GenerateContentParameters :=
  match getAiClient h with
  | inl e => inl e
  | inr ai =>
      inr (ai, {| GenAI.model := "gemini-2.5-flash-preview-tts";
                  GenAI.role := None;
                  GenAI.parts := [GenAI.TextPart (Some text)];
                  GenAI.config := GenAI.SpeechConfig [GenAI.AUDIO] "Kore" |})
  end.

(** [response.candidates?.[0]?.content?.parts?.[0]?.inlineData?.data] *)
Definition audioData_of (response : GenAI.GenerateContentResponse)
  : option string :=
  cs ← GenAI.candidates response;
  c ← cs !! 0%nat;
  ct ← GenAI.content c;
  ps ← parts ct;
  p ← ps !! 0%nat;
  i ← inlineData p;
  data i.

(** [generateSpeech] from its [await] on. *)
Definition generateSpeech_settle
  (outcome : Js.Settled GenAI.GenerateContentResponse)
  : Js.Settled string * list LogLine :=
  logged "TTS Error:"
    match outcome with
    | Js.Resolved response =>
        let audioData := audioData_of response in
        if truthy audioData then Js.Resolved (default EmptyString audioData)
        else Js.Rejected (Js.Error "No audio data generated.")
    | Js.Rejected error => Js.Rejected error
    end.

Definition generateSpeech (h : Host) (remote : GenAI.Remote) (text : string)
  : Js.Settled string * Effects :=
  match generateSpeech_call h text with
  | inl e => (Js.Rejected e, {| requests := []; console := [] |})
  | inr (ai, params) =>
      let (result, lines) := generateSpeech_settle (remote ai params) in
      (result, {| requests := [(ai, params)]; console := lines |})
  end.

End Gemini.

(** ** [App.tsx]

    The component's state and its handlers.  An [async] handler is cut at
    each [await]: the part before it runs in the turn of the event, the
    rest in the turn in which the awaited promise settles, with the values
    its closure had captured.  [handleCopy] and the dark-mode switch, which
    touch only [copied] and [darkMode], are left out, and so is the
    debounce timer of the auto-translate effect: its only action is to
    call [handleTranslate]. *)

Module App.

(** A [File], as far as the handlers read it. *)
Record File := { name : string; type : string }.

(** The [useState] values. *)
Record State := {
  sourceLang : string;
  targetLang : string;
  inputText : string;
  outputText : string;
  mode : TranslationMode;
  model : string;
  tone : Tone;
  file : option File;
  isTranslating : bool;
  error : option string;
  autoTranslate : bool;
  isSpeaking : bool;
  isLoadingSpeech : bool
}.

Definition st_sourceLang (v : string) (st : State) : State :=
  {| sourceLang := v; targetLang := targetLang st; inputText := inputText st;
     outputText := outputText st; mode := mode st; model := model st;
     tone := tone st; file := file st; isTranslating := isTranslating st;
     error := error st; autoTranslate := autoTranslate st;
     isSpeaking := isSpeaking st; isLoadingSpeech := isLoadingSpeech st |}.

Definition st_targetLang (v : string) (st : State) : State :=
  {| sourceLang := sourceLang st; targetLang := v; inputText := inputText st;
     outputText := outputText st; mode := mode st; model := model st;
     tone := tone st; file := file st; isTranslating := isTranslating st;
     error := error st; autoTranslate := autoTranslate st;
     isSpeaking := isSpeaking st; isLoadingSpeech := isLoadingSpeech st |}.

Definition st_inputText (v : string) (st : State) : State :=
  {| sourceLang := sourceLang st; targetLang := targetLang st;
     inputText := v; outputText := outputText st; mode := mode st;
     model := model st; tone := tone st; file := file st;
     isTranslating := isTranslating st; error := error st;
     autoTranslate := autoTranslate st; isSpeaking := isSpeaking st;
     isLoadingSpeech := isLoadingSpeech st |}.

Definition st_outputText (v : string) (st : State) : State :=
  {| sourceLang := sourceLang st; targetLang := targetLang st;
     inputText := inputText st; outputText := v; mode := mode st;
     model := model st; tone := tone st; file := file st;
     isTranslating := isTranslating st; error := error st;
     autoTranslate := autoTranslate st; isSpeaking := isSpeaking st;
     isLoadingSpeech := isLoadingSpeech st |}.

Definition st_mode (v : TranslationMode) (st : State) : State :=
  {| sourceLang := sourceLang st; targetLang := targetLang st;
     inputText := inputText st; outputText := outputText st; mode := v;
     model := model st; tone := tone st; file := file st;
     isTranslating := isTranslating st; error := error st;
     autoTranslate := autoTranslate st; isSpeaking := isSpeaking st;
     isLoadingSpeech := isLoadingSpeech st |}.

Definition st_model (v : string) (st : State) : State :=
  {| sourceLang := sourceLang st; targetLang := targetLang st;
     inputText := inputText st; outputText := outputText st; mode := mode st;
     model := v; tone := tone st; file := file st;
     isTranslating := isTranslating st; error := error st;
     autoTranslate := autoTranslate st; isSpeaking := isSpeaking st;
     isLoadingSpeech := isLoadingSpeech st |}.

Definition st_tone (v : Tone) (st : State) : State :=
  {| sourceLang := sourceLang st; targetLang := targetLang st;
     inputText := inputText st; outputText := outputText st; mode := mode st;
     model := model st; tone := v; file := file st;
     isTranslating := isTranslating st; error := error st;
     autoTranslate := autoTranslate st; isSpeaking := isSpeaking st;
     isLoadingSpeech := isLoadingSpeech st |}.

Definition st_file (v : option File) (st : State) : State :=
  {| sourceLang := sourceLang st; targetLang := targetLang st;
     inputText := inputText st; outputText := outputText st; mode := mode st;
     model := model st; tone := tone st; file := v;
     isTranslating := isTranslating st; error := error st;
     autoTranslate := autoTranslate st; isSpeaking := isSpeaking st;
     isLoadingSpeech := isLoadingSpeech st |}.

Definition st_isTranslating (v : bool) (st : State) : State :=
  {| sourceLang := sourceLang st; targetLang := targetLang st;
     inputText := inputText st; outputText := outputText st; mode := mode st;
     model := model st; tone := tone st; file := file st; isTranslating := v;
     error := error st; autoTranslate := autoTranslate st;
     isSpeaking := isSpeaking st; isLoadingSpeech := isLoadingSpeech st |}.

Definition st_error (v : option string) (st : State) : State :=
  {| sourceLang := sourceLang st; targetLang := targetLang st;
     inputText := inputText st; outputText := outputText st; mode := mode st;
     model := model st; tone := tone st; file := file st;
     isTranslating := isTranslating st; error := v;
     autoTranslate := autoTranslate st; isSpeaking := isSpeaking st;
     isLoadingSpeech := isLoadingSpeech st |}.

Definition st_autoTranslate (v : bool) (st : State) : State :=
  {| sourceLang := sourceLang st; targetLang := targetLang st;
     inputText := inputText st; outputText := outputText st; mode := mode st;
     model := model st; tone := tone st; file := file st;
     isTranslating := isTranslating st; error := error st;
     autoTranslate := v; isSpeaking := isSpeaking st;
     isLoadingSpeech := isLoadingSpeech st |}.

Definition st_isSpeaking (v : bool) (st : State) : State :=
  {| sourceLang := sourceLang st; targetLang := targetLang st;
     inputText := inputText st; outputText := outputText st; mode := mode st;
     model := model st; tone := tone st; file := file st;
     isTranslating := isTranslating st; error := error st;
     autoTranslate := autoTranslate st; isSpeaking := v;
     isLoadingSpeech := isLoadingSpeech st |}.

Definition st_isLoadingSpeech (v : bool) (st : State) : State :=
  {| sourceLang := sourceLang st; targetLang := targetLang st;
     inputText := inputText st; outputText := outputText st; mode := mode st;
     model := model st; tone := tone st; file := file st;
     isTranslating := isTranslating st; error := error st;
     autoTranslate := autoTranslate st; isSpeaking := isSpeaking st;
     isLoadingSpeech := v |}.

(** [fileToBase64], when the reader has loaded: the text after the first
    comma of the data URL (and before the second, if there is one). *)
Definition fileToBase64_onload (result : string) : option string :=
  Js.split_comma result !! 1%nat.

(** The languages and the model are among those the selects offer; the
    target select leaves [auto] out. *)
Definition offered (sourceLang targetLang model : string) : Prop :=
  sourceLang ∈ Language.code <$> LanguageSelect.options false /\
  targetLang ∈ Language.code <$> LanguageSelect.options true /\
  model ∈ ModelOption.id <$> constants.MODELS.

Definition request_offered (request : TranslationRequest.t) : Prop :=
  offered (TranslationRequest.sourceLang request)
          (TranslationRequest.targetLang request)
          (TranslationRequest.model request).

(** No comma among the characters of a string. *)
Definition no_comma (s : string) : Prop :=
  Forall (fun c => c <> Js.COMMA) (String.list_ascii_of_string s).

Section Handlers.
Context {T : Type} {utils : AudioUtils T}.

(** [String.prototype.trim]; the handlers only test what it returns for
    emptiness. *)
Variable trim : string -> string.

(** What [decodeAudio] throws, or [decodeAudioData] rejects with, on a
    payload that does not decode ([utils/audioUtils]). *)
Variable decodeFailure : string -> Js.Thrown.

(** A buffer source of the speech player. *)
Record Source := {
  src_context : handle;
  src_buffer : AudioBuffer T;
  src_stopped : bool
}.

(** A handler suspended at an [await]. *)
Inductive Suspended :=
| ReadingFile (request : TranslationRequest.t) (file : File)
| Translating
| Synthesizing
| Decoding (audioCtx : handle) (audioBase64 : string)
           (result : option (AudioBuffer T))
| Done.

Record World := {
  state : State;
  audioContextRef : option handle;
  audioSourceRef : option handle;
  contexts : list AudioContextState;
  sources : list Source;
  suspended : list Suspended;
  requests : list (GenAI.Client * GenAI.GenerateContentParameters);
  console : list (string * Js.Thrown)
}.

Definition with_state (f : State -> State) (w : World) : World :=
  {| state := f (state w); audioContextRef := audioContextRef w;
     audioSourceRef := audioSourceRef w; contexts := contexts w;
     sources := sources w; suspended := suspended w; requests := requests w;
     console := console w |}.

Definition setSourceLang (v : string) : World -> World :=
  with_state (st_sourceLang v).

Definition setTargetLang (v : string) : World -> World :=
  with_state (st_targetLang v).

Definition setInputText (v : string) : World -> World :=
  with_state (st_inputText v).

Definition setOutputText (v : string) : World -> World :=
  with_state (st_outputText v).

Definition setMode (v : TranslationMode) : World -> World :=
  with_state (st_mode v).

Definition setModel (v : string) : World -> World :=
  with_state (st_model v).

Definition setTone (v : Tone) : World -> World :=
  with_state (st_tone v).

Definition setFile (v : option File) : World -> World :=
  with_state (st_file v).

Definition setIsTranslating (v : bool) : World -> World :=
  with_state (st_isTranslating v).

Definition setError (v : option string) : World -> World :=
  with_state (st_error v).

Definition setAutoTranslate (v : bool) : World -> World :=
  with_state (st_autoTranslate v).

Definition setIsSpeaking (v : bool) : World -> World :=
  with_state (st_isSpeaking v).

Definition setIsLoadingSpeech (v : bool) : World -> World :=
  with_state (st_isLoadingSpeech v).

Definition set_audioContextRef (v : option handle) (w : World) : World :=
  {| state := state w; audioContextRef := v;
     audioSourceRef := audioSourceRef w; contexts := contexts w;
     sources := sources w; suspended := suspended w; requests := requests w;
     console := console w |}.

Definition set_audioSourceRef (v : option handle) (w : World) : World :=
  {| state := state w; audioContextRef := audioContextRef w;
     audioSourceRef := v; contexts := contexts w; sources := sources w;
     suspended := suspended w; requests := requests w;
     console := console w |}.

Definition upd_contexts (f : list AudioContextState -> list AudioContextState)
  (w : World) : World :=
  {| state := state w; audioContextRef := audioContextRef w;
     audioSourceRef := audioSourceRef w; contexts := f (contexts w);
     sources := sources w; suspended := suspended w; requests := requests w;
     console := console w |}.

Definition upd_sources (f : list Source -> list Source)
  (w : World) : World :=
  {| state := state w; audioContextRef := audioContextRef w;
     audioSourceRef := audioSourceRef w; contexts := contexts w;
     sources := f (sources w); suspended := suspended w;
     requests := requests w; console := console w |}.

Definition upd_suspended (f : list Suspended -> list Suspended)
  (w : World) : World :=
  {| state := state w; audioContextRef := audioContextRef w;
     audioSourceRef := audioSourceRef w; contexts := contexts w;
     sources := sources w; suspended := f (suspended w);
     requests := requests w; console := console w |}.

Definition upd_requests (f : list (GenAI.Client * GenAI.GenerateContentParameters) -> list (GenAI.Client * GenAI.GenerateContentParameters))
  (w : World) : World :=
  {| state := state w; audioContextRef := audioContextRef w;
     audioSourceRef := audioSourceRef w; contexts := contexts w;
     sources := sources w; suspended := suspended w;
     requests := f (requests w); console := console w |}.

Definition upd_console (f : list (string * Js.Thrown) -> list (string * Js.Thrown))
  (w : World) : World :=
  {| state := state w; audioContextRef := audioContextRef w;
     audioSourceRef := audioSourceRef w; contexts := contexts w;
     sources := sources w; suspended := suspended w; requests := requests w;
     console := f (console w) |}.

(** The handler goes to sleep at an [await]. *)
Definition suspend (s : Suspended) : World -> World :=
  upd_suspended (fun l => l ++ [s]).

(** The handler suspended as number [k] has been woken. *)
Definition woken (k : nat) : World -> World :=
  upd_suspended (alter (fun _ => Done) k).

Definition stop (src : Source) : Source :=
  {| src_context := src_context src; src_buffer := src_buffer src;
     src_stopped := true |}.

Definition handleStopSpeaking (w : World) : World :=
  match audioSourceRef w with
  | Some source => setIsSpeaking false (upd_sources (alter stop source) w)
  | None => w
  end.

(** *** [handleTranslate] *)

(** The [catch] and [finally] of [handleTranslate], and its last lines
    when nothing was thrown. *)
Definition handleTranslate_settled (result : Js.Settled string) (w : World)
  : World :=
  let w :=
    match result with
    | Js.Resolved result => setOutputText result w
    | Js.Rejected err =>
        setError (Some (Js.or_else (Js.message err)
          "An unexpected error occurred during translation.")) w
    end in
  setIsTranslating false w.

(** [await translateContent(request)]: the call either rejects at once,
    and the handler goes on in its [catch], or issues its request and
    both wait for the answer. *)
Definition await_translateContent (h : Host) (request : TranslationRequest.t)
  (w : World) : World :=
  match Gemini.translateContent_call h request with
  | inl e => handleTranslate_settled (Js.Rejected e) w
  | inr sent => suspend Translating (upd_requests (fun l => l ++ [sent]) w)
  end.

Definition handleTranslate (h : Host) (w : World) : World :=
  let st := state w in
  if mode_is (mode st) TEXT && bool_decide (trim (inputText st) = EmptyString)
  then w
  else if negb (mode_is (mode st) TEXT) && negb (mode_is (mode st) LIVE)
          && bool_decide (file st = None)
  then setError (Some "Please upload a file first.") w
  else
    let w := setIsTranslating true w in
    let w := setError None w in
    let w := if negb (mode_is (mode st) TEXT) then setOutputText EmptyString w
             else w in
    let w := handleStopSpeaking w in
    let request :=
      {| TranslationRequest.sourceLang := sourceLang st;
         TranslationRequest.targetLang := targetLang st;
         TranslationRequest.content := Some (inputText st);
         TranslationRequest.mimeType := None;
         TranslationRequest.mode := mode st;
         TranslationRequest.model := model st;
         TranslationRequest.tone := tone st |} in
    match file st with
    | Some f =>
        if negb (mode_is (mode st) TEXT) then suspend (ReadingFile request f) w
        else await_translateContent h request w
    | None => await_translateContent h request w
    end.

(** [handleTranslate] when [fileToBase64] has settled. *)
Definition handleTranslate_read (h : Host) (request : TranslationRequest.t)
  (f : File) (result : Js.Settled string) (w : World) : World :=
  match result with
  | Js.Resolved dataURL =>
      await_translateContent h
        {| TranslationRequest.sourceLang :=
             TranslationRequest.sourceLang request;
           TranslationRequest.targetLang :=
             TranslationRequest.targetLang request;
           TranslationRequest.content := fileToBase64_onload dataURL;
           TranslationRequest.mimeType := Some (type f);
           TranslationRequest.mode := TranslationRequest.mode request;
           TranslationRequest.model := TranslationRequest.model request;
           TranslationRequest.tone := TranslationRequest.tone request |} w
  | Js.Rejected error => handleTranslate_settled (Js.Rejected error) w
  end.

(** [handleTranslate] when the model has answered: the rest of
    [translateContent], then the rest of the handler. *)
Definition handleTranslate_answered
  (outcome : Js.Settled GenAI.GenerateContentResponse) (w : World) : World :=
  let (result, lines) := Gemini.translateContent_settle outcome in
  handleTranslate_settled result (upd_console (fun l => l ++ lines) w).

(** *** The other handlers *)

Definition handleSwapLanguages (w : World) : World :=
  let st := state w in
  if bool_decide (sourceLang st = "auto") then w
  else
    let w := setSourceLang (targetLang st) w in
    let w := setTargetLang (sourceLang st) w in
    if mode_is (mode st) TEXT && bool_decide (outputText st <> EmptyString)
    then setOutputText (inputText st) (setInputText (outputText st) w)
    else w.

(** [files] is [e.target.files]. *)
Definition handleFileUpload (files : option (list File)) (w : World) : World :=
  match files with
  | Some (f :: _) => setError None (setFile (Some f) w)
  | _ => w
  end.

(** The value of the file input, which [clearFile] also resets, belongs
    to the document and is not modelled. *)
Definition clearFile (w : World) : World := setFile None w.

(** The [onClick] of a [ModeTab]. *)
Definition ModeTab_onClick (id : TranslationMode) (w : World) : World :=
  let w := setMode id w in
  let w := setError None w in
  let w := setOutputText EmptyString w in
  let w := setFile None w in
  handleStopSpeaking w.

(** *** [handleListen] *)

Definition handleListen_catch (e : Js.Thrown) (w : World) : World :=
  let w := setError (Some ("Failed to generate speech: " +:+
                           Js.to_string (Js.message e))) w in
  setIsLoadingSpeech false w.

Definition handleListen (h : Host) (w : World) : World :=
  let st := state w in
  if bool_decide (outputText st = EmptyString) || isSpeaking st
     || isLoadingSpeech st
  then w
  else
    let w := setIsLoadingSpeech true w in
    match Gemini.generateSpeech_call h (outputText st) with
    | inl e => handleListen_catch e w
    | inr sent => suspend Synthesizing (upd_requests (fun l => l ++ [sent]) w)
    end.

(** [handleListen] when the model has answered: the rest of
    [generateSpeech], then the handler up to its second [await]. *)
Definition handleListen_answered
  (outcome : Js.Settled GenAI.GenerateContentResponse) (w : World) : World :=
  let (result, lines) := Gemini.generateSpeech_settle outcome in
  let w := upd_console (fun l => l ++ lines) w in
  match result with
  | Js.Rejected e => handleListen_catch e w
  | Js.Resolved audioBase64 =>
      let audioCtx := length (contexts w) in
      let w := upd_contexts (fun l => l ++ [running]) w in
      let w := set_audioContextRef (Some audioCtx) w in
      match decodeAudio audioBase64 with
      | None => handleListen_catch (decodeFailure audioBase64) w
      | Some audioBytes =>
          suspend (Decoding audioCtx audioBase64
                     (decodeAudioData audioBytes 24000 1)) w
      end
  end.

(** [handleListen] when [decodeAudioData] has settled. *)
Definition handleListen_decoded (audioCtx : handle) (audioBase64 : string)
  (result : option (AudioBuffer T)) (w : World) : World :=
  match result with
  | None => handleListen_catch (decodeFailure audioBase64) w
  | Some audioBuffer =>
      let source := length (sources w) in
      let w := upd_sources (fun l => l ++
                 [{| src_context := audioCtx; src_buffer := audioBuffer;
                     src_stopped := false |}]) w in
      let w := set_audioSourceRef (Some source) w in
      let w := setIsSpeaking true w in
      setIsLoadingSpeech false w
  end.

(** [source.onended] *)
Definition onended (w : World) : World := setIsSpeaking false w.

(** The cleanup of the effect of lines 79 to 85, run when the component
    is unmounted. *)
Definition unmount (h : Host) (w : World) : World :=
  match audioContextRef w with
  | Some c =>
      if throws h (CallClose c) then w
      else upd_contexts (alter (fun _ => closed) c) w
  | None => w
  end.

(** *** Events *)

Inductive Event :=
| SelectSource (i : nat)
| SelectTarget (i : nat)
| SelectTone (i : nat)
| SelectModel (i : nat)
| EditInput (value : string)
| CheckAuto (checked : bool)
| ClickTab (id : TranslationMode)
| ClickSwap
| ChooseFiles (files : option (list File))
| ClickRemoveFile
| Translate
| FileRead (k : nat) (result : Js.Settled string)
| Answered (k : nat) (outcome : Js.Settled GenAI.GenerateContentResponse)
| ClickListen
| Decoded (k : nat)
| ClickStop
| Ended (source : handle).

(** A select passes the value of the option chosen, one of those it
    rendered. *)
Definition chosen {A B} (options : list A) (i : nat) (value : A -> B)
  (onChange : B -> World -> World) (w : World) : World :=
  match options !! i with
  | Some o => onChange (value o) w
  | None => w
  end.

Definition step (h : Host) (e : Event) (w : World) : World :=
  match e with
  | SelectSource i =>
      chosen (LanguageSelect.options false) i Language.code setSourceLang w
  | SelectTarget i =>
      chosen (LanguageSelect.options true) i Language.code setTargetLang w
  | SelectTone i => chosen constants.TONES i (fun t => t) setTone w
  | SelectModel i => chosen constants.MODELS i ModelOption.id setModel w
  | EditInput value => setInputText value w
  | CheckAuto checked => setAutoTranslate checked w
  | ClickTab id => ModeTab_onClick id w
  | ClickSwap => handleSwapLanguages w
  | ChooseFiles files => handleFileUpload files w
  | ClickRemoveFile => clearFile w
  | Translate => handleTranslate h w
  | FileRead k result =>
      match suspended w !! k with
      | Some (ReadingFile request f) =>
          handleTranslate_read h request f result (woken k w)
      | _ => w
      end
  | Answered k outcome =>
      match suspended w !! k with
      | Some Translating => handleTranslate_answered outcome (woken k w)
      | Some Synthesizing => handleListen_answered outcome (woken k w)
      | _ => w
      end
  | ClickListen => handleListen h w
  | Decoded k =>
      match suspended w !! k with
      | Some (Decoding audioCtx audioBase64 result) =>
          handleListen_decoded audioCtx audioBase64 result (woken k w)
      | _ => w
      end
  | ClickStop => handleStopSpeaking w
  | Ended source =>
      match sources w !! source with
      | Some _ => onended w
      | None => w
      end
  end.

Definition run (h : Host) (events : list Event) (w : World) : World :=
  foldl (fun w e => step h e w) w events.

(** The component as mounted. *)
Definition mount : World :=
  {| state :=
       {| sourceLang := "auto"; targetLang := "es";
          inputText := EmptyString; outputText := EmptyString;
          mode := TEXT;
          model := match constants.MODELS with
                   | m :: _ => ModelOption.id m
                   | [] => EmptyString
                   end;
          tone := PROFESSIONAL; file := None; isTranslating := false;
          error := None; autoTranslate := false; isSpeaking := false;
          isLoadingSpeech := false |};
     audioContextRef := None; audioSourceRef := None;
     contexts := []; sources := []; suspended := []; requests := [];
     console := [] |}.

(** *** What the properties speak of *)

(** A handler of [handleListen] is suspended. *)
Definition listening (s : Suspended) : bool :=
  match s with
  | Synthesizing | Decoding _ _ _ => true
  | _ => false
  end.

(** A handler of [handleTranslate] is suspended. *)
Definition translating (s : Suspended) : bool :=
  match s with
  | ReadingFile _ _ | Translating => true
  | _ => false
  end.

(** A request the component may have issued: one for the speech of a
    text that is not empty, or the request of a translation whose
    languages and model are offered, whose text, in text mode, is not
    blank, and whose file, in the other modes, has a MIME type. *)
Definition issued (h : Host)
  (sent : GenAI.Client * GenAI.GenerateContentParameters) : Prop :=
  (exists text,
     text <> EmptyString /\ Gemini.generateSpeech_call h text = inr sent) \/
  (exists request,
     Gemini.translateContent_call h request = inr sent /\
     request_offered request /\
     (TranslationRequest.mode request = TEXT ->
      exists text, TranslationRequest.content request = Some text /\
                   trim text <> EmptyString) /\
     (TranslationRequest.mode request <> TEXT ->
      truthy (TranslationRequest.mimeType request) = true)).

End Handlers.

End App.

(** ** Fixtures for runs of the shell *)

Module ShellRun.

(** White space among the code units below 128: tab to carriage return,
    and the space. *)
Definition is_space (c : Ascii.ascii) : bool :=
  let n := Ascii.nat_of_ascii c in
  ((9 <=? n) && (n <=? 13) || (n =? 32))%nat.

Fixpoint trimStart (s : string) : string :=
  match s with
  | EmptyString => EmptyString
  | String c s' => if is_space c then trimStart s' else s
  end.

Fixpoint trimEnd (s : string) : string :=
  match s with
  | EmptyString => EmptyString
  | String c s' =>
      match trimEnd s' with
      | EmptyString => if is_space c then EmptyString else String c EmptyString
      | r => String c r
      end
  end.

Definition trim (s : string) : string := trimEnd (trimStart s).

Definition decodeFailure (audioBase64 : string) : Js.Thrown :=
  Js.Error "Unable to decode audio data".

(** A response of the model with this text, and one with this audio in
    its first part. *)
Definition answer (text : string) : GenAI.GenerateContentResponse :=
  {| GenAI.text := Some text; GenAI.candidates := None |}.

Definition spoken (payload : string) : GenAI.GenerateContentResponse :=
  {| GenAI.text := None;
     GenAI.candidates := Some [{| GenAI.content := Some {| parts := Some
       [{| inlineData := Some {| data := Some payload;
             mimeType := Some "audio/pcm" |} |}] |} |}] |}.

Definition request (mode : TranslationMode) (content : string)
  (mimeType : option string) : TranslationRequest.t :=
  {| TranslationRequest.sourceLang := "auto";
     TranslationRequest.targetLang := "es";
     TranslationRequest.content := Some content;
     TranslationRequest.mimeType := mimeType;
     TranslationRequest.mode := mode;
     TranslationRequest.model := "gemini-2.5-flash";
     TranslationRequest.tone := PROFESSIONAL |}.

Definition run (events : list App.Event) : @App.World float :=
  App.run trim decodeFailure Fixture.host events App.mount.

(** The user has typed a greeting and asked for its translation. *)
Definition asked : list App.Event :=
  [App.EditInput "Good morning"; App.Translate].

(** ... and the translation has arrived. *)
Definition translated : list App.Event :=
  asked ++ [App.Answered 0 (Js.Resolved (answer "Buenos dias"))].

(** The user has moved to the image tab and chosen a picture. *)
Definition picture : list App.Event :=
  [App.ClickTab IMAGE;
   App.ChooseFiles (Some [{| App.name := "menu.png";
                             App.type := "image/png" |}])].

End ShellRun.

(** * Properties *)

Section Messages.
Context {T : Type} {num : JSNumber T} {utils : AudioUtils T}.
Implicit Types (w : World) (h : Host).

(** [onmessage] does nothing when the message has no usable payload or the
    output context handle is null. *)
Lemma onmessage_noop sid message w :
  truthy (audioData_of message) = false \/ outputContextRef (refs w) = None ->
  onmessage sid message w = w.
Proof.
  unfold onmessage, truthy. intros [Hp | Hc].
  - destruct (audioData_of message) as [a|]; [|done].
    case_bool_decide; [done|].
    by case_bool_decide.
  - rewrite Hc. destruct (audioData_of message); [|done].
    by case_bool_decide.
Qed.

(** C10: a message without an inline audio payload in its first part, and
    any message that arrives while [outputContextRef] is null, leaves the
    whole world as it was: nothing is decoded or scheduled, and the cursor
    and [sourcesRef] keep their values. *)
Theorem C10_message_without_payload_or_context h sid message w :
  truthy (audioData_of message) = false \/ outputContextRef (refs w) = None ->
  step h (RemoteMessage sid message) w = w.
Proof.
  intros H. simpl. destruct (sessions (browser w) !! sid); [|done].
  by apply onmessage_noop.
Qed.

End Messages.

Lemma C10_message_without_payload_or_context_witness :
  step Fixture.host (RemoteMessage 0 {| serverContent := None |})
    FloatRun.active = FloatRun.active.
Proof.
  apply (C10_message_without_payload_or_context Fixture.host).
  left. reflexivity.
Defined.

Section Lifecycle.
Context {T : Type} {num : JSNumber T} {utils : AudioUtils T}.
Implicit Types (w : World) (h : Host).

Lemma not_running_alter c c' (l : list (@AudioContext T)) :
  default false (is_running <$> l !! c) = false ->
  default false (is_running <$> alter closed_context c' l !! c) = false.
Proof.
  destruct (decide (c' = c)) as [->|Hne].
  - rewrite list_lookup_alter_eq. by destruct (l !! c).
  - by rewrite list_lookup_alter_ne.
Qed.

Lemma context_running_default c w :
  context_running c w
  = default false (is_running <$> contexts (browser w) !! c).
Proof. unfold context_running. by destruct (_ !! c). Qed.

Lemma not_running_closed c (l : list (@AudioContext T)) :
  default false (is_running <$> alter closed_context c l !! c) = false.
Proof. rewrite list_lookup_alter_eq. by destruct (l !! c). Qed.

Lemma stopped_not_live (ms : MediaStream) :
  existsb is_live (tracks (stopped ms)) = false.
Proof. destruct ms as [l]. simpl. by induction l. Qed.

Lemma cleanup_no_throw h w :
  (forall c, throws h c = false) ->
  exists w', cleanup h w = Normal w' /\
    all_null (refs w') /\ ui w' = ui w /\
    (forall p, scriptProcessorRef (refs w) = Some p ->
               processor_connected p w' = false) /\
    (forall s, streamRef (refs w) = Some s -> stream_live s w' = false) /\
    (forall c, inputContextRef (refs w) = Some c ->
               context_running c w' = false) /\
    (forall c, outputContextRef (refs w) = Some c ->
               context_running c w' = false).
Proof.
  intros Hno. destruct w as [u [ic oc cur srcs sp st pr] b].
  unfold cleanup, disconnect, stop_tracks, close. simpl.
  destruct pr as [p|], st as [s|], ic as [ci|], oc as [co|]; simpl;
    repeat (rewrite Hno; simpl).
  all: eexists; split; [reflexivity|].
  all: unfold all_null; simpl; split_and!; try done.
  all: intros ? [= <-].
  all: first
    [ unfold processor_connected; simpl; rewrite list_lookup_alter_eq;
      by destruct (_ !! _)
    | unfold stream_live; simpl; rewrite list_lookup_alter_eq;
      destruct (_ !! _); simpl; [apply stopped_not_live | done]
    | rewrite context_running_default; simpl;
      first [ apply not_running_closed
            | apply not_running_alter, not_running_closed ] ].
Qed.

(** Whatever the host does, [cleanup] touches only the four handles, the
    session promise handle, and the state of the objects they name. *)
Lemma cleanup_frame h w :
  let w' := world_of (cleanup h w) in
  ui w' = ui w /\
  nextStartTimeRef (refs w') = nextStartTimeRef (refs w) /\
  sourcesRef (refs w') = sourcesRef (refs w) /\
  sessions (browser w') = sessions (browser w) /\
  sources (browser w') = sources (browser w) /\
  startsAwaiting (browser w') = startsAwaiting (browser w) /\
  decodesAwaiting (browser w') = decodesAwaiting (browser w) /\
  console (browser w') = console (browser w) /\
  length (contexts (browser w')) = length (contexts (browser w)) /\
  length (streams (browser w')) = length (streams (browser w)) /\
  length (processors (browser w')) = length (processors (browser w)).
Proof.
  destruct w as [u [ic oc cur srcs sp st pr] b].
  unfold cleanup, disconnect, stop_tracks, close. simpl.
  destruct pr as [p|], st as [s|], ic as [ci|], oc as [co|]; simpl;
    repeat (destruct (throws h _); simpl);
    rewrite ?length_alter; done.
Qed.





(** [onerror] touches the error message, the lifecycle flag and the
    console, and nothing else: no handle and no device object. *)
Lemma onerror_releases_nothing h sid err w :
  let w' := step h (RemoteError sid err) w in
  refs w' = refs w /\
  contexts (browser w') = contexts (browser w) /\
  streams (browser w') = streams (browser w) /\
  processors (browser w') = processors (browser w) /\
  sessions (browser w') = sessions (browser w).
Proof. simpl. by destruct (sessions (browser w) !! sid). Qed.


(** Every start resets the cursor in the turn of the click, in which no
    connection is requested yet. *)
Lemma start_resets_cursor h w :
  isActive (ui w) = false ->
  truthy (API_KEY h) = true ->
  let w' := step h Click w in
  nextStartTimeRef (refs w') = num_zero /\
  sessions (browser w') = sessions (browser w) /\
  sources (browser w') = sources (browser w) /\
  decodesAwaiting (browser w') = decodesAwaiting (browser w) /\
  startsAwaiting (browser w') = startsAwaiting (browser w) ++
    [{| ps_isActive := false;
        ps_inputCtx := length (contexts (browser w));
        ps_outputCtx := S (length (contexts (browser w)));
        ps_settled := false |}].
Proof.
  intros Ha Hk. simpl. rewrite Ha. unfold toggleSession. rewrite Hk. simpl.
  rewrite length_app. simpl. by rewrite Nat.add_1_r.
Qed.

(** A connection is requested only when a suspended start resumes with the
    microphone granted. *)
Lemma connect_only_on_resume h e w :
  length (sessions (browser (step h e w))) <> length (sessions (browser w)) ->
  exists k, e = MediaSettled k Granted.
Proof.
  destruct e as [| |k r|sid|sid ok|p f|sid m|k|src|sid|sid err|c t]; simpl.
  - unfold toggleSession, toggleSession_catch.
    destruct (isActive (ui w)).
    + destruct (cleanup_frame h (setStatus "Disconnected" (setIsActive false w)))
        as (_ & _ & _ & -> & _). done.
    + destruct (truthy (API_KEY h)); simpl; [done|].
      match goal with |- context [cleanup h ?x] =>
        destruct (cleanup_frame h x) as (_ & _ & _ & -> & _) end. done.
  - destruct (cleanup_frame h w) as (_ & _ & _ & -> & _). done.
  - destruct (startsAwaiting (browser w) !! k) as [ps|]; [|done].
    destruct (ps_settled ps); [done|].
    destruct r as [|msg]; [by eexists|].
    unfold toggleSession_resume, toggleSession_catch.
    match goal with |- context [cleanup h ?x] =>
      destruct (cleanup_frame h x) as (_ & _ & _ & -> & _) end. done.
  - by destruct (sessions (browser w) !! sid).
  - unfold settle_sessionPromise.
    destruct (sessions (browser w) !! sid) as [s|]; [|done].
    destruct (s_promise s); simpl; rewrite ?length_alter; done.
  - destruct (processors (browser w) !! p) as [sp|]; [|done].
    destruct (_ && _); [|done].
    unfold onaudioprocess, then_send, sendRealtimeInput.
    destruct (sessions (browser w) !! sp_session sp) as [s|]; [|done].
    destruct (s_promise s); simpl; rewrite ?length_alter; done.
  - destruct (sessions (browser w) !! sid); [|done].
    unfold onmessage. repeat case_match; done.
  - destruct (decodesAwaiting (browser w) !! k) as [pd|]; [|done].
    destruct (pd_settled pd); [done|].
    unfold onmessage_resume. repeat case_match; done.
  - by destruct (sources (browser w) !! src).
  - destruct (sessions (browser w) !! sid) as [s|]; [|done].
    unfold onclose. by destruct (s_isActive s).
  - by destruct (sessions (browser w) !! sid).
  - done.
Qed.

End Lifecycle.

(** C9: a click on the idle component sets the cursor to [0] in the turn
    of the click itself, before [getUserMedia] settles and so before
    [ai.live.connect] is called (the session table is untouched; only a
    later [MediaSettled] turn can extend it) and before any chunk of the
    new session can be handled.  Hence the cursor is monotone only within
    a session: in the run below it stands at [0.5] when the first session
    is stopped and at [0] once the second has been started. *)
Theorem C9_start_resets_cursor
  {T : Type} {num : JSNumber T} {utils : AudioUtils T} (h : Host) (w : World) :
  isActive (ui w) = false ->
  truthy (API_KEY h) = true ->
  (let w' := step h Click w in
   nextStartTimeRef (refs w') = num_zero /\
   sessions (browser w') = sessions (browser w) /\
   sources (browser w') = sources (browser w) /\
   (forall e w0,
      length (sessions (browser (step h e w0))) <>
      length (sessions (browser w0)) ->
      exists k, e = MediaSettled k Granted)) /\
  (let first := FloatRun.played in
   let second := run Fixture.host [Click; Click] first in
   nextStartTimeRef (refs first) = 0.5%float /\
   isActive (ui second) = true /\
   nextStartTimeRef (refs second) = 0%float /\
   num_leb (nextStartTimeRef (refs first)) (nextStartTimeRef (refs second))
     = false).
Proof.
  intros Ha Hk. split.
  - destruct (start_resets_cursor h w Ha Hk) as (? & ? & ? & _).
    split_and!; try done. intros e w0. apply connect_only_on_resume.
  - vm_compute. done.
Qed.

Lemma C9_start_resets_cursor_witness :
  isActive (ui FloatRun.stopped) = false /\
  nextStartTimeRef (refs FloatRun.stopped) = 0.5%float /\
  nextStartTimeRef (refs (step Fixture.host Click FloatRun.stopped))
  = 0%float.
Proof.
  split_and!; [reflexivity | reflexivity |].
  pose proof (C9_start_resets_cursor Fixture.host FloatRun.stopped
                eq_refl eq_refl) as [[H _] _].
  exact H.
Defined.

(** C2 (what the code does): a transport error in a live session clears
    the lifecycle flag and shows the error, and that is all.  [onerror]
    does not call [cleanup]: the microphone track stays live, both audio
    contexts keep running, the processor stays connected and every handle
    stays set; a frame captured after the error is still sent. *)
Theorem C2_error_leaves_resources_open :
  let w := step Fixture.host (RemoteError 0 "transport failure")
             FloatRun.active in
  isActive (ui w) = false /\
  error (ui w) = Some "Connection error occurred" /\
  stream_live 0 w = true /\
  context_running 0 w = true /\
  context_running 1 w = true /\
  processor_connected 0 w = true /\
  refs w = refs FloatRun.active /\
  s_sent <$> sessions (browser
    (step Fixture.host (AudioProcess 0 [0.25%float]) w)) !! 0%nat
  = Some [[0.25%float]].
Proof. vm_compute. split_and!; reflexivity. Qed.





(** C8: start, microphone granted, connection opened, session promise
    fulfilled, then three capture callbacks with frames [f1], [f2], [f3]
    of 4096 samples (the processor's buffer size): the remote side is
    handed exactly three blobs, the encodings of [f1], [f2], [f3] in that
    order, each made from the whole frame; so, for an encoder that keeps
    the number of samples, each blob carries 4096 samples.  The same
    blobs arrive in the same order when the first frames are captured
    before the session promise is fulfilled: the waiting sends run in
    capture order. *)
Theorem C8_three_frames_in_capture_order
  {T : Type} {num : JSNumber T} {utils : AudioUtils T}
  (h : Host) (samples : Blob -> nat) (f1 f2 f3 : list T) :
  truthy (API_KEY h) = true ->
  (forall frame, samples (createPcmBlob frame) = length frame) ->
  length f1 = 4096%nat -> length f2 = 4096%nat -> length f3 = 4096%nat ->
  let sent events :=
    s_sent <$> sessions (browser (run h events mount)) !! 0%nat in
  sp_bufferSize <$>
    processors (browser (run h
      [Click; MediaSettled 0 Granted; RemoteOpen 0] mount)) !! 0%nat
    = Some 4096%nat /\
  sent [Click; MediaSettled 0 Granted; RemoteOpen 0; ConnectSettled 0 true;
        AudioProcess 0 f1; AudioProcess 0 f2; AudioProcess 0 f3]
    = Some [createPcmBlob f1; createPcmBlob f2; createPcmBlob f3] /\
  sent [Click; MediaSettled 0 Granted; RemoteOpen 0;
        AudioProcess 0 f1; AudioProcess 0 f2; ConnectSettled 0 true;
        AudioProcess 0 f3]
    = Some [createPcmBlob f1; createPcmBlob f2; createPcmBlob f3] /\
  samples <$> [createPcmBlob f1; createPcmBlob f2; createPcmBlob f3]
    = [4096; 4096; 4096]%nat.
Proof.
  intros Hk Hsamples H1 H2 H3. unfold run. cbn [foldl].
  assert (Hstart : step h Click mount =
    run {| API_KEY := Some "k"; throws := throws h |} [Click] mount).
  { simpl. unfold toggleSession. by rewrite Hk. }
  rewrite Hstart. split_and!; try reflexivity.
  cbn [fmap list_fmap]. by rewrite !Hsamples, H1, H2, H3.
Qed.

Section Playback.
Context {T : Type} {num : JSNumber T} {utils : AudioUtils T}.
Implicit Types (w : World) (h : Host).

Lemma message_valid h sid message w s ctx ac b :
  sessions (browser w) !! sid = Some s ->
  s_outputCtx s = ctx ->
  outputContextRef (refs w) = Some ctx ->
  contexts (browser w) !! ctx = Some ac ->
  decoded message = Some b ->
  step h (RemoteMessage sid message) w =
    upd_decodesAwaiting (fun l => l ++
        [{| pd_session := sid; pd_ctx := ctx; pd_result := Some b;
            pd_settled := false |}])
      (set_nextStartTimeRef (Math_max (cursor w) (currentTime ac)) w).
Proof.
  intros Hs Hctx Ho Hc Hd. unfold decoded in *. simpl.
  rewrite Hs. unfold onmessage.
  destruct (audioData_of message) as [a|]; [|done]. simpl in Hd.
  case_bool_decide; [done|].
  rewrite Ho, Hc.
  destruct (decodeAudio a) as [bytes|]; [|done]. simpl in Hd. by rewrite Hd.
Qed.

Lemma resume_valid h k w pd b s :
  decodesAwaiting (browser w) !! k = Some pd ->
  pd_settled pd = false ->
  pd_result pd = Some b ->
  sessions (browser w) !! pd_session pd = Some s ->
  pd_ctx pd = s_outputCtx s ->
  step h (DecodeSettled k) w =
    set_sourcesRef ({[length (sources (browser w))]} ∪ sourcesRef (refs w))
      (set_nextStartTimeRef (num_add (cursor w) (duration b))
        (upd_sources (fun l => l ++
            [{| bs_context := pd_ctx pd; bs_buffer := b;
                bs_when := cursor w |}])
          (upd_decodesAwaiting (alter settle_decode k) w))).
Proof.
  intros Hk Hsettled Hb Hs Hctx. simpl. rewrite Hk, Hsettled.
  unfold onmessage_resume. simpl. rewrite Hb, Hs.
  by rewrite bool_decide_eq_true_2.
Qed.

Lemma undisturbed_refl w : undisturbed w w.
Proof. by unfold undisturbed. Qed.

Lemma undisturbed_trans w1 w2 w3 :
  undisturbed w1 w2 -> undisturbed w2 w3 -> undisturbed w1 w3.
Proof.
  intros (?&?&?&?&?&?&?&?&?&?&?) (?&?&?&?&?&?&?&?&?&?&?).
  unfold undisturbed. split_and!; congruence.
Qed.

(** A message from which no buffer comes starts at most a decode that
    will fail. *)
Lemma message_dropped h sid message w ctx :
  outputContextRef (refs w) = Some ctx ->
  decoded message = None ->
  exists c extra,
    step h (RemoteMessage sid message) w =
      upd_decodesAwaiting (fun l => l ++ extra) (set_nextStartTimeRef c w) /\
    (extra = [] \/
     extra = [{| pd_session := sid; pd_ctx := ctx; pd_result := None;
                 pd_settled := false |}]).
Proof.
  intros Ho Hd.
  assert (Hsame : exists c extra, w =
    upd_decodesAwaiting (fun l => l ++ extra) (set_nextStartTimeRef c w) /\
    (extra = [] \/
     extra = [{| pd_session := sid; pd_ctx := ctx; pd_result := None;
                 pd_settled := false |}])).
  { exists (cursor w), []. split; [|by left]. destruct w as [u [] []]. simpl.
    unfold upd_decodesAwaiting, with_browser; simpl. by rewrite app_nil_r. }
  unfold decoded in Hd. simpl.
  destruct (sessions (browser w) !! sid) as [s|]; [|done].
  unfold onmessage.
  destruct (audioData_of message) as [a|]; simpl in *; [|done].
  case_bool_decide; [done|].
  rewrite Ho.
  destruct (contexts (browser w) !! ctx) as [ac|]; [|done].
  destruct (decodeAudio a) as [bytes|]; simpl in *.
  - rewrite Hd. eexists _, _. split; [reflexivity|by right].
  - exists (Math_max (cursor w) (currentTime ac)), []. split; [|by left].
    destruct w as [u [] []]. simpl.
    unfold upd_decodesAwaiting, with_browser; simpl. by rewrite app_nil_r.
Qed.

Lemma oldest_pending_app (P U : list (@PendingDecode T)) :
  all_settled P ->
  oldest_pending (P ++ U) = (length P + oldest_pending U)%nat.
Proof.
  induction 1 as [|pd P Hpd _ IH]; simpl; [done|]. by rewrite Hpd, IH.
Qed.

(** One turn: what was in flight and what arrives is what gets scheduled
    and what is in flight afterwards, in that order. *)
Lemma fifo_turn h sid t w s ctx ac P U :
  sessions (browser w) !! sid = Some s ->
  s_outputCtx s = ctx ->
  outputContextRef (refs w) = Some ctx ->
  contexts (browser w) !! ctx = Some ac ->
  decodesAwaiting (browser w) = P ++ U ->
  all_settled P -> in_flight sid ctx U ->
  let w' := turn h sid t w in
  undisturbed w w' /\
  exists new P' U',
    sources (browser w') = sources (browser w) ++ new /\
    decodesAwaiting (browser w') = P' ++ U' /\
    all_settled P' /\ in_flight sid ctx U' /\
    omap pd_result U ++ omap decoded (arrivals [t])
    = (bs_buffer <$> new) ++ omap pd_result U'.
Proof.
  intros Hs Hctx Ho Hc Hda HP HU. unfold all_settled, in_flight in *.
  destruct t as [m|]; cbn [turn arrivals omap].
  - (* a message arrives *)
    destruct (decoded m) as [b|] eqn:Hd.
    + rewrite (message_valid h sid m w s ctx ac b) by done.
      split; [by destruct w as [u [] []]|].
      exists [], P, (U ++ [{| pd_session := sid; pd_ctx := ctx;
                              pd_result := Some b; pd_settled := false |}]).
      simpl. rewrite Hda, app_nil_r, <-app_assoc.
      split_and!; try done.
      * apply Forall_app. split; [done|]. by repeat constructor.
      * rewrite omap_app. simpl. by rewrite Hd.
    + destruct (message_dropped h sid m w ctx Ho Hd)
        as (c & extra & -> & Hextra).
      split; [by destruct w as [u [] []]|].
      exists [], P, (U ++ extra).
      simpl. rewrite Hda, app_nil_r, <-app_assoc.
      split_and!; try done.
      * apply Forall_app. split; [done|].
        destruct Hextra as [->| ->]; by repeat constructor.
      * rewrite omap_app, Hd.
        destruct Hextra as [->| ->]; simpl; by rewrite !app_nil_r.
  - (* the oldest pending decode settles *)
    rewrite Hda, (oldest_pending_app P U HP).
    destruct HU as [|pd U [Hunsettled [Hsid Hpctx]] HU]; cbn [oldest_pending].
    + (* nothing is pending: the turn does not occur *)
      rewrite app_nil_r in Hda. simpl. rewrite Hda, Nat.add_0_r.
      rewrite lookup_ge_None_2 by done.
      split; [apply undisturbed_refl|].
      exists [], P, []. rewrite !app_nil_r. by split_and!.
    + rewrite Hunsettled, Nat.add_0_r.
      assert (Hk : decodesAwaiting (browser w) !! length P = Some pd).
      { rewrite Hda. by apply list_lookup_middle. }
      assert (Halter : alter settle_decode (length P) (P ++ pd :: U)
                       = (P ++ [settle_decode pd]) ++ U).
      { rewrite alter_app_r_alt by done. rewrite Nat.sub_diag.
        by rewrite <-app_assoc. }
      assert (HP' : all_settled (P ++ [settle_decode pd])).
      { apply Forall_app. split; [done|]. by repeat constructor. }
      destruct (pd_result pd) as [b|] eqn:Hb.
      * rewrite (resume_valid h (length P) w pd b s); try done; try congruence.
        split; [by destruct w as [u [] []]|].
        eexists [_], (P ++ [settle_decode pd]), U.
        simpl. rewrite Hda, Halter, Hb. simpl. by rewrite app_nil_r.
      * simpl. rewrite Hk, Hunsettled. unfold onmessage_resume. simpl.
        rewrite Hb.
        split; [by destruct w as [u [] []]|].
        exists [], (P ++ [settle_decode pd]), U.
        simpl. rewrite Hda, Halter, !app_nil_r. by split_and!.
Qed.

Lemma fifo_run h sid s ctx ac turns :
  forall w P U,
  sessions (browser w) !! sid = Some s ->
  s_outputCtx s = ctx ->
  outputContextRef (refs w) = Some ctx ->
  contexts (browser w) !! ctx = Some ac ->
  decodesAwaiting (browser w) = P ++ U ->
  all_settled P -> in_flight sid ctx U ->
  let w' := foldl (fun w t => turn h sid t w) w turns in
  undisturbed w w' /\
  exists new P' U',
    sources (browser w') = sources (browser w) ++ new /\
    decodesAwaiting (browser w') = P' ++ U' /\
    all_settled P' /\ in_flight sid ctx U' /\
    omap pd_result U ++ omap decoded (arrivals turns)
    = (bs_buffer <$> new) ++ omap pd_result U'.
Proof.
  induction turns as [|t turns IH]; intros w P U Hs Hctx Ho Hc Hda HP HU.
  - simpl. split; [apply undisturbed_refl|].
    exists [], P, U. rewrite !app_nil_r. by split_and!.
  - cbn [foldl].
    destruct (fifo_turn h sid t w s ctx ac P U Hs Hctx Ho Hc Hda HP HU)
      as (Hu & new1 & P1 & U1 & Hn1 & Hd1 & HP1 & HU1 & Heq1).
    pose proof Hu as (_ & _ & Hcs & _ & _ & Hss & _ & Hos & _).
    destruct (IH (turn h sid t w) P1 U1) as
      (Hu' & new2 & P2 & U2 & Hn2 & Hd2 & HP2 & HU2 & Heq2);
      [by rewrite Hss|done|by rewrite Hos|by rewrite Hcs|done|done|done|].
    split; [by eapply undisturbed_trans|].
    exists (new1 ++ new2), P2, U2.
    rewrite Hn2, Hn1, <-app_assoc. split_and!; try done.
    change (arrivals (t :: turns)) with (arrivals ([t] ++ turns)).
    unfold arrivals in *. rewrite omap_app, omap_app, app_assoc, Heq1.
    rewrite <-app_assoc, Heq2, fmap_app. by rewrite app_assoc.
Qed.

(** C5 (as the code has it): chunks arrive on a live session with no
    handler in flight, some of them fail to decode, and decodes settle
    oldest first.  A chunk from which no buffer comes is dropped and
    nothing else happens: nothing is written to the console, the
    lifecycle state, the handles and the device objects stay as they were
    (no teardown).  The buffers scheduled are those of the chunks that
    decoded, in arrival order: a prefix of them at any time, all of them
    once no decode is pending. *)
Theorem C5_failed_chunk_is_dropped_silently h sid turns w s ctx ac :
  sessions (browser w) !! sid = Some s ->
  s_outputCtx s = ctx ->
  outputContextRef (refs w) = Some ctx ->
  contexts (browser w) !! ctx = Some ac ->
  none_in_flight w ->
  let w' := foldl (fun w t => turn h sid t w) w turns in
  undisturbed w w' /\
  exists new,
    sources (browser w') = sources (browser w) ++ new /\
    bs_buffer <$> new `prefix_of` omap decoded (arrivals turns) /\
    (none_in_flight w' ->
     bs_buffer <$> new = omap decoded (arrivals turns)).
Proof.
  intros Hs Hctx Ho Hc Hw.
  destruct (fifo_run h sid s ctx ac turns w (decodesAwaiting (browser w)) [])
    as (Hu & new & P' & U' & Hn & Hd & HP' & HU' & Heq);
    [done|done|done|done|by rewrite app_nil_r|exact Hw|by constructor|].
  simpl in Heq. split; [done|]. exists new. split_and!; [done| |].
  - exists (omap pd_result U'). done.
  - unfold none_in_flight, all_settled, in_flight in *.
    rewrite Hd. intros [_ Hall]%Forall_app.
    destruct U' as [|pd U']; [by rewrite Heq, app_nil_r|].
    apply Forall_cons in Hall as [Hpd _].
    apply Forall_cons in HU' as [[Hpd' _] _]. congruence.
Qed.

End Playback.

Section Schedule.
Context {T : Type} {num : JSNumber T} {utils : AudioUtils T}.
Implicit Types (w : World) (h : Host).

(** What one turn does to the schedule and to the cursor: either nothing
    is scheduled, and the cursor stays, or is reset by a click, or is
    raised by [onmessage] to the clock of the output context; or the turn
    is a decode settling, the buffer is scheduled at the cursor, and the
    cursor moves on by the buffer's duration. *)
Lemma step_playback h e w :
  (sources (browser (step h e w)) = sources (browser w) /\
   (cursor (step h e w) = cursor w \/
    (e = Click /\ cursor (step h e w) = num_zero) \/
    (exists sid m ctx ac,
       e = RemoteMessage sid m /\
       outputContextRef (refs w) = Some ctx /\
       contexts (browser w) !! ctx = Some ac /\
       cursor (step h e w) = Math_max (cursor w) (currentTime ac)))) \/
  (exists k pd b,
     e = DecodeSettled k /\
     decodesAwaiting (browser w) !! k = Some pd /\
     pd_result pd = Some b /\
     sources (browser (step h e w)) = sources (browser w) ++
       [{| bs_context := pd_ctx pd; bs_buffer := b; bs_when := cursor w |}] /\
     cursor (step h e w) = num_add (cursor w) (duration b)).
Proof.
  unfold cursor.
  destruct e as [| |k r|sid|sid ok|p f|sid m|k|src|sid|sid err|c t]; simpl.
  - left. unfold toggleSession, toggleSession_catch.
    destruct (isActive (ui w)).
    + destruct (cleanup_frame h (setStatus "Disconnected" (setIsActive false w)))
        as (_ & -> & _ & _ & -> & _). auto.
    + destruct (truthy (API_KEY h)); simpl; [auto|].
      match goal with |- context [cleanup h ?x] =>
        destruct (cleanup_frame h x) as (_ & -> & _ & _ & -> & _) end. auto.
  - left. destruct (cleanup_frame h w) as (_ & -> & _ & _ & -> & _). auto.
  - left. destruct (startsAwaiting (browser w) !! k) as [ps|]; [|auto].
    destruct (ps_settled ps); [auto|].
    destruct r as [|msg]; [auto|].
    unfold toggleSession_resume, toggleSession_catch.
    match goal with |- context [cleanup h ?x] =>
      destruct (cleanup_frame h x) as (_ & -> & _ & _ & -> & _) end. auto.
  - left. destruct (sessions (browser w) !! sid); auto.
  - left. unfold settle_sessionPromise.
    destruct (sessions (browser w) !! sid) as [s|]; [|auto].
    destruct (s_promise s); auto.
  - left. destruct (processors (browser w) !! p) as [sp|]; [|auto].
    destruct (_ && _); [|auto].
    unfold onaudioprocess, then_send, sendRealtimeInput.
    destruct (sessions (browser w) !! sp_session sp) as [s|]; [|auto].
    destruct (s_promise s); auto.
  - left. destruct (sessions (browser w) !! sid); [|auto].
    unfold onmessage.
    destruct (audioData_of m) as [a|]; [|auto].
    case_bool_decide; [auto|].
    destruct (outputContextRef (refs w)) as [ctx|] eqn:Ho; [|auto].
    destruct (contexts (browser w) !! ctx) as [ac|] eqn:Hc; [|auto].
    destruct (decodeAudio a); simpl; (split; [done|]);
      right; right; by exists sid, m, ctx, ac.
  - destruct (decodesAwaiting (browser w) !! k) as [pd|] eqn:Hk; [|auto].
    destruct (pd_settled pd); [auto|].
    unfold onmessage_resume. simpl.
    destruct (pd_result pd) as [b|] eqn:Hb; [|auto].
    destruct (sessions (browser w) !! pd_session pd) as [s|]; [|auto].
    case_bool_decide; [|auto].
    right. by exists k, pd, b.
  - left. destruct (sources (browser w) !! src); auto.
  - left. destruct (sessions (browser w) !! sid) as [s|]; [|auto].
    unfold onclose. destruct (s_isActive s); auto.
  - left. destruct (sessions (browser w) !! sid); auto.
  - auto.
Qed.

(** The decodes a turn leaves pending are those that were pending (maybe
    now settled) and at most one new one, whose result comes from
    [decodeAudioData]. *)
Lemma step_pending h e w k pd b :
  decodesAwaiting (browser (step h e w)) !! k = Some pd ->
  pd_result pd = Some b ->
  (exists pd0, decodesAwaiting (browser w) !! k = Some pd0 /\
               pd_result pd0 = Some b) \/
  (exists bytes, decodeAudioData bytes 24000 1 = Some b).
Proof.
  assert (Hsettle : forall (l : list PendingDecode) i,
    alter settle_decode i l !! k = Some pd -> pd_result pd = Some b ->
    exists pd0, l !! k = Some pd0 /\ pd_result pd0 = Some b).
  { intros l i Hl Hb. destruct (decide (i = k)) as [->|Hne].
    - rewrite list_lookup_alter_eq in Hl.
      destruct (l !! k) as [pd0|]; [|done]. injection Hl as <-.
      by exists pd0.
    - rewrite list_lookup_alter_ne in Hl by done. by exists pd. }
  destruct e as [| |k' r|sid|sid ok|p f|sid m|k'|src|sid|sid err|c t]; simpl.
  - unfold toggleSession, toggleSession_catch.
    destruct (isActive (ui w)).
    + destruct (cleanup_frame h (setStatus "Disconnected" (setIsActive false w)))
        as (_ & _ & _ & _ & _ & _ & -> & _). simpl. eauto.
    + destruct (truthy (API_KEY h)); simpl; [eauto|].
      match goal with |- context [cleanup h ?x] =>
        destruct (cleanup_frame h x) as (_ & _ & _ & _ & _ & _ & -> & _) end.
      simpl. eauto.
  - destruct (cleanup_frame h w) as (_ & _ & _ & _ & _ & _ & -> & _). eauto.
  - destruct (startsAwaiting (browser w) !! k') as [ps|]; [|eauto].
    destruct (ps_settled ps); [eauto|].
    destruct r as [|msg]; [simpl; eauto|].
    unfold toggleSession_resume, toggleSession_catch.
    match goal with |- context [cleanup h ?x] =>
      destruct (cleanup_frame h x) as (_ & _ & _ & _ & _ & _ & -> & _) end.
    simpl. eauto.
  - destruct (sessions (browser w) !! sid); simpl; eauto.
  - unfold settle_sessionPromise.
    destruct (sessions (browser w) !! sid) as [s|]; [|eauto].
    destruct (s_promise s); simpl; eauto.
  - destruct (processors (browser w) !! p) as [sp|]; [|eauto].
    destruct (_ && _); [|eauto].
    unfold onaudioprocess, then_send, sendRealtimeInput.
    destruct (sessions (browser w) !! sp_session sp) as [s|]; [|eauto].
    destruct (s_promise s); simpl; eauto.
  - destruct (sessions (browser w) !! sid); [|eauto].
    unfold onmessage.
    destruct (audioData_of m) as [a|]; [|eauto].
    case_bool_decide; [eauto|].
    destruct (outputContextRef (refs w)) as [ctx|]; [|eauto].
    destruct (contexts (browser w) !! ctx) as [ac|]; [|eauto].
    destruct (decodeAudio a) as [bytes|]; simpl; [|eauto].
    intros Hl Hb.
    apply lookup_app_Some in Hl as [Hl|[_ Hl]]; [eauto|].
    apply list_lookup_singleton_Some in Hl as [_ <-]. simpl in Hb. eauto.
  - destruct (decodesAwaiting (browser w) !! k') as [pd'|]; [|eauto].
    destruct (pd_settled pd'); [eauto|].
    unfold onmessage_resume. simpl.
    destruct (pd_result pd'); [|simpl; eauto].
    destruct (sessions (browser w) !! pd_session pd'); [|simpl; eauto].
    case_bool_decide; simpl; eauto.
  - destruct (sources (browser w) !! src); simpl; eauto.
  - destruct (sessions (browser w) !! sid) as [s|]; [|eauto].
    unfold onclose. destruct (s_isActive s); simpl; eauto.
  - destruct (sessions (browser w) !! sid); simpl; eauto.
  - eauto.
Qed.

Lemma step_pending_nonneg h e w :
  durations_nonneg -> pending_nonneg w -> pending_nonneg (step h e w).
Proof.
  intros Hd Hw k pd b Hk Hb.
  destruct (step_pending h e w k pd b Hk Hb) as [(pd0 & ? & ?)|(bytes & ?)].
  - by eapply Hw.
  - by eapply Hd.
Qed.

(** [cleanup] closes contexts, and a closed context keeps its clock. *)
Lemma closed_context_clocks (l : list (@AudioContext T)) c :
  Forall (fun ac => is_number (currentTime ac)) l ->
  Forall (fun ac => is_number (currentTime ac)) (alter closed_context c l).
Proof. intros Hl. apply Forall_alter; [done|]. by intros ac _ ?. Qed.

Lemma cleanup_clocks h w :
  clocks_read_numbers w -> clocks_read_numbers (world_of (cleanup h w)).
Proof.
  unfold clocks_read_numbers.
  destruct w as [u [ic oc cur srcs sp st pr] b].
  unfold cleanup, disconnect, stop_tracks, close. simpl.
  destruct pr as [p|], st as [s|], ic as [ci|], oc as [co|]; simpl;
    repeat (destruct (throws h _); simpl);
    auto using closed_context_clocks.
Qed.

Section WithLaws.
Context {laws : JSNumberLaws T}.

Lemma nonneg_trans a b :
  num_leb num_zero a = true -> num_leb a b = true ->
  num_leb num_zero b = true.
Proof. intros. eapply num_leb_trans; [apply num_zero_leb|done..]. Qed.

Lemma nonneg_end src :
  num_leb num_zero (bs_when src) = true -> nonneg_duration src ->
  num_leb num_zero (bs_end src) = true.
Proof.
  intros Hw Hd. eapply nonneg_trans; [exact Hw|]. by apply num_add_nonneg.
Qed.

Lemma chained_from_earlier c c1 l c' :
  num_leb num_zero c = true ->
  num_leb c c1 = true -> chained c1 l c' = true -> chained c l c' = true.
Proof.
  intros H0 Hc. destruct l as [|src l]; simpl.
  - intros. by eapply num_leb_trans.
  - rewrite !andb_true_iff. intros [? ?]. split; [|done].
    by eapply num_leb_trans.
Qed.

Lemma chained_app c l1 c1 l2 c2 :
  num_leb num_zero c = true -> Forall nonneg_duration l1 ->
  chained c l1 c1 = true -> chained c1 l2 c2 = true ->
  chained c (l1 ++ l2) c2 = true.
Proof.
  intros H0 Hl. revert c H0.
  induction Hl as [|src l1 Hsrc _ IH]; intros c H0; simpl.
  - by apply chained_from_earlier.
  - rewrite !andb_true_iff. intros [Hs ?] ?. split; [done|].
    apply IH; [|done..]. apply nonneg_end; [|done]. by eapply nonneg_trans.
Qed.

Lemma chained_cursor_mono c l c' :
  num_leb num_zero c = true ->
  Forall nonneg_duration l -> chained c l c' = true -> num_leb c c' = true.
Proof.
  intros H0 Hl. revert c H0.
  induction Hl as [|src l Hsrc _ IH]; intros c H0; simpl.
  - done.
  - rewrite andb_true_iff. intros [Hs Hrest].
    assert (Hw : num_leb num_zero (bs_when src) = true)
      by by eapply nonneg_trans.
    eapply num_leb_trans; [done|exact Hs|].
    eapply num_leb_trans; [done| |apply IH; [by apply nonneg_end|done]].
    by apply num_add_nonneg.
Qed.

(** The clocks keep reading numbers: a new context reads [0], a closed one
    keeps its reading, and the audio thread publishes numbers. *)
Lemma step_clocks h e w :
  tick_is_number e -> clocks_read_numbers w ->
  clocks_read_numbers (step h e w).
Proof.
  intros He Hw.
  destruct e as [| |k r|sid|sid ok|p f|sid m|k|src|sid|sid err|c t]; simpl.
  - unfold toggleSession, toggleSession_catch.
    destruct (isActive (ui w)).
    + by apply cleanup_clocks.
    + destruct (truthy (API_KEY h)); simpl; [|by apply cleanup_clocks].
      unfold clocks_read_numbers. simpl.
      rewrite <-app_assoc. apply Forall_app. split; [done|].
      repeat constructor; apply num_zero_leb.
  - by apply cleanup_clocks.
  - destruct (startsAwaiting (browser w) !! k) as [ps|]; [|done].
    destruct (ps_settled ps); [done|].
    destruct r as [|msg]; [done|].
    unfold toggleSession_resume, toggleSession_catch.
    by apply cleanup_clocks.
  - by destruct (sessions (browser w) !! sid).
  - unfold settle_sessionPromise.
    destruct (sessions (browser w) !! sid) as [s|]; [|done].
    by destruct (s_promise s).
  - destruct (processors (browser w) !! p) as [sp|]; [|done].
    destruct (_ && _); [|done].
    unfold onaudioprocess, then_send, sendRealtimeInput.
    destruct (sessions (browser w) !! sp_session sp) as [s|]; [|done].
    by destruct (s_promise s).
  - destruct (sessions (browser w) !! sid); [|done].
    unfold onmessage. by repeat case_match.
  - destruct (decodesAwaiting (browser w) !! k) as [pd|]; [|done].
    destruct (pd_settled pd); [done|].
    unfold onmessage_resume. by repeat case_match.
  - by destruct (sources (browser w) !! src).
  - destruct (sessions (browser w) !! sid) as [s|]; [|done].
    unfold onclose. by destruct (s_isActive s).
  - by destruct (sessions (browser w) !! sid).
  - unfold clocks_read_numbers. simpl. apply Forall_alter; [done|].
    intros ac _ Hac. unfold tick. by destruct (state ac).
Qed.

(** The cursor stays at or above zero. *)
Lemma step_cursor_nonneg h e w :
  pending_nonneg w -> clocks_read_numbers w ->
  num_leb num_zero (cursor w) = true ->
  num_leb num_zero (cursor (step h e w)) = true.
Proof.
  intros Hw Hclk H0.
  destruct (step_playback h e w)
    as [[_ Hcur]|(k & pd & b & _ & Hk & Hb & _ & Hcur)].
  - destruct Hcur as [->|[[_ ->]|(sid & m & ctx & ac & _ & _ & Hac & ->)]].
    + done.
    + apply num_zero_leb.
    + eapply nonneg_trans; [exact H0|]. apply Math_max_ge_l; [done|].
      apply list_elem_of_lookup_2 in Hac.
      by apply (proj1 (Forall_forall _ _) Hclk).
  - rewrite Hcur. eapply nonneg_trans; [exact H0|].
    apply num_add_nonneg; [done|]. by eapply Hw.
Qed.

(** One turn other than a click: the buffers it schedules (none or one)
    are chained between the cursor before and the cursor after. *)
Lemma step_chained h e w :
  e <> Click ->
  pending_nonneg w -> clocks_read_numbers w ->
  num_leb num_zero (cursor w) = true ->
  exists new,
    sources (browser (step h e w)) = sources (browser w) ++ new /\
    chained (cursor w) new (cursor (step h e w)) = true /\
    Forall nonneg_duration new.
Proof.
  intros He Hw Hclk H0.
  destruct (step_playback h e w)
    as [[Hsrc Hcur]|(k & pd & b & -> & Hk & Hb & Hsrc & Hcur)].
  - exists []. rewrite app_nil_r. split_and!; [done| |done]. simpl.
    destruct Hcur as [->|[[? _]|(sid & m & ctx & ac & _ & _ & Hac & ->)]].
    + by apply num_leb_refl.
    + done.
    + apply Math_max_ge_l; [done|].
      apply list_elem_of_lookup_2 in Hac.
      by apply (proj1 (Forall_forall _ _) Hclk).
  - assert (Hb0 : num_leb num_zero (duration b) = true) by by eapply Hw.
    eexists [_]. split_and!; [exact Hsrc| |].
    + rewrite Hcur. cbn [chained]. unfold bs_end. cbn [bs_when bs_buffer].
      rewrite (num_leb_refl _ H0). simpl. apply num_leb_refl.
      eapply nonneg_trans; [exact H0|]. by apply num_add_nonneg.
    + constructor; [|done]. exact Hb0.
Qed.

Lemma run_cons h e events w :
  run h (e :: events) w = run h events (step h e w).
Proof. reflexivity. Qed.

Lemma run_app h before after w :
  run h (before ++ after) w = run h after (run h before w).
Proof. apply foldl_app. Qed.

(** What a run keeps: pending decodes have durations of at least zero, the
    clocks read numbers, the cursor is at or above zero. *)
Lemma run_keeps h events w :
  ticks_are_numbers events ->
  durations_nonneg ->
  pending_nonneg w -> clocks_read_numbers w ->
  num_leb num_zero (cursor w) = true ->
  pending_nonneg (run h events w) /\
  clocks_read_numbers (run h events w) /\
  num_leb num_zero (cursor (run h events w)) = true.
Proof.
  intros Hev Hd. revert w.
  induction Hev as [|e events He _ IH]; intros w Hw Hclk H0; [done|].
  rewrite run_cons. apply IH.
  - by apply step_pending_nonneg.
  - by apply step_clocks.
  - by apply step_cursor_nonneg.
Qed.

Lemma run_chained h events w :
  Forall (fun e => e <> Click) events ->
  ticks_are_numbers events ->
  durations_nonneg ->
  pending_nonneg w -> clocks_read_numbers w ->
  num_leb num_zero (cursor w) = true ->
  exists new,
    sources (browser (run h events w)) = sources (browser w) ++ new /\
    chained (cursor w) new (cursor (run h events w)) = true /\
    Forall nonneg_duration new.
Proof.
  intros Hev Ht Hd. revert w Ht.
  induction Hev as [|e events He _ IH]; intros w Ht Hw Hclk H0.
  - exists []. rewrite app_nil_r. split_and!; [done| |done].
    by apply num_leb_refl.
  - rewrite run_cons. apply Forall_cons in Ht as [Hte Ht].
    destruct (step_chained h e w He Hw Hclk H0) as (new1 & Hs1 & Hc1 & Hn1).
    destruct (IH (step h e w) Ht) as (new2 & Hs2 & Hc2 & Hn2).
    { by apply step_pending_nonneg. }
    { by apply step_clocks. }
    { by apply step_cursor_nonneg. }
    exists (new1 ++ new2). split_and!.
    + by rewrite Hs2, Hs1, <-app_assoc.
    + by eapply chained_app.
    + by apply Forall_app.
Qed.

(** When [onmessage] reads the clock: the message is for a session that
    exists, carries a payload, and the output handle names a context. *)
Lemma onmessage_raises_cursor h w sid m ctx ac :
  is_Some (sessions (browser w) !! sid) ->
  truthy (audioData_of m) = true ->
  outputContextRef (refs w) = Some ctx ->
  contexts (browser w) !! ctx = Some ac ->
  cursor (step h (RemoteMessage sid m) w)
  = Math_max (cursor w) (currentTime ac).
Proof.
  intros [s Hs] Hm Ho Hc. unfold cursor. simpl. rewrite Hs.
  unfold onmessage. destruct (audioData_of m) as [a|]; [|done].
  simpl in Hm. apply bool_decide_eq_true in Hm.
  rewrite bool_decide_eq_false_2 by (intros ->; done).
  rewrite Ho, Hc. by destruct (decodeAudio a).
Qed.

(** C1 (as the code has it): in a run without a toggle (one session), from
    a cursor at or above zero, with buffer durations of at least zero and
    clocks that never read NaN, the cursor never decreases, from any point
    of the run to its end, and the buffers scheduled are chained: each
    starts at or after the end of the one before, the first no earlier
    than the cursor at the beginning, the last ending no later than the
    cursor at the end.  A buffer is scheduled at the value the cursor has
    in the turn that schedules it, and the cursor then moves on by exactly
    the buffer's duration.  The maximum with the device clock is taken
    earlier, when the chunk's message arrives and before it is decoded:
    on a message with a payload, for a session that exists and with the
    output context in place, [onmessage] sets the cursor to
    [max(cursor, currentTime)] of that context; on any other message the
    cursor stays. *)
Theorem C1_cursor_and_schedule_within_session h events w :
  Forall (fun e => e <> Click) events ->
  ticks_are_numbers events ->
  durations_nonneg ->
  pending_nonneg w ->
  clocks_read_numbers w ->
  num_leb num_zero (cursor w) = true ->
  let w' := run h events w in
  num_leb (cursor w) (cursor w') = true /\
  (forall before after,
     events = before ++ after ->
     num_leb (cursor (run h before w)) (cursor w') = true) /\
  (exists new,
     sources (browser w') = sources (browser w) ++ new /\
     chained (cursor w) new (cursor w') = true) /\
  (forall w1 e src,
     sources (browser (step h e w1)) = sources (browser w1) ++ [src] ->
     bs_when src = cursor w1 /\
     cursor (step h e w1) = num_add (cursor w1) (duration (bs_buffer src))) /\
  (forall w1 sid m ctx ac,
     is_Some (sessions (browser w1) !! sid) ->
     truthy (audioData_of m) = true ->
     outputContextRef (refs w1) = Some ctx ->
     contexts (browser w1) !! ctx = Some ac ->
     cursor (step h (RemoteMessage sid m) w1)
     = Math_max (cursor w1) (currentTime ac)) /\
  (forall w1 sid m,
     sessions (browser w1) !! sid = None \/
     truthy (audioData_of m) = false \/
     outputContextRef (refs w1) = None \/
     (exists ctx, outputContextRef (refs w1) = Some ctx /\
                  contexts (browser w1) !! ctx = None) ->
     cursor (step h (RemoteMessage sid m) w1) = cursor w1).
Proof.
  intros Hev Ht Hd Hw Hclk H0 w'.
  assert (Hmono : forall evs w0,
    Forall (fun e => e <> Click) evs -> ticks_are_numbers evs ->
    pending_nonneg w0 -> clocks_read_numbers w0 ->
    num_leb num_zero (cursor w0) = true ->
    num_leb (cursor w0) (cursor (run h evs w0)) = true).
  { intros evs w0 Hev0 Ht0 Hw0 Hclk0 H00.
    destruct (run_chained h evs w0 Hev0 Ht0 Hd Hw0 Hclk0 H00)
      as (new & _ & Hc & Hn).
    by eapply chained_cursor_mono. }
  split_and!.
  - by apply Hmono.
  - intros before after ->. subst w'. rewrite run_app.
    apply Forall_app in Hev as [Hev1 Hev2].
    apply Forall_app in Ht as [Ht1 Ht2].
    destruct (run_keeps h before w Ht1 Hd Hw Hclk H0) as (? & ? & ?).
    by apply Hmono.
  - destruct (run_chained h events w Hev Ht Hd Hw Hclk H0)
      as (new & Hs & Hc & _).
    by exists new.
  - intros w1 e src Hsrc.
    destruct (step_playback h e w1)
      as [[Hsame _]|(k & pd & b & _ & _ & _ & Hs1 & Hc1)].
    + rewrite Hsame in Hsrc. apply (f_equal length) in Hsrc.
      rewrite length_app in Hsrc. simpl in Hsrc. lia.
    + rewrite Hs1 in Hsrc. apply app_inv_head in Hsrc.
      injection Hsrc as <-. by simpl.
  - intros w1 sid m ctx ac. apply onmessage_raises_cursor.
  - intros w1 sid m Hcase. unfold cursor. simpl.
    destruct (sessions (browser w1) !! sid) as [s|] eqn:Hs; [|done].
    unfold onmessage.
    destruct (audioData_of m) as [a|]; [|done].
    case_bool_decide as Ha; [done|].
    destruct Hcase as [?|[Hm|[Ho|(ctx & Ho & Hc)]]].
    + done.
    + simpl in Hm. by rewrite bool_decide_eq_true_2 in Hm.
    + by rewrite Ho.
    + by rewrite Ho, Hc.
Qed.

End WithLaws.

End Schedule.

(** C4: on doubles.  With the cursor and the output clock both at [0], two
    chunks that decode to buffers of 0.5 s and 0.3 s, delivered back to
    back, are scheduled at [0] and at [0.5], and the cursor ends at [0.8]
    ([0.5 + 0.3] rounds to the double nearest 0.8).  This is so whether
    the first chunk is decoded before the second arrives, or both arrive
    before the first decode settles. *)
Theorem C4_two_chunks_back_to_back
  {utils : AudioUtils float} (h : Host) (w : World)
  (sid : handle) (s : Session) (ctx : handle) (ac : AudioContext)
  (m1 m2 : LiveServerMessage) (b1 b2 : AudioBuffer float) :
  sessions (browser w) !! sid = Some s ->
  s_outputCtx s = ctx ->
  outputContextRef (refs w) = Some ctx ->
  contexts (browser w) !! ctx = Some ac ->
  currentTime ac = 0%float ->
  nextStartTimeRef (refs w) = 0%float ->
  decoded m1 = Some b1 -> duration b1 = 0.5%float ->
  decoded m2 = Some b2 -> duration b2 = 0.3%float ->
  let k := length (decodesAwaiting (browser w)) in
  let scheduled :=
    sources (browser w) ++
    [{| bs_context := ctx; bs_buffer := b1; bs_when := 0%float |};
     {| bs_context := ctx; bs_buffer := b2; bs_when := 0.5%float |}] in
  let w' := run h [RemoteMessage sid m1; DecodeSettled k;
                   RemoteMessage sid m2; DecodeSettled (S k)] w in
  let w'' := run h [RemoteMessage sid m1; RemoteMessage sid m2;
                    DecodeSettled k; DecodeSettled (S k)] w in
  sources (browser w') = scheduled /\
  nextStartTimeRef (refs w') = 0.8%float /\
  sources (browser w'') = scheduled /\
  nextStartTimeRef (refs w'') = 0.8%float.
Proof.
  intros Hs Hctx Ho Hc Ht Hcur Hd1 Hb1 Hd2 Hb2 k scheduled w' w''.
  assert (Hw' : sources (browser w') = scheduled /\
                nextStartTimeRef (refs w') = 0.8%float).
  { subst w'. unfold run. cbn [foldl].
    rewrite (message_valid h sid m1 w s ctx ac b1) by done.
    erewrite (resume_valid h k _ _ b1 s); cycle 1.
    { simpl. by apply list_lookup_middle. }
    { done. } { done. } { done. } { done. }
    erewrite (message_valid h sid m2 _ s ctx ac b2) by done.
    erewrite (resume_valid h (S k) _ _ b2 s); cycle 1.
    { simpl. apply list_lookup_middle.
      rewrite length_alter, length_app. simpl. subst k. lia. }
    { done. } { done. } { done. } { done. }
    unfold cursor. simpl. rewrite Hcur, Ht, Hb1, Hb2.
    subst scheduled. rewrite <- app_assoc. split; reflexivity. }
  assert (Hw'' : sources (browser w'') = scheduled /\
                 nextStartTimeRef (refs w'') = 0.8%float).
  { subst w''. unfold run. cbn [foldl].
    rewrite (message_valid h sid m1 w s ctx ac b1) by done.
    erewrite (message_valid h sid m2 _ s ctx ac b2) by done.
    erewrite (resume_valid h k _ _ b1 s); cycle 1.
    { simpl. rewrite lookup_app_l by (rewrite length_app; simpl; lia).
      by apply list_lookup_middle. }
    { done. } { done. } { done. } { done. }
    erewrite (resume_valid h (S k) _ _ b2 s); cycle 1.
    { simpl. rewrite list_lookup_alter_ne by (subst k; lia).
      apply list_lookup_middle. rewrite length_app. simpl. subst k. lia. }
    { done. } { done. } { done. } { done. }
    unfold cursor. simpl. rewrite Hcur, Ht, Hb1, Hb2.
    subst scheduled. rewrite <- app_assoc. split; reflexivity. }
  destruct Hw', Hw''. done.
Qed.

Section Stop.
Context {T : Type} {num : JSNumber T} {utils : AudioUtils T}.
Implicit Types (w : World) (h : Host).

(** [onaudioprocess] looks at nothing but the session promise: on a
    fulfilled one the frame is sent. *)
Lemma onaudioprocess_sends sid s inputData w :
  sessions (browser w) !! sid = Some s ->
  s_promise s = Fulfilled ->
  s_sent <$> sessions (browser (onaudioprocess sid inputData w)) !! sid
  = Some (s_sent s ++ [createPcmBlob inputData]).
Proof.
  intros Hsid Hful. unfold onaudioprocess, then_send, sendRealtimeInput.
  rewrite Hsid, Hful. simpl.
  rewrite list_lookup_alter_eq. unfold handle in *. by rewrite Hsid.
Qed.

(** C3 (as the code has it): once a stop issued on a live session has
    returned (no release call throwing), the lifecycle flag is cleared,
    every handle is null, the processor that was held is disconnected,
    the tracks of the stream that was held are stopped and both contexts
    that were held are closed.  Inbound messages delivered from then on
    change nothing, whatever they carry and however many they are:
    [onmessage] finds no output context and returns, so nothing is
    scheduled.  The capture callback has no such guard: whenever it is
    run after the stop, for a session whose promise is fulfilled, it
    sends the frame; that no frame is sent after a stop rests on the
    browser no longer firing [audioprocess] on the disconnected node, not
    on the handler.  Neither half extends to a handler that was suspended
    when stop was issued. *)
Theorem C3_stop_guards_messages_not_capture h w :
  (forall c, throws h c = false) ->
  isActive (ui w) = true ->
  let stopped := step h Click w in
  isActive (ui stopped) = false /\
  all_null (refs stopped) /\
  (forall p, scriptProcessorRef (refs w) = Some p ->
             processor_connected p stopped = false) /\
  (forall s, streamRef (refs w) = Some s -> stream_live s stopped = false) /\
  (forall c, inputContextRef (refs w) = Some c ->
             context_running c stopped = false) /\
  (forall c, outputContextRef (refs w) = Some c ->
             context_running c stopped = false) /\
  (forall messages : list (handle * LiveServerMessage),
     run h (uncurry RemoteMessage <$> messages) stopped = stopped) /\
  (forall sid s inputData,
     sessions (browser stopped) !! sid = Some s ->
     s_promise s = Fulfilled ->
     s_sent <$> sessions (browser (onaudioprocess sid inputData stopped)) !! sid
     = Some (s_sent s ++ [createPcmBlob inputData])).
Proof.
  intros Hno Ha. simpl. rewrite Ha. unfold toggleSession.
  set (w0 := setStatus "Disconnected" (setIsActive false w)).
  destruct (cleanup_no_throw h w0 Hno)
    as (w1 & -> & Hnull & Hui & Hp & Hs & Hi & Ho). simpl.
  split_and!; [by rewrite Hui|done..| |].
  - intros messages. induction messages as [|[sid m] messages IH]; [done|].
    rewrite fmap_cons, run_cons.
    replace (step h (uncurry RemoteMessage (sid, m)) w1) with w1; [done|].
    simpl. destruct (sessions (browser w1) !! sid); [|done].
    symmetry. apply onmessage_noop.
    right. by destruct Hnull as (_ & _ & _ & ? & _).
  - intros sid s inputData. apply onaudioprocess_sends.
Qed.

End Stop.

(** ** IEEE doubles satisfy the order laws

    From the specification of binary64 in the library: a finite
    non-negative double [m * 2^e] is compared through the integer
    [m * 2^(e + 1074)], and adding a non-negative double to it, rounded to
    nearest, gives a double that is not smaller. *)

Section Binary64.
Local Open Scope Z_scope.

Lemma pow2_pos k : 0 <= k -> 0 < 2 ^ k.
Proof. intros. by apply Z.pow_pos_nonneg. Qed.

Lemma pow2_add a b : 0 <= a -> 0 <= b -> 2 ^ (a + b) = 2 ^ a * 2 ^ b.
Proof. intros. by apply Z.pow_add_r. Qed.

Lemma digits2_pos_bounds m :
  2 ^ (Zpos (digits2_pos m) - 1) <= Zpos m < 2 ^ Zpos (digits2_pos m).
Proof.
  induction m as [m IH|m IH|]; simpl digits2_pos; [| |by compute].
  - rewrite Pos2Z.inj_succ, (Pos2Z.inj_xI m).
    replace (Z.succ (Zpos (digits2_pos m)) - 1)
      with (1 + (Zpos (digits2_pos m) - 1)) by lia.
    replace (Z.succ (Zpos (digits2_pos m)))
      with (1 + Zpos (digits2_pos m)) by lia.
    rewrite !pow2_add by lia. change (2 ^ 1) with 2. lia.
  - rewrite Pos2Z.inj_succ, (Pos2Z.inj_xO m).
    replace (Z.succ (Zpos (digits2_pos m)) - 1)
      with (1 + (Zpos (digits2_pos m) - 1)) by lia.
    replace (Z.succ (Zpos (digits2_pos m)))
      with (1 + Zpos (digits2_pos m)) by lia.
    rewrite !pow2_add by lia. change (2 ^ 1) with 2. lia.
Qed.

Lemma fexp_binary64 e : fexp prec emax e = Z.max (e - 53) (-1074).
Proof. reflexivity. Qed.

(** A valid finite double: exponent at least -1074, fewer than 2^53 in
    the mantissa, and at least 2^52 unless the exponent is the least. *)
Lemma bounded_binary64 m e :
  bounded prec emax m e = true ->
  -1074 <= e /\ Zpos m < 2 ^ 53 /\ (e = -1074 \/ 2 ^ 52 <= Zpos m).
Proof.
  unfold bounded, canonical_mantissa. rewrite fexp_binary64.
  intros [He _]%andb_true_iff. apply Z.eqb_eq in He.
  pose proof (digits2_pos_bounds m) as [Hlo Hhi].
  assert (Hd : Zpos (digits2_pos m) <= 53) by lia.
  split; [lia|]. split.
  - eapply Z.lt_le_trans; [exact Hhi|]. by apply Z.pow_le_mono_r.
  - destruct (decide (e = -1074)) as [|Hne]; [by left|right].
    assert (Zpos (digits2_pos m) = 53) as Hd' by lia.
    rewrite Hd' in Hlo. exact Hlo.
Qed.

(** Valid doubles at or above zero compare as their values do. *)
Lemma leb_of_values m1 e1 m2 e2 :
  bounded prec emax m1 e1 = true ->
  bounded prec emax m2 e2 = true ->
  Zpos m1 * 2 ^ (e1 + 1074) <= Zpos m2 * 2 ^ (e2 + 1074) ->
  SFleb (S754_finite false m1 e1) (S754_finite false m2 e2) = true.
Proof.
  intros (Hb1 & Hm1 & Hn1)%bounded_binary64 (Hb2 & Hm2 & Hn2)%bounded_binary64 Hv.
  unfold SFleb, SFcompare.
  destruct (Z.compare_spec e1 e2) as [->|Hlt|Hgt]; [|done|].
  - change (Pos.compare_cont Eq m1 m2) with (Pos.compare m1 m2).
    destruct (Pos.compare_spec m1 m2) as [?|?|Hgt]; [done|done|].
    exfalso. apply Z.mul_le_mono_pos_r in Hv; [lia|]. apply pow2_pos. lia.
  - exfalso. destruct Hn1 as [?|Hn1]; [lia|].
    replace (e1 + 1074) with ((e1 - e2 - 1) + (1 + (e2 + 1074))) in Hv by lia.
    rewrite !pow2_add in Hv by lia. change (2 ^ 1) with 2 in Hv.
    pose proof (pow2_pos (e1 - e2 - 1)) as HA.
    pose proof (pow2_pos (e2 + 1074)) as HB.
    change (2 ^ 53) with (2 * 2 ^ 52) in Hm2.
    generalize dependent (2 ^ 52). generalize dependent (2 ^ (e1 - e2 - 1)).
    generalize dependent (2 ^ (e2 + 1074)). intros B HB A Hv HA P Hm2 Hn1.
    assert (Zpos m1 * (A * 2) <= Zpos m2) as Hv'.
    { apply Z.mul_le_mono_pos_r with B; [lia|].
      replace (Zpos m1 * (A * 2) * B) with (Zpos m1 * (A * (2 * B))) by ring.
      exact Hv. }
    assert (Zpos m1 * 1 <= Zpos m1 * A) by (apply Z.mul_le_mono_nonneg_l; lia).
    lia.
Qed.

Lemma shr_1_m mrs : 0 <= shr_m mrs -> shr_m (shr_1 mrs) = shr_m mrs / 2.
Proof.
  rewrite <- Z.div2_div.
  destruct mrs as [[|[p|p|]|p] r s]; simpl; (done || lia).
Qed.

Lemma iter_shr_1 p : forall mrs,
  0 <= shr_m mrs ->
  shr_m (SpecFloat.iter_pos shr_1 p mrs) = shr_m mrs / 2 ^ Zpos p.
Proof.
  assert (Hdiv : forall a k, 0 <= a -> 0 <= k -> 0 <= a / 2 ^ k).
  { intros. apply Z.div_pos; [done|]. by apply pow2_pos. }
  induction p as [p IH|p IH|]; intros mrs Hm; simpl SpecFloat.iter_pos.
  - assert (H1 : 0 <= shr_m (shr_1 mrs)).
    { rewrite shr_1_m by done. apply Z.div_pos; lia. }
    assert (H2 : 0 <= shr_m (SpecFloat.iter_pos shr_1 p (shr_1 mrs))).
    { rewrite IH by done. apply Hdiv; lia. }
    rewrite (IH _ H2), (IH _ H1), shr_1_m by done.
    pose proof (pow2_pos (Zpos p)).
    rewrite !Z.div_div by lia.
    f_equal. rewrite (Pos2Z.inj_xI p).
    replace (2 * Zpos p + 1) with (1 + (Zpos p + Zpos p)) by lia.
    rewrite !pow2_add by lia. change (2 ^ 1) with 2. lia.
  - assert (H1 : 0 <= shr_m (SpecFloat.iter_pos shr_1 p mrs)).
    { rewrite IH by done. apply Hdiv; lia. }
    rewrite (IH _ H1), (IH _ Hm).
    pose proof (pow2_pos (Zpos p)).
    rewrite Z.div_div by lia.
    f_equal. rewrite (Pos2Z.inj_xO p).
    replace (2 * Zpos p) with (Zpos p + Zpos p) by lia.
    by rewrite pow2_add by lia.
  - by rewrite shr_1_m by done.
Qed.

(** Shifting a sum down to its format keeps it at or above every valid
    double that was at or below it. *)
Lemma shr_floor mx ex m e r s :
  bounded prec emax mx ex = true ->
  0 < m -> -1074 <= e ->
  Zpos mx * 2 ^ (ex + 1074) <= m * 2 ^ (e + 1074) ->
  let '(mrs', e') := shr (Build_shr_record m r s) e
                       (fexp prec emax (Zdigits2 m + e) - e) in
  -1074 <= e' /\
  Zpos mx * 2 ^ (ex + 1074) <= shr_m mrs' * 2 ^ (e' + 1074).
Proof.
  intros (Hex & Hmx & _)%bounded_binary64 Hm He Hv.
  destruct m as [|pm|pm]; [lia| |lia]. simpl Zdigits2.
  rewrite fexp_binary64.
  pose proof (digits2_pos_bounds pm) as [Hlo _].
  set (d := Zpos (digits2_pos pm)) in *.
  set (f := Z.max (d + e - 53) (-1074)).
  unfold shr. destruct (f - e) as [|p|p] eqn:Hn; [done| |done].
  rewrite iter_shr_1 by (simpl; lia). simpl shr_m.
  replace (e + Zpos p) with f by lia.
  split; [lia|].
  assert (HG : 0 < 2 ^ (f + 1074)) by (apply pow2_pos; lia).
  assert (HP : 0 < 2 ^ Zpos p) by (apply pow2_pos; lia).
  destruct (Z_le_gt_dec f ex) as [Hle|Hgt].
  - replace (ex + 1074) with ((ex - f) + (f + 1074)) by lia.
    rewrite pow2_add by lia. rewrite Z.mul_assoc.
    apply Z.mul_le_mono_nonneg_r; [lia|].
    apply Z.div_le_lower_bound; [done|].
    replace (ex + 1074) with ((ex - f) + (Zpos p + (e + 1074))) in Hv by lia.
    rewrite !pow2_add in Hv by lia.
    assert (HE : 0 < 2 ^ (e + 1074)) by (apply pow2_pos; lia).
    apply Z.mul_le_mono_pos_r with (2 ^ (e + 1074)); [done|].
    etransitivity; [|exact Hv]. apply Z.eq_le_incl. ring.
  - assert (Hf : f = d + e - 53) by lia.
    assert (Hq : 2 ^ 52 <= Zpos pm / 2 ^ Zpos p).
    { apply Z.div_le_lower_bound; [done|].
      replace (d - 1) with (Zpos p + 52) in Hlo by lia.
      by rewrite pow2_add in Hlo by lia. }
    transitivity (2 ^ 52 * 2 ^ (f + 1074));
      [|apply Z.mul_le_mono_nonneg_r; lia].
    replace (f + 1074) with ((f - ex - 1) + (1 + (ex + 1074))) by lia.
    rewrite (pow2_add (f - ex - 1)), (pow2_add 1) by lia.
    change (2 ^ 1) with 2.
    assert (HX : 0 < 2 ^ (ex + 1074)) by (apply pow2_pos; lia).
    assert (HA : 0 < 2 ^ (f - ex - 1)) by (apply pow2_pos; lia).
    change (2 ^ 53) with (2 * 2 ^ 52) in Hmx.
    generalize dependent (2 ^ 52). generalize dependent (2 ^ (ex + 1074)).
    generalize dependent (2 ^ (f - ex - 1)). intros A HA X _ HX P Hmx _.
    transitivity (P * (1 * (2 * X))).
    + apply Z.lt_le_incl.
      replace (P * (1 * (2 * X))) with ((2 * P) * X) by ring.
      by apply Z.mul_lt_mono_pos_r.
    + apply Z.mul_le_mono_nonneg_l; [lia|].
      apply Z.mul_le_mono_nonneg_r; lia.
Qed.

Lemma round_nearest_even_ge m l : m <= round_nearest_even m l.
Proof.
  destruct l as [|[]]; simpl; try lia. destruct (Z.even m); lia.
Qed.

(** Rounding a positive sum gives a double at or above every valid
    double that the sum is at or above. *)
Lemma binary_round_aux_ge mx ex m e :
  bounded prec emax mx ex = true ->
  0 < m -> -1074 <= e ->
  Zpos mx * 2 ^ (ex + 1074) <= m * 2 ^ (e + 1074) ->
  match binary_round_aux prec emax false m e loc_Exact with
  | S754_finite false m' e' =>
      Zpos mx * 2 ^ (ex + 1074) <= Zpos m' * 2 ^ (e' + 1074)
  | S754_infinity false => True
  | _ => False
  end.
Proof.
  intros Hb Hm He Hv. unfold binary_round_aux, shr_fexp. simpl shr_record_of_loc.
  pose proof (shr_floor mx ex m e false false Hb Hm He Hv) as H1.
  destruct (shr _ e _) as [mrs' e'] eqn:E1. destruct H1 as [He' Hv'].
  set (m1 := round_nearest_even (shr_m mrs') (loc_of_shr_record mrs')).
  assert (HX : 0 < Zpos mx * 2 ^ (ex + 1074)).
  { apply bounded_binary64 in Hb as (? & _). apply Z.mul_pos_pos; [lia|].
    apply pow2_pos. lia. }
  assert (HG : 0 < 2 ^ (e' + 1074)) by (apply pow2_pos; lia).
  assert (Hq : 0 < shr_m mrs') by nia.
  assert (Hm1 : shr_m mrs' <= m1) by apply round_nearest_even_ge.
  assert (Hv1 : Zpos mx * 2 ^ (ex + 1074) <= m1 * 2 ^ (e' + 1074)).
  { etransitivity; [exact Hv'|]. apply Z.mul_le_mono_nonneg_r; lia. }
  pose proof (shr_floor mx ex m1 e' false false Hb ltac:(lia) He' Hv1) as H2.
  destruct (shr _ e' _) as [mrs'' e''] eqn:E2. destruct H2 as [He'' Hv''].
  assert (HG' : 0 < 2 ^ (e'' + 1074)) by (apply pow2_pos; lia).
  destruct (shr_m mrs'') as [|m''|m'']; [lia| |lia].
  by destruct (e'' <=? emax - prec).
Qed.

Lemma pos_iter_xO m d : Zpos (Pos.iter xO m d) = Zpos m * 2 ^ Zpos d.
Proof.
  change (Pos.iter xO m d) with (shift_pos d m).
  rewrite shift_pos_correct, Z.pow_pos_fold. lia.
Qed.

Lemma shl_align_keeps m e e' :
  -1074 <= e -> -1074 <= e' ->
  let '(m', e'') := shl_align m e e' in
  -1074 <= e'' /\ Zpos m' * 2 ^ (e'' + 1074) = Zpos m * 2 ^ (e + 1074).
Proof.
  intros He He'. unfold shl_align.
  destruct (e' - e) as [|d|d] eqn:Hd; [done|done|].
  split; [done|]. rewrite pos_iter_xO.
  replace (e + 1074) with (Zpos d + (e' + 1074)) by lia.
  rewrite (pow2_add (Zpos d)) by lia. ring.
Qed.

Lemma shl_align_fst m e e' :
  e' <= e -> Zpos (fst (shl_align m e e')) = Zpos m * 2 ^ (e - e').
Proof.
  intros He. unfold shl_align.
  destruct (e' - e) as [|d|d] eqn:Hd; simpl.
  - replace (e - e') with 0 by lia. rewrite Z.pow_0_r. lia.
  - lia.
  - rewrite pos_iter_xO. by replace (e - e') with (Zpos d) by lia.
Qed.

(** The sum of two valid finite doubles above zero is a double at or
    above the first. *)
Lemma SFadd_finite_ge mx ex my ey :
  bounded prec emax mx ex = true ->
  bounded prec emax my ey = true ->
  match SFadd prec emax (S754_finite false mx ex) (S754_finite false my ey) with
  | S754_finite false m' e' =>
      Zpos mx * 2 ^ (ex + 1074) <= Zpos m' * 2 ^ (e' + 1074)
  | S754_infinity false => True
  | _ => False
  end.
Proof.
  intros Hbx Hby.
  pose proof (bounded_binary64 _ _ Hbx) as (Hex & _).
  pose proof (bounded_binary64 _ _ Hby) as (Hey & _).
  unfold SFadd. simpl cond_Zopp.
  set (ez := Z.min ex ey).
  rewrite (shl_align_fst mx ex ez), (shl_align_fst my ey ez) by lia.
  assert (HPx : 0 < 2 ^ (ex - ez)) by (apply pow2_pos; lia).
  assert (HPy : 0 < 2 ^ (ey - ez)) by (apply pow2_pos; lia).
  destruct (Zpos mx * 2 ^ (ex - ez) + Zpos my * 2 ^ (ey - ez))
    as [|M|M] eqn:HM; [lia| |lia].
  unfold binary_normalize, binary_round.
  pose proof (shl_align_keeps M ez
    (fexp prec emax (Zpos (digits2_pos M) + ez))) as Hal.
  destruct (shl_align M ez _) as [mz e0].
  destruct Hal as [He0 Hval]; [lia|rewrite fexp_binary64; lia|].
  apply binary_round_aux_ge; [done|done|done|].
  rewrite Hval, <- HM.
  replace (ex + 1074) with ((ex - ez) + (ez + 1074)) by lia.
  rewrite (pow2_add (ex - ez)) by lia.
  assert (HE : 0 < 2 ^ (ez + 1074)) by (apply pow2_pos; lia).
  rewrite Z.mul_assoc. apply Z.mul_le_mono_nonneg_r; lia.
Qed.

(** The doubles at or above zero: both zeros, the finite doubles of
    positive sign and positive infinity. *)
Lemma SFleb_zero_shape x :
  SFleb (S754_zero false) x = true ->
  match x with
  | S754_zero _ | S754_finite false _ _ | S754_infinity false => True
  | _ => False
  end.
Proof. by destruct x as [[]|[]| |[] m e]. Qed.

Lemma SFcompare_refl x : x <> S754_nan -> SFcompare x x = Some Eq.
Proof.
  destruct x as [[]|[]| |[] m e]; try done; intros _; simpl;
    by rewrite Z.compare_refl, Pos.compare_cont_refl.
Qed.

Lemma SFleb_not_nan_l x y : SFleb x y = true -> x <> S754_nan.
Proof. by destruct x. Qed.

Lemma SFcompare_antisym x y :
  SFcompare y x = CompOpp <$> SFcompare x y.
Proof.
  destruct x as [[]|[]| |[] m1 e1], y as [[]|[]| |[] m2 e2]; try done; simpl;
    rewrite (Z.compare_antisym e1 e2);
    destruct (e1 ?= e2); simpl; try done;
    change (Pos.compare_cont Eq m2 m1) with (Pos.compare m2 m1);
    change (Pos.compare_cont Eq m1 m2) with (Pos.compare m1 m2);
    rewrite (Pos.compare_antisym m1 m2); by destruct (m1 ?= m2)%positive.
Qed.

Lemma SFleb_trans_nonneg x y z :
  SFleb (S754_zero false) x = true ->
  SFleb x y = true -> SFleb y z = true -> SFleb x z = true.
Proof.
  intros Hx%SFleb_zero_shape.
  destruct x as [sx|[]| |[] m1 e1]; try done;
    destruct y as [sy|[]| |[] m2 e2]; try done;
    destruct z as [sz|[]| |[] m3 e3]; try done.
  unfold SFleb, SFcompare.
  change (Pos.compare_cont Eq m1 m2) with (Pos.compare m1 m2).
  change (Pos.compare_cont Eq m2 m3) with (Pos.compare m2 m3).
  change (Pos.compare_cont Eq m1 m3) with (Pos.compare m1 m3).
  destruct (Z.compare_spec e1 e2), (Z.compare_spec e2 e3),
    (Z.compare_spec e1 e3); try done; try lia;
    destruct (Pos.compare_spec m1 m2), (Pos.compare_spec m2 m3),
      (Pos.compare_spec m1 m3); try done; lia.
Qed.

(** Adding a double at or above zero to another one gives a double at or
    above that one. *)
Lemma SFadd_nonneg_ge x d :
  valid_binary x = true ->
  valid_binary d = true ->
  valid_binary (SFadd prec emax x d) = true ->
  SFleb (S754_zero false) x = true ->
  SFleb (S754_zero false) d = true ->
  SFleb x (SFadd prec emax x d) = true.
Proof.
  intros Vx Vd Vs Hx%SFleb_zero_shape Hd%SFleb_zero_shape.
  destruct x as [sx|[]| |[] mx ex]; try done;
    destruct d as [sd|[]| |[] md ed]; try done.
  - by destruct sx, sd.
  - simpl. unfold SFleb. simpl.
    by rewrite Z.compare_refl, Pos.compare_cont_refl.
  - pose proof (SFadd_finite_ge mx ex md ed Vx Vd) as Hge.
    destruct (SFadd prec emax _ _) as [s|[]| |[] m' e']; try done.
    by apply leb_of_values.
Qed.

End Binary64.

Section Float64Laws.

Lemma Prim2SF_zero : Prim2SF 0 = S754_zero false.
Proof. reflexivity. Qed.

Lemma float_leb_refl a : PrimFloat.leb a a = true -> PrimFloat.is_nan a = false.
Proof.
  unfold PrimFloat.is_nan. rewrite leb_spec, FloatAxioms.eqb_spec.
  intros H%SFleb_not_nan_l. unfold SFeqb. by rewrite SFcompare_refl.
Qed.

Lemma float_nonneg_leb_refl a :
  PrimFloat.leb 0 a = true -> PrimFloat.leb a a = true.
Proof.
  rewrite !leb_spec, Prim2SF_zero. intros H%SFleb_zero_shape.
  unfold SFleb. rewrite SFcompare_refl; [done|]. by destruct (Prim2SF a).
Qed.

Lemma float_leb_trans a b c :
  PrimFloat.leb 0 a = true ->
  PrimFloat.leb a b = true -> PrimFloat.leb b c = true ->
  PrimFloat.leb a c = true.
Proof. rewrite !leb_spec, Prim2SF_zero. apply SFleb_trans_nonneg. Qed.

Lemma float_max_ge_l a b :
  PrimFloat.leb 0 a = true -> PrimFloat.leb b b = true ->
  PrimFloat.leb a (Float64.max a b) = true.
Proof.
  intros Ha Hb. pose proof (float_nonneg_leb_refl a Ha) as Haa.
  unfold Float64.max. rewrite (float_leb_refl a Haa), (float_leb_refl b Hb). simpl.
  destruct (PrimFloat.ltb a b) eqn:Hab.
  { rewrite ltb_spec in Hab. rewrite leb_spec. unfold SFltb in Hab.
    unfold SFleb. by destruct (SFcompare _ _) as [[]|]. }
  destruct (PrimFloat.ltb b a) eqn:Hba; [done|].
  destruct (PrimFloat.get_sign a); [|done].
  rewrite ltb_spec in Hab, Hba. rewrite leb_spec in Haa, Hb |- *.
  unfold SFltb in Hab, Hba. unfold SFleb.
  rewrite (SFcompare_antisym (Prim2SF a) (Prim2SF b)) in Hba.
  apply SFleb_not_nan_l in Haa, Hb.
  destruct (Prim2SF a) as [[]|[]| |[] m1 e1], (Prim2SF b) as [[]|[]| |[] m2 e2];
    try done; simpl in *;
    destruct (e1 ?= e2)%Z; try done;
    by destruct (Pos.compare_cont Eq m1 m2).
Qed.

Lemma float_add_nonneg a d :
  PrimFloat.leb 0 a = true -> PrimFloat.leb 0 d = true ->
  PrimFloat.leb a (a + d) = true.
Proof.
  rewrite !leb_spec, Prim2SF_zero. intros Ha Hd.
  pose proof (Prim2SF_valid (a + d)) as Hv. rewrite add_spec in *.
  apply SFadd_nonneg_ge; try done; apply Prim2SF_valid.
Qed.

End Float64Laws.

Lemma Float64_laws : JSNumberLaws float.
Proof.
  split; simpl.
  - reflexivity.
  - apply float_nonneg_leb_refl.
  - apply float_leb_trans.
  - apply float_max_ge_l.
  - apply float_add_nonneg.
Qed.

(** ** Exact arithmetic satisfies the order laws *)

Lemma Exact_laws : JSNumberLaws Q.
Proof.
  split; simpl; unfold Exact.max.
  - reflexivity.
  - intros a _. apply Qle_bool_iff, Qle_refl.
  - intros a b c _. rewrite !Qle_bool_iff. apply Qle_trans.
  - intros a b _ _. destruct (Qle_bool a b) eqn:E; [done|].
    apply Qle_bool_iff, Qle_refl.
  - intros a d _. rewrite !Qle_bool_iff. intros Hd.
    rewrite <- (Qplus_0_r a) at 1.
    apply Qplus_le_compat; [apply Qle_refl|done].
Qed.

Lemma ExactRun_durations_nonneg : durations_nonneg (utils := ExactRun.utils).
Proof.
  intros bytes rate channels b. simpl.
  repeat case_bool_decide; intros [= <-]; reflexivity.
Qed.

Lemma FloatRun_durations_nonneg : durations_nonneg (utils := FloatRun.utils).
Proof.
  intros bytes rate channels b. simpl.
  repeat case_bool_decide; intros [= <-]; reflexivity.
Qed.

(** On doubles: two chunks, with the output clock moved to 2 between them.
    The cursor goes 0, 0.5, then [max(0.5, 2) = 2], then 2.3. *)
Lemma C1_cursor_and_schedule_within_session_witness :
  let events := [RemoteMessage 0 (Fixture.chunk "half"); DecodeSettled 0;
                 Tick 1 2%float;
                 RemoteMessage 0 (Fixture.chunk "third"); DecodeSettled 1] in
  num_leb (cursor FloatRun.active)
          (cursor (run Fixture.host events FloatRun.active)) = true /\
  num_leb (cursor (run Fixture.host [RemoteMessage 0 (Fixture.chunk "half");
                                     DecodeSettled 0] FloatRun.active))
          (cursor (run Fixture.host events FloatRun.active)) = true.
Proof.
  intros events.
  pose proof (C1_cursor_and_schedule_within_session (laws := Float64_laws)
                Fixture.host events FloatRun.active) as H.
  destruct H as (H1 & H2 & _).
  - repeat constructor; discriminate.
  - repeat constructor.
  - exact FloatRun_durations_nonneg.
  - intros k pd b Hk. vm_compute in Hk. destruct k; discriminate.
  - repeat constructor.
  - reflexivity.
  - split; [exact H1|].
    exact (H2 [RemoteMessage 0 (Fixture.chunk "half"); DecodeSettled 0]
              [Tick 1 2%float;
               RemoteMessage 0 (Fixture.chunk "third"); DecodeSettled 1]
              eq_refl).
Defined.

(** The same run on exact rationals. *)
Lemma schedule_chained_on_rationals :
  let events := [RemoteMessage 0 (Fixture.chunk "half"); DecodeSettled 0;
                 Tick 1 (2 # 1)%Q;
                 RemoteMessage 0 (Fixture.chunk "third"); DecodeSettled 1] in
  chained (cursor ExactRun.active)
    (sources (browser (run Fixture.host events ExactRun.active)))
    (cursor (run Fixture.host events ExactRun.active)) = true.
Proof. vm_compute. reflexivity. Qed.

(** C1, refuted as stated: the output clock reads 1 when the chunk
    arrives and 2 when its decode settles.  At the moment the buffer is
    scheduled the cursor is 1 and the clock 2, so [max(cursor, now)] is 2;
    the buffer is started at 1. *)
Lemma C1_start_is_not_max_at_scheduling_time :
  let w := run Fixture.host
             [Tick 1 1%float; RemoteMessage 0 (Fixture.chunk "half");
              Tick 1 2%float] FloatRun.active in
  let w' := step Fixture.host (DecodeSettled 0) w in
  outputContextRef (refs w) = Some 1%nat /\
  currentTime <$> contexts (browser w) !! 1%nat = Some 2%float /\
  cursor w = 1%float /\
  Math_max (cursor w) 2%float = 2%float /\
  bs_when <$> sources (browser w') = [1%float] /\
  1%float <> 2%float.
Proof.
  vm_compute. split_and!; try reflexivity.
  intros H. apply (f_equal (fun x => PrimFloat.eqb x 1%float)) in H.
  vm_compute in H. discriminate.
Qed.

(** C3, refuted as stated, on both sides.  A chunk arrives and is being
    decoded when the user stops the session.  Stop returns with nothing
    scheduled; then the decode settles and the suspended handler schedules
    the buffer, moves the cursor and records the source.  And the capture
    callback, run once more after the stop has returned, sends its frame:
    nothing in it looks at the lifecycle. *)
Lemma C3_suspended_handler_schedules_after_stop :
  let before := run Fixture.host [RemoteMessage 0 (Fixture.chunk "half")]
                  FloatRun.active in
  let stopped := step Fixture.host Click before in
  let after := step Fixture.host (DecodeSettled 0) stopped in
  isActive (ui before) = true /\
  isActive (ui stopped) = false /\
  outputContextRef (refs stopped) = None /\
  context_running 1 stopped = false /\
  sources (browser stopped) = [] /\
  sources (browser after) =
    [{| bs_context := 1; bs_buffer := {| duration := 0.5%float |};
        bs_when := 0%float |}] /\
  cursor stopped = 0%float /\ cursor after = 0.5%float /\
  sourcesRef (refs stopped) = ∅ /\ sourcesRef (refs after) = {[ 0%nat ]} /\
  processor_connected 0 stopped = false /\
  s_sent <$> sessions (browser stopped) !! 0%nat = Some [] /\
  s_sent <$> sessions (browser (onaudioprocess 0 [0.25%float] stopped)) !! 0%nat
  = Some [[0.25%float]].
Proof. vm_compute. split_and!; reflexivity. Qed.

(** The capture side has the same gap when the session promise is still
    pending: the send registered by a capture callback runs when the
    promise is fulfilled, after the stop. *)
Lemma send_waiting_on_promise_survives_stop :
  let before := run Fixture.host
                  [Click; MediaSettled 0 Granted; RemoteOpen 0;
                   AudioProcess 0 [0.25%float]] mount in
  let stopped := step Fixture.host Click before in
  let after := step Fixture.host (ConnectSettled 0 true) stopped in
  s_sent <$> sessions (browser stopped) !! 0%nat = Some [] /\
  s_sent <$> sessions (browser after) !! 0%nat = Some [[0.25%float]].
Proof. vm_compute. split; reflexivity. Qed.

Lemma C3_stop_guards_messages_not_capture_witness :
  isActive (ui FloatRun.active) = true /\
  run Fixture.host
    (uncurry RemoteMessage <$>
       [(0%nat, Fixture.chunk "half"); (0%nat, Fixture.chunk "third")])
    (step Fixture.host Click FloatRun.active)
  = step Fixture.host Click FloatRun.active.
Proof.
  split; [reflexivity|].
  pose proof (C3_stop_guards_messages_not_capture Fixture.host
                FloatRun.active (fun _ => eq_refl) eq_refl)
    as (_ & _ & _ & _ & _ & _ & H & _).
  exact (H [(0%nat, Fixture.chunk "half"); (0%nat, Fixture.chunk "third")]).
Defined.

(** C5, refuted as stated: a chunk on which [decodeAudio] throws, and one
    on which [decodeAudioData] rejects, are dropped, but nothing is
    logged: the console is as empty as before. *)
Lemma C5_failed_chunk_logs_nothing :
  let w1 := run Fixture.host [RemoteMessage 0 (Fixture.chunk "corrupt")]
              FloatRun.active in
  let w2 := run Fixture.host
              [RemoteMessage 0 (Fixture.chunk "garbled"); DecodeSettled 0]
              FloatRun.active in
  decoded (Fixture.chunk "corrupt") = None /\
  decoded (Fixture.chunk "garbled") = None /\
  console (browser FloatRun.active) = [] /\
  console (browser w1) = [] /\ sources (browser w1) = [] /\
  console (browser w2) = [] /\ sources (browser w2) = [].
Proof. vm_compute. split_and!; reflexivity. Qed.

(** Arrival order is kept because decodes settle oldest first: were the
    second decode to settle before the first, the second chunk would be
    scheduled first. *)
Lemma settling_out_of_order_reorders :
  let w := run Fixture.host
             [RemoteMessage 0 (Fixture.chunk "half");
              RemoteMessage 0 (Fixture.chunk "third");
              DecodeSettled 1; DecodeSettled 0] FloatRun.active in
  bs_buffer <$> sources (browser w)
  = [{| duration := 0.3%float |}; {| duration := 0.5%float |}].
Proof. vm_compute. reflexivity. Qed.

Lemma C5_failed_chunk_is_dropped_silently_witness :
  let turns := [Arrives (Fixture.chunk "half");
                Arrives (Fixture.chunk "corrupt"); DecodeSettles;
                Arrives (Fixture.chunk "garbled");
                Arrives (Fixture.chunk "third");
                DecodeSettles; DecodeSettles] in
  let w' := foldl (fun w t => turn Fixture.host 0 t w)
              FloatRun.active turns in
  omap decoded (arrivals turns)
  = [{| duration := 0.5%float |}; {| duration := 0.3%float |}] /\
  bs_buffer <$> sources (browser w')
  = [{| duration := 0.5%float |}; {| duration := 0.3%float |}] /\
  undisturbed FloatRun.active w' /\
  exists new,
    sources (browser w') = sources (browser FloatRun.active) ++ new /\
    bs_buffer <$> new `prefix_of` omap decoded (arrivals turns) /\
    (none_in_flight w' -> bs_buffer <$> new = omap decoded (arrivals turns)).
Proof.
  intros turns w'.
  split; [vm_compute; reflexivity|]. split; [vm_compute; reflexivity|].
  eassert (Hs : sessions (browser FloatRun.active) !! 0%nat = Some _)
    by (vm_compute; reflexivity).
  eassert (Hc : contexts (browser FloatRun.active) !! 1%nat = Some _)
    by (vm_compute; reflexivity).
  assert (Ho : outputContextRef (refs FloatRun.active) = Some 1%nat)
    by (vm_compute; reflexivity).
  assert (Hn : none_in_flight FloatRun.active)
    by (vm_compute; constructor).
  exact (C5_failed_chunk_is_dropped_silently Fixture.host 0 turns
           FloatRun.active _ 1%nat _ Hs eq_refl Ho Hc Hn).
Defined.

Lemma C4_two_chunks_back_to_back_witness :
  let k := length (decodesAwaiting (browser FloatRun.active)) in
  let w' := run Fixture.host
              [RemoteMessage 0 (Fixture.chunk "half"); DecodeSettled k;
               RemoteMessage 0 (Fixture.chunk "third"); DecodeSettled (S k)]
              FloatRun.active in
  sources (browser w') = sources (browser FloatRun.active) ++
    [{| bs_context := 1; bs_buffer := {| duration := 0.5%float |};
        bs_when := 0%float |};
     {| bs_context := 1; bs_buffer := {| duration := 0.3%float |};
        bs_when := 0.5%float |}] /\
  nextStartTimeRef (refs w') = 0.8%float.
Proof.
  eassert (Hs : sessions (browser FloatRun.active) !! 0%nat = Some _)
    by (vm_compute; reflexivity).
  eassert (Hc : contexts (browser FloatRun.active) !! 1%nat = Some _)
    by (vm_compute; reflexivity).
  assert (Ho : outputContextRef (refs FloatRun.active) = Some 1%nat)
    by (vm_compute; reflexivity).
  assert (Hcur : nextStartTimeRef (refs FloatRun.active) = 0%float)
    by (vm_compute; reflexivity).
  assert (Hd1 : decoded (Fixture.chunk "half")
                = Some {| duration := 0.5%float |})
    by (vm_compute; reflexivity).
  assert (Hd2 : decoded (Fixture.chunk "third")
                = Some {| duration := 0.3%float |})
    by (vm_compute; reflexivity).
  pose proof (C4_two_chunks_back_to_back Fixture.host FloatRun.active
           0 _ 1 _ (Fixture.chunk "half") (Fixture.chunk "third") _ _
           Hs eq_refl Ho Hc eq_refl Hcur Hd1 eq_refl Hd2 eq_refl)
    as (H1 & H2 & _).
  exact (conj H1 H2).
Defined.

Lemma C8_three_frames_in_capture_order_witness :
  let f := replicate 4096 0.25%float in
  s_sent <$> sessions (browser (run Fixture.host
    [Click; MediaSettled 0 Granted; RemoteOpen 0; ConnectSettled 0 true;
     AudioProcess 0 f; AudioProcess 0 f; AudioProcess 0 f] mount)) !! 0%nat
  = Some [f; f; f].
Proof.
  intros f.
  exact (proj1 (proj2 (C8_three_frames_in_capture_order (T := float)
    Fixture.host length f f f eq_refl (fun _ => eq_refl)
    (length_replicate _ _) (length_replicate _ _) (length_replicate _ _)))).
Defined.

(** * Further properties of [LiveTranslator.tsx] *)

Section Reachable.
Context {T : Type} {num : JSNumber T} {utils : AudioUtils T}.
Implicit Types (w : World) (h : Host).

(** A property that holds of the mounted component and that every turn
    keeps holds after every run. *)
Lemma run_invariant h (I : World -> Prop) :
  I mount ->
  (forall e w, I w -> I (step h e w)) ->
  forall events, I (run h events mount).
Proof.
  intros Hm Hstep events. generalize mount Hm.
  induction events as [|e events IH]; intros w Hw; [done|].
  apply IH, Hstep, Hw.
Qed.

(** The [isActive] a callback closes over is the one of the render in
    which the session was started, and a session is only started from a
    render in which [isActive] is false. *)
Lemma closures_hold_false h e w :
  Forall (fun s => s_isActive s = false) (sessions (browser w)) /\
  Forall (fun ps => ps_isActive ps = false) (startsAwaiting (browser w)) ->
  Forall (fun s => s_isActive s = false) (sessions (browser (step h e w))) /\
  Forall (fun ps => ps_isActive ps = false)
    (startsAwaiting (browser (step h e w))).
Proof.
  intros [Hs Hp].
  destruct e as [| |k r|sid|sid ok|p f|sid m|k|src|sid|sid err|c t]; simpl.
  - unfold toggleSession, toggleSession_catch.
    destruct (isActive (ui w)) eqn:Ha.
    + destruct (cleanup_frame h (setStatus "Disconnected" (setIsActive false w)))
        as (_ & _ & _ & -> & _ & -> & _). done.
    + destruct (truthy (API_KEY h)); simpl.
      * split; [done|]. apply Forall_app. split; [done|].
        by repeat constructor.
      * match goal with |- context [cleanup h ?x] =>
          destruct (cleanup_frame h x) as (_ & _ & _ & -> & _ & -> & _) end.
        done.
  - destruct (cleanup_frame h w) as (_ & _ & _ & -> & _ & -> & _). done.
  - destruct (startsAwaiting (browser w) !! k) as [ps|] eqn:Hk; [|done].
    destruct (ps_settled ps); [done|].
    assert (Hps : ps_isActive ps = false)
      by (eapply (Forall_lookup_1 _ _ _ _ Hp); exact Hk).
    assert (Hp' : Forall (fun ps => ps_isActive ps = false)
                    (alter settle_start k (startsAwaiting (browser w)))).
    { apply Forall_alter; [done|]. by intros ? _ ?. }
    destruct r as [|msg]; simpl.
    + split; [|done]. apply Forall_app. split; [done|].
      by repeat constructor.
    + unfold toggleSession_catch.
      match goal with |- context [cleanup h ?x] =>
        destruct (cleanup_frame h x) as (_ & _ & _ & -> & _ & -> & _) end.
      done.
  - by destruct (sessions (browser w) !! sid).
  - unfold settle_sessionPromise.
    destruct (sessions (browser w) !! sid) as [s|]; [|done].
    destruct (s_promise s); simpl; try done.
    split; [|done]. apply Forall_alter; [done|]. by intros ? _ ?.
  - destruct (processors (browser w) !! p) as [sp|]; [|done].
    destruct (_ && _); [|done].
    unfold onaudioprocess, then_send, sendRealtimeInput.
    destruct (sessions (browser w) !! sp_session sp) as [s|]; [|done].
    destruct (s_promise s); simpl; try done;
      (split; [|done]); apply Forall_alter; try done; by intros ? _ ?.
  - destruct (sessions (browser w) !! sid); [|done].
    unfold onmessage. repeat case_match; done.
  - destruct (decodesAwaiting (browser w) !! k) as [pd|]; [|done].
    destruct (pd_settled pd); [done|].
    unfold onmessage_resume. repeat case_match; done.
  - by destruct (sources (browser w) !! src).
  - destruct (sessions (browser w) !! sid) as [s|]; [|done].
    unfold onclose. by destruct (s_isActive s).
  - by destruct (sessions (browser w) !! sid).
  - done.
Qed.

(** X1: [onclose] never acts.  Its guard reads the [isActive] of the
    render in which the session was started, which is false; so in every
    state the component can reach, the close of any connection leaves the
    lifecycle flag, the status and everything else as they were. *)
Theorem onclose_never_acts h events sid :
  step h (RemoteClose sid) (run h events mount) = run h events mount.
Proof.
  assert (Hinv : Forall (fun s => s_isActive s = false)
                   (sessions (browser (run h events mount))) /\
                 Forall (fun ps => ps_isActive ps = false)
                   (startsAwaiting (browser (run h events mount)))).
  { apply (run_invariant h (fun w =>
      Forall (fun s => s_isActive s = false) (sessions (browser w)) /\
      Forall (fun ps => ps_isActive ps = false)
        (startsAwaiting (browser w)))).
    - split; constructor.
    - intros e w. apply closures_hold_false. }
  destruct Hinv as [Hs _]. simpl.
  destruct (sessions (browser (run h events mount)) !! sid) as [s|] eqn:Hsid;
    [|done].
  unfold onclose. by rewrite (Forall_lookup_1 _ _ _ _ Hs Hsid).
Qed.

End Reachable.

Section StartPaths.
Context {T : Type} {num : JSNumber T} {utils : AudioUtils T}.
Implicit Types (w : World) (h : Host).

(** X2: a start without an API key fails before anything is acquired: no
    audio context is created, [getUserMedia] is not called and no
    connection is requested.  The error is logged and shown, the
    lifecycle flag is back to false, and the status is left reading
    [Connecting...]. *)
Theorem start_without_api_key h w :
  isActive (ui w) = false ->
  truthy (API_KEY h) = false ->
  let w' := step h Click w in
  isActive (ui w') = false /\
  error (ui w') = Some "API Key missing" /\
  status (ui w') = "Connecting..." /\
  console (browser w') = console (browser w) ++ ["API Key missing"] /\
  length (contexts (browser w')) = length (contexts (browser w)) /\
  startsAwaiting (browser w') = startsAwaiting (browser w) /\
  sessions (browser w') = sessions (browser w).
Proof.
  intros Ha Hk. simpl. rewrite Ha. unfold toggleSession. rewrite Hk. simpl.
  unfold toggleSession_catch.
  match goal with |- context [cleanup h ?x] =>
    destruct (cleanup_frame h x)
      as (-> & _ & _ & -> & _ & -> & _ & -> & -> & _) end.
  done.
Qed.

(** The world right after a start was begun on an idle component. *)
Lemma start_begun h w :
  isActive (ui w) = false ->
  truthy (API_KEY h) = true ->
  let n := length (contexts (browser w)) in
  let w1 := step h Click w in
  isActive (ui w1) = true /\
  inputContextRef (refs w1) = Some n /\
  outputContextRef (refs w1) = Some (S n) /\
  startsAwaiting (browser w1) = startsAwaiting (browser w) ++
    [{| ps_isActive := false; ps_inputCtx := n; ps_outputCtx := S n;
        ps_settled := false |}] /\
  sessions (browser w1) = sessions (browser w) /\
  streams (browser w1) = streams (browser w) /\
  console (browser w1) = console (browser w) /\
  length (contexts (browser w1)) = S (S n).
Proof.
  intros Ha Hk. simpl. rewrite Ha. unfold toggleSession. rewrite Hk. simpl.
  rewrite !length_app. simpl. split_and!; try done; try lia.
  - f_equal. lia.
  - repeat f_equal. lia.
Qed.

(** [cleanup] leaves the contexts its handles do not name as they are,
    whether or not a release call throws. *)
Lemma cleanup_other_contexts h w c :
  inputContextRef (refs w) <> Some c ->
  outputContextRef (refs w) <> Some c ->
  contexts (browser (world_of (cleanup h w))) !! c = contexts (browser w) !! c.
Proof.
  destruct w as [u [ic oc cur srcs sp st pr] b].
  unfold cleanup, disconnect, stop_tracks, close. simpl.
  intros Hi Ho.
  destruct pr as [p|], st as [s|], ic as [ci|], oc as [co|]; simpl;
    repeat (destruct (throws h _); simpl); try done;
    rewrite ?list_lookup_alter_ne by congruence; done.
Qed.

(** X3: when [getUserMedia] is refused, the [catch] block of the start that
    was waiting runs, in whatever state the component is by then.  The
    error message (or the default text when it is empty) is logged and
    shown and the lifecycle flag is cleared.  [cleanup] then releases what
    the handles name at that moment and nulls them: the processor, the
    stream and the two contexts held, whichever start created them.  No
    stream is stored and no connection is requested.  A context the
    handles do not name is left as it is: so the contexts of the refused
    start are closed if the handles still name them, and stay as they
    were if a later start has put its own in their place. *)
Theorem refused_microphone_releases_what_is_held h w k ps message :
  startsAwaiting (browser w) !! k = Some ps ->
  ps_settled ps = false ->
  (forall c, throws h c = false) ->
  let w' := step h (MediaSettled k (Refused message)) w in
  isActive (ui w') = false /\
  error (ui w') = Some (or_default message "Failed to start live session") /\
  console (browser w') = console (browser w) ++ [message] /\
  all_null (refs w') /\
  (forall p, scriptProcessorRef (refs w) = Some p ->
             processor_connected p w' = false) /\
  (forall s, streamRef (refs w) = Some s -> stream_live s w' = false) /\
  (forall c, inputContextRef (refs w) = Some c ->
             context_running c w' = false) /\
  (forall c, outputContextRef (refs w) = Some c ->
             context_running c w' = false) /\
  (forall c, inputContextRef (refs w) <> Some c ->
             outputContextRef (refs w) <> Some c ->
             contexts (browser w') !! c = contexts (browser w) !! c) /\
  (inputContextRef (refs w) = Some (ps_inputCtx ps) ->
   outputContextRef (refs w) = Some (ps_outputCtx ps) ->
   context_running (ps_inputCtx ps) w' = false /\
   context_running (ps_outputCtx ps) w' = false) /\
  sessions (browser w') = sessions (browser w) /\
  length (streams (browser w')) = length (streams (browser w)) /\
  ps_settled <$> startsAwaiting (browser w') !! k = Some true.
Proof.
  intros Hk Hps Hno. cbn [step]. rewrite Hk, Hps.
  unfold toggleSession_resume, toggleSession_catch.
  match goal with |- context [cleanup h ?x] => set (w2 := x) end.
  destruct (cleanup_no_throw h w2 Hno)
    as (w3 & Hw3 & Hnull & Hui & Hp & Hs & Hin & Hout).
  pose proof (cleanup_frame h w2) as Hframe.
  pose proof (cleanup_other_contexts h w2) as Hother.
  rewrite Hw3 in *.
  destruct Hframe as (_ & _ & _ & Hss & _ & Hsa & _ & Hco & _ & Hst & _).
  cbn [world_of] in *.
  split_and!.
  - by rewrite Hui.
  - by rewrite Hui.
  - by rewrite Hco.
  - done.
  - exact Hp.
  - exact Hs.
  - exact Hin.
  - exact Hout.
  - exact Hother.
  - intros Hi Ho. split; [by apply Hin|by apply Hout].
  - by rewrite Hss.
  - by rewrite Hst.
  - rewrite Hsa. subst w2. simpl. rewrite list_lookup_alter_eq.
    unfold handle in *. by rewrite Hk.
Qed.

(** A start that is refused with nothing in between is undone: the two
    contexts it had created are closed. *)
Lemma refused_at_once_undoes_start h w message :
  isActive (ui w) = false ->
  truthy (API_KEY h) = true ->
  (forall c, throws h c = false) ->
  let n := length (contexts (browser w)) in
  let k := length (startsAwaiting (browser w)) in
  let w' := run h [Click; MediaSettled k (Refused message)] w in
  isActive (ui w') = false /\
  error (ui w') = Some (or_default message "Failed to start live session") /\
  console (browser w') = console (browser w) ++ [message] /\
  all_null (refs w') /\
  context_running n w' = false /\
  context_running (S n) w' = false /\
  sessions (browser w') = sessions (browser w) /\
  length (streams (browser w')) = length (streams (browser w)).
Proof.
  intros Ha Hk Hno n k w'. subst w'. unfold run. cbn [foldl].
  destruct (start_begun h w Ha Hk)
    as (Ha1 & Hi1 & Ho1 & Hp1 & Hs1 & Hm1 & Hc1 & Hn1).
  set (w1 := step h Click w) in *.
  cbn [step]. rewrite Hp1.
  rewrite list_lookup_middle by done. cbn [ps_settled].
  unfold toggleSession_resume, toggleSession_catch.
  match goal with |- context [cleanup h ?x] => set (w2 := x) end.
  destruct (cleanup_no_throw h w2 Hno)
    as (w3 & Hw3 & Hnull & Hui & _ & _ & Hin & Hout).
  pose proof (cleanup_frame h w2) as Hframe. rewrite Hw3 in *.
  destruct Hframe as (_ & _ & _ & Hss & _ & _ & _ & Hco & _ & Hst & _).
  cbn [world_of] in *.
  split_and!.
  - by rewrite Hui.
  - by rewrite Hui.
  - rewrite Hco. subst w2. simpl. by rewrite Hc1.
  - done.
  - apply Hin. subst w2. simpl. exact Hi1.
  - apply Hout. subst w2. simpl. exact Ho1.
  - rewrite Hss. subst w2. simpl. exact Hs1.
  - rewrite Hst. subst w2. simpl. by rewrite Hm1.
Qed.

(** X4: a stop issued while [getUserMedia] is pending does not cancel the
    start.  The stop closes both contexts and nulls the handles; when the
    microphone is then granted, the suspended [toggleSession] goes on: it
    stores the stream and requests a connection.  The component ends idle
    (lifecycle flag false, contexts closed) with a live microphone track
    held in [streamRef] and a session promise in [sessionPromiseRef]. *)
Theorem stop_while_connecting_does_not_cancel h w :
  isActive (ui w) = false ->
  truthy (API_KEY h) = true ->
  (forall c, throws h c = false) ->
  let n := length (contexts (browser w)) in
  let k := length (startsAwaiting (browser w)) in
  let w' := run h [Click; Click; MediaSettled k Granted] w in
  isActive (ui w') = false /\
  inputContextRef (refs w') = None /\
  outputContextRef (refs w') = None /\
  context_running n w' = false /\
  context_running (S n) w' = false /\
  streamRef (refs w') = Some (length (streams (browser w))) /\
  stream_live (length (streams (browser w))) w' = true /\
  sessionPromiseRef (refs w') = Some (length (sessions (browser w))) /\
  length (sessions (browser w')) = S (length (sessions (browser w))).
Proof.
  intros Ha Hk Hno n k w'. subst w'. unfold run. cbn [foldl].
  destruct (start_begun h w Ha Hk)
    as (Ha1 & Hi1 & Ho1 & Hp1 & Hs1 & Hm1 & Hc1 & Hn1).
  set (w1 := step h Click w) in *.
  assert (Hstop : exists w2, step h Click w1 = w2 /\
    isActive (ui w2) = false /\ all_null (refs w2) /\
    context_running n w2 = false /\ context_running (S n) w2 = false /\
    startsAwaiting (browser w2) = startsAwaiting (browser w1) /\
    sessions (browser w2) = sessions (browser w1) /\
    length (streams (browser w2)) = length (streams (browser w1))).
  { eexists. split; [reflexivity|]. cbn [step]. rewrite Ha1.
    unfold toggleSession.
    match goal with |- context [cleanup h ?x] => set (w1' := x) end.
    destruct (cleanup_no_throw h w1' Hno)
      as (w2 & Hw2 & Hnull & Hui & _ & _ & Hin & Hout).
    pose proof (cleanup_frame h w1') as Hframe. rewrite Hw2 in *.
    destruct Hframe as (_ & _ & _ & Hss & _ & Hsa & _ & _ & _ & Hst & _).
    cbn [world_of] in *. split_and!; try done.
    - by rewrite Hui.
    - apply Hin. subst w1'. simpl. exact Hi1.
    - apply Hout. subst w1'. simpl. exact Ho1. }
  destruct Hstop as (w2 & -> & Ha2 & Hnull & Hr1 & Hr2 & Hsa & Hss & Hst).
  destruct Hnull as (_ & _ & Hin & Hout & _).
  cbn [step]. rewrite Hsa, Hp1.
  rewrite list_lookup_middle by done. cbn [ps_settled].
  unfold toggleSession_resume. cbn [world_of].
  unfold context_running, stream_live in *. simpl.
  rewrite Hst, Hm1, Hss, Hs1.
  rewrite list_lookup_middle by (by rewrite Hst, Hm1).
  rewrite length_app. simpl.
  split_and!; try done. lia.
Qed.

End StartPaths.

Section Capture.
Context {T : Type} {num : JSNumber T} {utils : AudioUtils T}.
Implicit Types (w : World) (h : Host).

(** Capture callbacks of a connected processor on a running context: what
    they do to the session they close over depends on its promise only,
    and they touch nothing else. *)
Lemma capture_run h p sp frames :
  forall w s,
  processors (browser w) !! p = Some sp ->
  sp_connected sp = true ->
  context_running (sp_context sp) w = true ->
  sessions (browser w) !! sp_session sp = Some s ->
  let w' := run h (AudioProcess p <$> frames) w in
  let blobs := createPcmBlob <$> frames in
  processors (browser w') = processors (browser w) /\
  contexts (browser w') = contexts (browser w) /\
  sources (browser w') = sources (browser w) /\
  refs w' = refs w /\ ui w' = ui w /\
  exists s',
    sessions (browser w') !! sp_session sp = Some s' /\
    s_promise s' = s_promise s /\
    match s_promise s with
    | Fulfilled => s_sent s' = s_sent s ++ blobs /\ s_thens s' = s_thens s
    | Pending => s_sent s' = s_sent s /\ s_thens s' = s_thens s ++ blobs
    | Rejected => s_sent s' = s_sent s /\ s_thens s' = s_thens s
    end.
Proof.
  induction frames as [|f frames IH]; intros w s Hp Hconn Hrun Hs.
  - simpl. split_and!; try done. exists s. split_and!; try done.
    destruct (s_promise s); by rewrite ?app_nil_r.
  - cbn [fmap list_fmap]. rewrite run_cons.
    assert (Hstep : step h (AudioProcess p f) w
                    = then_send (sp_session sp) (createPcmBlob f) w).
    { simpl. by rewrite Hp, Hconn, Hrun. }
    rewrite Hstep. unfold then_send. rewrite Hs.
    destruct (s_promise s) eqn:Hpr.
    + (* pending: the send waits *)
      match goal with |- context [run h _ ?x] => set (w1 := x) end.
      edestruct (IH w1)
        as (Hps & Hcs & Hso & Hr & Hu & s' & Hs' & Hpr' & Hrest);
        [exact Hp|exact Hconn|exact Hrun| |].
      { subst w1. simpl. unfold handle in *.
        rewrite list_lookup_alter_eq, Hs. reflexivity. }
      simpl in Hpr', Hrest. rewrite Hpr in Hpr', Hrest.
      split_and!; try done. exists s'. split; [done|]. split; [done|].
      destruct Hrest as [H1 H2]. rewrite H1, H2, <- ?app_assoc. done.
    + (* fulfilled: the send runs *)
      unfold sendRealtimeInput.
      match goal with |- context [run h _ ?x] => set (w1 := x) end.
      edestruct (IH w1)
        as (Hps & Hcs & Hso & Hr & Hu & s' & Hs' & Hpr' & Hrest);
        [exact Hp|exact Hconn|exact Hrun| |].
      { subst w1. simpl. unfold handle in *.
        rewrite list_lookup_alter_eq, Hs. reflexivity. }
      simpl in Hpr', Hrest. rewrite Hpr in Hpr', Hrest.
      split_and!; try done. exists s'. split; [done|]. split; [done|].
      destruct Hrest as [H1 H2]. rewrite H1, H2, <- ?app_assoc. done.
    + (* rejected: the callback is never called *)
      destruct (IH w s Hp Hconn Hrun Hs)
        as (Hps & Hcs & Hso & Hr & Hu & s' & Hs' & Hpr' & Hrest).
      rewrite Hpr in Hrest.
      split_and!; try done. exists s'. split; [done|]. split; [congruence|].
      done.
Qed.

(** X5: with the session promise fulfilled, any number of captured frames
    reach the remote side in capture order, one blob per frame, each made
    from the whole frame. *)
Theorem frames_sent_in_capture_order h p sp s frames w :
  processors (browser w) !! p = Some sp ->
  sp_connected sp = true ->
  context_running (sp_context sp) w = true ->
  sessions (browser w) !! sp_session sp = Some s ->
  s_promise s = Fulfilled ->
  let w' := run h (AudioProcess p <$> frames) w in
  s_sent <$> sessions (browser w') !! sp_session sp
  = Some (s_sent s ++ (createPcmBlob <$> frames)).
Proof.
  intros Hp Hconn Hrun Hs Hpr.
  destruct (capture_run h p sp frames w s Hp Hconn Hrun Hs)
    as (_ & _ & _ & _ & _ & s' & Hs' & _ & Hrest).
  rewrite Hpr in Hrest. simpl. rewrite Hs'. simpl. by destruct Hrest as [-> _].
Qed.

(** X6: frames captured while the session promise is pending are not sent
    yet.  If the promise is then fulfilled, they are sent at that moment,
    in capture order, after what was already waiting; if it is rejected,
    they are dropped, and frames captured later are not sent either. *)
Theorem frames_wait_for_the_session_promise h p sp s frames later w :
  processors (browser w) !! p = Some sp ->
  sp_connected sp = true ->
  context_running (sp_context sp) w = true ->
  sessions (browser w) !! sp_session sp = Some s ->
  s_promise s = Pending ->
  let sid := sp_session sp in
  let captured := run h (AudioProcess p <$> frames) w in
  let fulfilled := step h (ConnectSettled sid true) captured in
  let rejected :=
    run h (AudioProcess p <$> later)
      (step h (ConnectSettled sid false) captured) in
  s_sent <$> sessions (browser captured) !! sid = Some (s_sent s) /\
  s_sent <$> sessions (browser fulfilled) !! sid
  = Some (s_sent s ++ s_thens s ++ (createPcmBlob <$> frames)) /\
  s_sent <$> sessions (browser rejected) !! sid = Some (s_sent s).
Proof.
  intros Hp Hconn Hrun Hs Hpr sid captured fulfilled rejected.
  subst fulfilled rejected captured sid.
  destruct (capture_run h p sp frames w s Hp Hconn Hrun Hs)
    as (Hps & Hcs & _ & _ & _ & s' & Hs' & Hpr' & Hrest).
  rewrite Hpr in Hrest, Hpr'. destruct Hrest as [Hsent Hthens].
  set (captured := run h (AudioProcess p <$> frames) w) in *.
  set (sid := sp_session sp) in *.
  assert (Hsettle : forall ok, step h (ConnectSettled sid ok) captured
    = upd_sessions (alter (fun s =>
        {| s_isActive := s_isActive s; s_inputCtx := s_inputCtx s;
           s_outputCtx := s_outputCtx s; s_stream := s_stream s;
           s_promise := if ok then Fulfilled else Rejected; s_thens := [];
           s_sent := if ok then s_sent s ++ s_thens s else s_sent s |})
        sid) captured).
  { intros ok. simpl. unfold settle_sessionPromise. by rewrite Hs', Hpr'. }
  unfold handle in *.
  split_and!.
  - rewrite Hs'. simpl. by rewrite Hsent.
  - rewrite Hsettle. simpl.
    rewrite list_lookup_alter_eq, Hs'. simpl.
    by rewrite Hsent, Hthens.
  - rewrite Hsettle.
    match goal with |- context [run h _ ?x] => set (w1 := x) end.
    edestruct (capture_run h p sp later w1)
      as (_ & _ & _ & _ & _ & s'' & Hs'' & _ & Hrest'').
    { subst w1. simpl. rewrite Hps. exact Hp. }
    { done. }
    { subst w1. unfold context_running in *. simpl. by rewrite Hcs. }
    { subst w1. simpl. fold sid.
      unfold handle in *. rewrite list_lookup_alter_eq, Hs'. reflexivity. }
    fold sid in Hs''. unfold handle in *.
    rewrite Hs''. simpl in *.
    destruct Hrest'' as [-> _]. by rewrite Hsent.
Qed.

End Capture.

Section Inventory.
Context {T : Type} {num : JSNumber T} {utils : AudioUtils T}.
Implicit Types (w : World) (h : Host).

(** What one turn does to [sourcesRef]: nothing, unless it is the
    ['ended'] event of a scheduled source, which removes that source, or a
    decode settling that schedules a buffer, which adds the new source. *)
Lemma step_inventory h e w :
  (sourcesRef (refs (step h e w)) = sourcesRef (refs w) /\
   sources (browser (step h e w)) = sources (browser w)) \/
  (exists src,
     e = SourceEnded src /\
     sources (browser (step h e w)) = sources (browser w) /\
     sourcesRef (refs (step h e w)) = sourcesRef (refs w) ∖ {[src]}) \/
  (exists k,
     e = DecodeSettled k /\
     length (sources (browser (step h e w)))
     = S (length (sources (browser w))) /\
     sourcesRef (refs (step h e w))
     = {[length (sources (browser w))]} ∪ sourcesRef (refs w)).
Proof.
  destruct e as [| |k r|sid|sid ok|p f|sid m|k|src|sid|sid err|c t]; simpl.
  - left. unfold toggleSession, toggleSession_catch.
    destruct (isActive (ui w)).
    + destruct (cleanup_frame h (setStatus "Disconnected" (setIsActive false w)))
        as (_ & _ & -> & _ & -> & _). auto.
    + destruct (truthy (API_KEY h)); simpl; [auto|].
      match goal with |- context [cleanup h ?x] =>
        destruct (cleanup_frame h x) as (_ & _ & -> & _ & -> & _) end. auto.
  - left. destruct (cleanup_frame h w) as (_ & _ & -> & _ & -> & _). auto.
  - left. destruct (startsAwaiting (browser w) !! k) as [ps|]; [|auto].
    destruct (ps_settled ps); [auto|].
    destruct r as [|msg]; [auto|].
    unfold toggleSession_resume, toggleSession_catch.
    match goal with |- context [cleanup h ?x] =>
      destruct (cleanup_frame h x) as (_ & _ & -> & _ & -> & _) end. auto.
  - left. destruct (sessions (browser w) !! sid); auto.
  - left. unfold settle_sessionPromise.
    destruct (sessions (browser w) !! sid) as [s|]; [|auto].
    destruct (s_promise s); auto.
  - left. destruct (processors (browser w) !! p) as [sp|]; [|auto].
    destruct (_ && _); [|auto].
    unfold onaudioprocess, then_send, sendRealtimeInput.
    destruct (sessions (browser w) !! sp_session sp) as [s|]; [|auto].
    destruct (s_promise s); auto.
  - left. destruct (sessions (browser w) !! sid); [|auto].
    unfold onmessage. repeat case_match; auto.
  - destruct (decodesAwaiting (browser w) !! k) as [pd|]; [|auto].
    destruct (pd_settled pd); [auto|].
    unfold onmessage_resume. simpl.
    destruct (pd_result pd) as [b|]; [|auto].
    destruct (sessions (browser w) !! pd_session pd) as [s|]; [|auto].
    case_bool_decide; [|auto].
    right. right. exists k. simpl. rewrite length_app. simpl.
    split_and!; [done|lia|done].
  - destruct (sources (browser w) !! src); [|auto].
    right. left. by exists src.
  - left. destruct (sessions (browser w) !! sid) as [s|]; [|auto].
    unfold onclose. destruct (s_isActive s); auto.
  - left. destruct (sessions (browser w) !! sid); auto.
  - auto.
Qed.

(** X8: the inventory of playing sources.  In every state the component
    can reach, [sourcesRef] holds only sources that were scheduled.  A
    turn adds a source to it exactly when it schedules that source, and
    removes one exactly when that source's ['ended'] event fires; no other
    turn changes it (stopping the session or unmounting does not empty
    it). *)
Theorem sources_inventory h events e :
  let w := run h events mount in
  (forall src, src ∈ sourcesRef (refs w) ->
               (src < length (sources (browser w)))%nat) /\
  ((sourcesRef (refs (step h e w)) = sourcesRef (refs w) /\
    sources (browser (step h e w)) = sources (browser w)) \/
   (exists src,
      e = SourceEnded src /\
      sources (browser (step h e w)) = sources (browser w) /\
      sourcesRef (refs (step h e w)) = sourcesRef (refs w) ∖ {[src]}) \/
   (exists k,
      e = DecodeSettled k /\
      length (sources (browser (step h e w)))
      = S (length (sources (browser w))) /\
      sourcesRef (refs (step h e w))
      = {[length (sources (browser w))]} ∪ sourcesRef (refs w))).
Proof.
  intros w. split.
  - subst w.
    apply (run_invariant h (fun w => forall src,
      src ∈ sourcesRef (refs w) -> (src < length (sources (browser w)))%nat)).
    + intros src Hsrc. simpl in Hsrc. by apply not_elem_of_empty in Hsrc.
    + intros e' w' Hw' src.
      destruct (step_inventory h e' w')
        as [[-> ->]|[(src' & _ & -> & ->)|(k & _ & -> & ->)]].
      * apply Hw'.
      * intros Hsrc. apply Hw'. by apply elem_of_difference in Hsrc as [? _].
      * intros [->%elem_of_singleton|Hsrc]%elem_of_union; [lia|].
        specialize (Hw' src Hsrc). lia.
  - destruct (step_inventory h e w)
      as [[Hsame Hsrc]|[(src & -> & Hsrc & Hrem)|(k & -> & Hl & Hadd)]].
    + by left.
    + right. left. by exists src.
    + right. right. by exists k.
Qed.

End Inventory.

Section Horizon.
Context {T : Type} {num : JSNumber T} {utils : AudioUtils T}.
Context {laws : JSNumberLaws T}.
Implicit Types (w : World) (h : Host).

(** A buffer is scheduled at the cursor, so never before zero while the
    cursor is not. *)
Lemma step_horizon h e w :
  num_leb num_zero (cursor w) = true ->
  Forall (fun src => num_leb num_zero (bs_when src) = true)
         (sources (browser w)) ->
  Forall (fun src => num_leb num_zero (bs_when src) = true)
         (sources (browser (step h e w))).
Proof.
  intros Hc Hs.
  destruct (step_playback h e w)
    as [[-> _]|(k & pd & b & _ & _ & _ & -> & _)]; [done|].
  apply Forall_app. split; [done|]. by constructor.
Qed.

Lemma run_horizon h events w :
  durations_nonneg ->
  ticks_are_numbers events ->
  pending_nonneg w -> clocks_read_numbers w ->
  num_leb num_zero (cursor w) = true ->
  Forall (fun src => num_leb num_zero (bs_when src) = true)
         (sources (browser w)) ->
  num_leb num_zero (cursor (run h events w)) = true /\
  Forall (fun src => num_leb num_zero (bs_when src) = true)
         (sources (browser (run h events w))).
Proof.
  intros Hd Hev. revert w.
  induction Hev as [|e events He _ IH]; intros w Hp Hclk Hc Hs; [done|].
  rewrite run_cons. apply IH.
  - by apply step_pending_nonneg.
  - by apply step_clocks.
  - by apply step_cursor_nonneg.
  - by apply step_horizon.
Qed.

(** X7: whatever happened since the component was mounted (sessions
    started, stopped and started again, failures, chunks arriving at any
    time), the cursor is at or after zero and no buffer was ever scheduled
    at a negative time, as long as decoded buffers have durations of at
    least zero and the audio clock never reads NaN.  This holds of IEEE
    doubles, the numbers the code runs on ([Float64_laws]), as of exact
    arithmetic. *)
Theorem nothing_scheduled_before_zero h events :
  durations_nonneg ->
  ticks_are_numbers events ->
  let w := run h events mount in
  num_leb num_zero (cursor w) = true /\
  Forall (fun src => num_leb num_zero (bs_when src) = true)
         (sources (browser w)).
Proof.
  intros Hd Hev w. subst w. apply run_horizon; [exact Hd|exact Hev|..].
  - intros k pd b Hk. by destruct k.
  - constructor.
  - apply num_zero_leb.
  - constructor.
Qed.

End Horizon.

(** ** The further properties on concrete runs *)

Lemma start_without_api_key_witness :
  let h := {| API_KEY := None; throws := fun _ => false |} in
  error (ui (step h Click FloatRun.stopped)) = Some "API Key missing" /\
  length (contexts (browser (step h Click FloatRun.stopped)))
  = length (contexts (browser FloatRun.stopped)).
Proof.
  intros h.
  pose proof (start_without_api_key (T := float) h FloatRun.stopped
                eq_refl eq_refl) as (_ & H1 & _ & _ & H2 & _).
  exact (conj H1 H2).
Defined.

(** Two starts and one refusal.  A first session is live (contexts 0 and
    1); after a transport error a second start creates contexts 2 and 3
    and waits for the microphone; after another error a third start
    creates contexts 4 and 5.  Then the microphone request of the second
    start is refused: contexts 4 and 5, of the third start, are closed,
    and contexts 2 and 3, of the refused start, keep running. *)
Lemma refused_microphone_releases_what_is_held_witness :
  let w := run (T := float) Fixture.host
             (Fixture.go_live ++
              [RemoteError 0 "transport failure"; Click;
               RemoteError 0 "transport failure"; Click]) mount in
  let w' := step Fixture.host (MediaSettled 1 (Refused "Permission denied")) w in
  startsAwaiting (browser w) !! 1%nat
  = Some {| ps_isActive := false; ps_inputCtx := 2; ps_outputCtx := 3;
            ps_settled := false |} /\
  inputContextRef (refs w) = Some 4%nat /\
  outputContextRef (refs w) = Some 5%nat /\
  error (ui w') = Some "Permission denied" /\
  all_null (refs w') /\
  context_running 4 w' = false /\
  context_running 5 w' = false /\
  contexts (browser w') !! 2%nat = contexts (browser w) !! 2%nat /\
  contexts (browser w') !! 3%nat = contexts (browser w) !! 3%nat /\
  context_running 2 w' = true /\
  context_running 3 w' = true.
Proof.
  intros w w'.
  assert (Hk : startsAwaiting (browser w) !! 1%nat
               = Some {| ps_isActive := false; ps_inputCtx := 2;
                         ps_outputCtx := 3; ps_settled := false |})
    by (vm_compute; reflexivity).
  pose proof (refused_microphone_releases_what_is_held Fixture.host w 1 _
                "Permission denied" Hk eq_refl (fun _ => eq_refl))
    as (_ & He & _ & Hnull & _ & _ & Hi & Ho & Hother & _).
  split_and!.
  - exact Hk.
  - vm_compute; reflexivity.
  - vm_compute; reflexivity.
  - exact He.
  - exact Hnull.
  - refine (Hi 4%nat _). vm_compute; reflexivity.
  - refine (Ho 5%nat _). vm_compute; reflexivity.
  - refine (Hother 2%nat _ _); vm_compute; discriminate.
  - refine (Hother 3%nat _ _); vm_compute; discriminate.
  - vm_compute; reflexivity.
  - vm_compute; reflexivity.
Defined.

Lemma stop_while_connecting_does_not_cancel_witness :
  let w' := run (T := float) Fixture.host
              [Click; Click; MediaSettled 0 Granted] mount in
  isActive (ui w') = false /\
  streamRef (refs w') = Some 0%nat /\
  stream_live 0 w' = true.
Proof.
  intros w'.
  pose proof (stop_while_connecting_does_not_cancel (T := float) Fixture.host
                mount eq_refl eq_refl (fun _ => eq_refl))
    as (H1 & _ & _ & _ & _ & H2 & H3 & _).
  exact (conj H1 (conj H2 H3)).
Defined.

Lemma frames_sent_in_capture_order_witness :
  let frames := [[0.25%float]; [0.5%float; 0.75%float]; []; [1%float]] in
  s_sent <$> sessions (browser (run Fixture.host (AudioProcess 0 <$> frames)
                                  FloatRun.active)) !! 0%nat
  = Some frames.
Proof.
  intros frames.
  eassert (Hp : processors (browser FloatRun.active) !! 0%nat = Some _)
    by (vm_compute; reflexivity).
  eassert (Hs : sessions (browser FloatRun.active) !! 0%nat = Some _)
    by (vm_compute; reflexivity).
  exact (frames_sent_in_capture_order Fixture.host 0 _ _ frames
           FloatRun.active Hp eq_refl eq_refl Hs eq_refl).
Defined.

Lemma frames_wait_for_the_session_promise_witness :
  let frames := [[0.25%float]; [0.5%float]] in
  let connecting :=
    run (T := float) Fixture.host
      [Click; MediaSettled 0 Granted; RemoteOpen 0] mount in
  let captured := run Fixture.host (AudioProcess 0 <$> frames) connecting in
  s_sent <$> sessions (browser captured) !! 0%nat = Some [] /\
  s_sent <$> sessions (browser (step Fixture.host (ConnectSettled 0 true)
                                  captured)) !! 0%nat
  = Some frames.
Proof.
  intros frames connecting captured.
  eassert (Hp : processors (browser connecting) !! 0%nat = Some _)
    by (vm_compute; reflexivity).
  eassert (Hs : sessions (browser connecting) !! 0%nat = Some _)
    by (vm_compute; reflexivity).
  pose proof (frames_wait_for_the_session_promise Fixture.host 0 _ _ frames []
                connecting Hp eq_refl eq_refl Hs eq_refl) as (H1 & H2 & _).
  exact (conj H1 H2).
Defined.

Lemma nothing_scheduled_before_zero_witness :
  let events :=
    Fixture.go_live ++
    [RemoteMessage 0 (Fixture.chunk "half"); DecodeSettled 0; Click; Click;
     MediaSettled 1 Granted; Tick 3 2%float;
     RemoteMessage 1 (Fixture.chunk "third"); DecodeSettled 1] in
  num_leb num_zero (cursor (T := float) (run Fixture.host events mount)) = true /\
  Forall (fun src => num_leb num_zero (bs_when src) = true)
         (sources (browser (run (T := float) Fixture.host events mount))).
Proof.
  intros events.
  refine (nothing_scheduled_before_zero (laws := Float64_laws)
            Fixture.host events FloatRun_durations_nonneg _).
  repeat constructor.
Defined.

(** The clock matters: were a context ever to read NaN, the next chunk
    would make the cursor NaN, which is not at or above zero. *)
Lemma nan_clock_poisons_cursor :
  let w := run Fixture.host
             [Tick 1 PrimFloat.nan; RemoteMessage 0 (Fixture.chunk "half")]
             FloatRun.active in
  is_number (T := float) PrimFloat.nan = (false = true) /\
  num_leb num_zero (cursor w) = false.
Proof. vm_compute. split; reflexivity. Qed.

(** * Properties of [services/geminiService.ts] *)

Section Service.
Implicit Types (h : Host) (remote : GenAI.Remote)
  (request : TranslationRequest.t).

Lemma mode_is_spec (m id : TranslationMode) : mode_is m id = true <-> m = id.
Proof. destruct m, id; vm_compute; split; (done || discriminate). Qed.

Lemma mode_is_false (m id : TranslationMode) :
  mode_is m id = false <-> m <> id.
Proof.
  rewrite <- mode_is_spec. destruct (mode_is m id); split; congruence.
Qed.

Lemma truthy_spec (x : option string) :
  truthy x = true <-> exists s, x = Some s /\ s <> EmptyString.
Proof.
  destruct x as [s|]; simpl.
  - rewrite bool_decide_eq_true. split; [by exists s|].
    by intros (? & [= <-] & ?).
  - split; [done|]. by intros (? & ? & _).
Qed.

Lemma truthy_default (x : option string) :
  truthy x = true -> x = Some (default EmptyString x) /\
                     default EmptyString x <> EmptyString.
Proof. intros (s & -> & ?)%truthy_spec. done. Qed.

(** X9: without an API key neither service function issues a request:
    both reject with the same error, and nothing is written to the
    console. *)
Theorem service_needs_api_key h remote request text :
  truthy (API_KEY h) = false ->
  let e := Js.Error
    "API Key is missing. Please ensure process.env.API_KEY is available." in
  let silent := {| Gemini.requests := []; Gemini.console := [] |} in
  Gemini.translateContent h remote request = (Js.Rejected e, silent) /\
  Gemini.generateSpeech h remote text = (Js.Rejected e, silent).
Proof.
  intros Hk.
  unfold Gemini.translateContent, Gemini.translateContent_call,
    Gemini.generateSpeech, Gemini.generateSpeech_call, Gemini.getAiClient.
  by rewrite Hk.
Qed.

(** X10: a translation request goes out exactly when there is an API key
    and the input is text or comes with a MIME type; then it is the only
    one.  It is made with the client of that key, for the model chosen,
    or for [gemini-2.5-pro-preview] whenever the mode is [IMAGE]; text
    travels as the single text part, a file as inline data of its MIME
    type in the first part. *)
Theorem translation_request h remote request :
  let eff := (Gemini.translateContent h remote request).2 in
  let mode := TranslationRequest.mode request in
  let content := TranslationRequest.content request in
  (Gemini.requests eff <> [] <->
   truthy (API_KEY h) = true /\
   (mode = TEXT \/ truthy (TranslationRequest.mimeType request) = true)) /\
  (forall ai params,
     (ai, params) ∈ Gemini.requests eff ->
     Gemini.requests eff = [(ai, params)] /\
     API_KEY h = Some (GenAI.apiKey ai) /\
     (mode = IMAGE -> GenAI.model params = "gemini-2.5-pro-preview") /\
     (mode <> IMAGE ->
      GenAI.model params = TranslationRequest.model request) /\
     GenAI.role params = Some "user" /\
     GenAI.config params
     = GenAI.TranslationConfig (Gemini.systemInstruction request) 0.3 /\
     (mode = TEXT -> GenAI.parts params = [GenAI.TextPart content]) /\
     (mode <> TEXT ->
      exists mimeType,
        TranslationRequest.mimeType request = Some mimeType /\
        head (GenAI.parts params)
        = Some (GenAI.InlineDataPart mimeType content))).
Proof.
  intros eff mode content. subst eff.
  unfold Gemini.translateContent, Gemini.translateContent_call,
    Gemini.getAiClient, Gemini.request_parts, Gemini.effectiveModel.
  fold mode content.
  destruct (truthy (API_KEY h)) eqn:Hk; simpl.
  2: { split; [|by intros ai params ?%elem_of_nil]. split; [done|].
       by intros [? _]. }
  destruct (truthy_default _ Hk) as [Hkey _].
  destruct (mode_is mode TEXT) eqn:Ht.
  - apply mode_is_spec in Ht.
    destruct (Gemini.translateContent_settle _) as [result lines]. simpl.
    split; [split; [by auto|done]|].
    intros ai params [= -> ->]%list_elem_of_singleton. simpl.
    split_and!; try done.
    + intros Hi. rewrite Hi in Ht. discriminate.
    + intros Hi. apply mode_is_false in Hi. by rewrite Hi.
  - apply mode_is_false in Ht.
    destruct (truthy (TranslationRequest.mimeType request)) eqn:Hm.
    + destruct (truthy_default _ Hm) as [Hmime _].
      destruct (Gemini.translateContent_settle _) as [result lines]. simpl.
      split; [split; [by auto|done]|].
      intros ai params [= -> ->]%list_elem_of_singleton. simpl.
      split_and!; try done.
      * intros Hi. apply mode_is_spec in Hi. by rewrite Hi.
      * intros Hi. apply mode_is_false in Hi. by rewrite Hi.
      * intros _. by eexists.
    + simpl. split; [|by intros ai params ?%elem_of_nil].
      split; [done|]. intros [_ [?|?]]; done.
Qed.

(** X11: what [translateContent] settles with.  It resolves only with
    the non-empty text of the model's response, and then logs nothing.
    When it rejects after having issued its request, it logs the reason
    once under [Translation Error:] and rejects with that same reason:
    the remote side's own, or [No translation returned from the model.]
    when the response has no text. *)
Theorem translation_outcome h remote request :
  match Gemini.translateContent h remote request with
  | (Js.Resolved resultText, eff) =>
      resultText <> EmptyString /\
      Gemini.console eff = [] /\
      exists ai params response,
        Gemini.requests eff = [(ai, params)] /\
        remote ai params = Js.Resolved response /\
        GenAI.text response = Some resultText
  | (Js.Rejected error, eff) =>
      (Gemini.requests eff = [] /\ Gemini.console eff = []) \/
      (exists ai params,
         Gemini.requests eff = [(ai, params)] /\
         Gemini.console eff = [("Translation Error:", error)] /\
         (remote ai params = Js.Rejected error \/
          exists response,
            remote ai params = Js.Resolved response /\
            truthy (GenAI.text response) = false /\
            error = Js.Error "No translation returned from the model."))
  end.
Proof.
  unfold Gemini.translateContent.
  destruct (Gemini.translateContent_call h request) as [e|[ai params]].
  { by left. }
  unfold Gemini.translateContent_settle.
  destruct (remote ai params) as [response|error] eqn:Hr; simpl.
  - destruct (truthy (GenAI.text response)) eqn:Ht; simpl.
    + destruct (truthy_default _ Ht) as [Htext Hne].
      split_and!; [done|done|]. by exists ai, params, response.
    + right. exists ai, params. split_and!; [done|done|].
      right. by exists response.
  - right. exists ai, params. split_and!; [done|done|]. by left.
Qed.

(** X12: what [generateSpeech] resolves with.  It resolves with a string
    exactly when there is an API key and the response carries non-empty
    inline data in the first part of its first candidate; audio anywhere
    else in the response is not looked for.  Every other answer rejects,
    logged once under [TTS Error:]. *)
Theorem speech_outcome h remote text audioData :
  let '(result, eff) := Gemini.generateSpeech h remote text in
  (result = Js.Resolved audioData <->
   exists ai params response c cs ct p ps i,
     Gemini.generateSpeech_call h text = inr (ai, params) /\
     remote ai params = Js.Resolved response /\
     GenAI.candidates response = Some (c :: cs) /\
     GenAI.content c = Some ct /\
     parts ct = Some (p :: ps) /\
     inlineData p = Some i /\
     data i = Some audioData /\
     audioData <> EmptyString) /\
  (forall error,
     result = Js.Rejected error ->
     Gemini.requests eff = [] /\ Gemini.console eff = [] \/
     length (Gemini.requests eff) = 1%nat /\
     Gemini.console eff = [("TTS Error:", error)]) /\
  (forall ai params,
     (ai, params) ∈ Gemini.requests eff ->
     GenAI.model params = "gemini-2.5-flash-preview-tts" /\
     GenAI.parts params = [GenAI.TextPart (Some text)]).
Proof.
  unfold Gemini.generateSpeech.
  destruct (Gemini.generateSpeech_call h text) as [e|[ai params]] eqn:Hc.
  { split_and!.
    - split; [done|]. by intros (? & ? & ? & ? & ? & ? & ? & ? & ? & ? & _).
    - intros ? _. by left.
    - by intros ? ? ?%elem_of_nil. }
  assert (Hparams : GenAI.model params = "gemini-2.5-flash-preview-tts" /\
                    GenAI.parts params = [GenAI.TextPart (Some text)]).
  { unfold Gemini.generateSpeech_call in Hc.
    destruct (Gemini.getAiClient h); [done|]. by injection Hc as <- <-. }
  assert (Hdata : forall response,
    truthy (Gemini.audioData_of response) = true /\
    default EmptyString (Gemini.audioData_of response) = audioData <->
    exists c cs ct p ps i,
      GenAI.candidates response = Some (c :: cs) /\
      GenAI.content c = Some ct /\ parts ct = Some (p :: ps) /\
      inlineData p = Some i /\ data i = Some audioData /\
      audioData <> EmptyString).
  { intros response. unfold Gemini.audioData_of.
    split.
    - intros [(s & Hs & Hne)%truthy_spec Hd]. rewrite Hs in Hd. simpl in Hd.
      subst s.
      destruct (GenAI.candidates response) as [[|c cs]|]; try done.
      simpl in Hs.
      destruct (GenAI.content c) as [ct|] eqn:Hct; [|done]. simpl in Hs.
      destruct (parts ct) as [[|p ps]|] eqn:Hps; try done. simpl in Hs.
      destruct (inlineData p) as [i|] eqn:Hi; [|done]. simpl in Hs.
      by exists c, cs, ct, p, ps, i.
    - intros (c & cs & ct & p & ps & i & -> & Hct & Hps & Hi & Hd & Hne).
      simpl. rewrite Hct. simpl. rewrite Hps. simpl. rewrite Hi. simpl.
      rewrite Hd. simpl. split; [|done]. by apply bool_decide_eq_true. }
  unfold Gemini.generateSpeech_settle.
  destruct (remote ai params) as [response|error] eqn:Hr; simpl.
  - destruct (truthy (Gemini.audioData_of response)) eqn:Ht; simpl.
    + split_and!.
      * split.
        -- intros [= Hd].
           destruct (proj1 (Hdata response) (conj Ht Hd))
             as (c & cs & ct & p & ps & i & ?).
           by exists ai, params, response, c, cs, ct, p, ps, i.
        -- intros (ai' & params' & response' & c & cs & ct & p & ps & i
                   & [= <- <-] & Hr' & Hrest).
           rewrite Hr in Hr'. injection Hr' as <-.
           destruct (proj2 (Hdata response)) as [_ ->]; [|done].
           by exists c, cs, ct, p, ps, i.
      * done.
      * by intros ? ? [= -> ->]%list_elem_of_singleton.
    + split_and!.
      * split; [done|].
        intros (ai' & params' & response' & c & cs & ct & p & ps & i
                & [= <- <-] & Hr' & Hrest).
        rewrite Hr in Hr'. injection Hr' as <-.
        destruct (proj2 (Hdata response)) as [Ht' _].
        { by exists c, cs, ct, p, ps, i. }
        congruence.
      * intros ? [= <-]. by right.
      * by intros ? ? [= -> ->]%list_elem_of_singleton.
  - split_and!.
    + split; [done|].
      intros (ai' & params' & response' & c & cs & ct & p & ps & i
              & [= <- <-] & Hr' & _). congruence.
    + intros ? [= <-]. by right.
    + by intros ? ? [= -> ->]%list_elem_of_singleton.
Qed.

(** X13: the model requested for an image is never one of those the
    model select offers, whichever of them is chosen. *)
Theorem image_model_is_not_offered h request ai params :
  Gemini.translateContent_call h request = inr (ai, params) ->
  TranslationRequest.mode request = IMAGE ->
  GenAI.model params ∉ ModelOption.id <$> constants.MODELS.
Proof.
  unfold Gemini.translateContent_call, Gemini.effectiveModel.
  intros Hc Hm. rewrite Hm in Hc.
  destruct (Gemini.getAiClient h); [done|].
  destruct (Gemini.request_parts request); [done|].
  injection Hc as _ <-. simpl.
  rewrite !not_elem_of_cons. split_and!; try discriminate.
  apply not_elem_of_nil.
Qed.

End Service.

(** * Properties of [App.tsx] *)

Section FileToBase64.

Lemma split_comma_plain s : App.no_comma s -> Js.split_comma s = [s].
Proof.
  unfold App.no_comma. induction s as [|c s IH]; simpl; [done|].
  intros [Hc Hs]%Forall_cons. rewrite (IH Hs).
  destruct (Ascii.eqb_spec c Js.COMMA); done.
Qed.

Lemma split_comma_at s1 s2 :
  App.no_comma s1 ->
  Js.split_comma (s1 +:+ String Js.COMMA s2) = s1 :: Js.split_comma s2.
Proof.
  unfold App.no_comma. induction s1 as [|c s1 IH]; simpl.
  - intros _. by rewrite ?Ascii.eqb_refl.
  - intros [Hc Hs]%Forall_cons. rewrite (IH Hs).
    destruct (Ascii.eqb_spec c Js.COMMA); done.
Qed.

Lemma split_comma_cons s : exists x l, Js.split_comma s = x :: l.
Proof.
  induction s as [|c s (x & l & IH)]; simpl; [by eexists _, _|].
  rewrite IH. destruct (Ascii.eqb c Js.COMMA); by eexists _, _.
Qed.

(** X14: [fileToBase64] resolves with what stands between the first
    comma of the reader's result and the next one: for a data URL, whose
    header has no comma, with the whole payload when that has no comma
    either.  A result without a comma makes it resolve with
    [undefined]. *)
Theorem fileToBase64_payload header payload :
  App.no_comma header ->
  App.fileToBase64_onload (header +:+ "," +:+ payload)
  = head (Js.split_comma payload) /\
  (App.no_comma payload ->
   App.fileToBase64_onload (header +:+ "," +:+ payload) = Some payload) /\
  App.fileToBase64_onload header = None.
Proof.
  intros Hh. unfold App.fileToBase64_onload.
  change ("," +:+ payload) with (String Js.COMMA payload).
  rewrite (split_comma_at _ _ Hh), (split_comma_plain _ Hh). simpl.
  split_and!; [|intros Hp; by rewrite (split_comma_plain _ Hp)|done].
  by destruct (split_comma_cons payload) as (x & l & ->).
Qed.

End FileToBase64.

Lemma fileToBase64_payload_witness :
  App.fileToBase64_onload "data:image/png;base64,iVBORw0KGgo="
  = Some "iVBORw0KGgo=".
Proof.
  refine (proj1 (proj2 (fileToBase64_payload "data:image/png;base64"
                          "iVBORw0KGgo=" _)) _);
    unfold App.no_comma; simpl; repeat constructor; discriminate.
Defined.

Section Shell.
Context {T : Type}.
Implicit Types (w : @App.World T).

(** X15: the swap button.  With the source on [auto] it does nothing.
    Otherwise it exchanges the two languages, and in text mode with a
    translation showing also the two texts.  Pressed twice it restores
    the languages, and restores the whole state unless, in text mode, a
    translation was showing for an empty input: the translation then
    stays in the input box and the output stays empty. *)
Theorem swap_twice w :
  let st := App.state w in
  let once := App.handleSwapLanguages w in
  let twice := App.handleSwapLanguages once in
  (App.sourceLang st = "auto" -> once = w) /\
  (App.sourceLang st <> "auto" ->
   App.sourceLang (App.state once) = App.targetLang st /\
   App.targetLang (App.state once) = App.sourceLang st /\
   (App.targetLang st <> "auto" ->
    App.sourceLang (App.state twice) = App.sourceLang st /\
    App.targetLang (App.state twice) = App.targetLang st /\
    (twice = w <->
     ~ (App.mode st = TEXT /\ App.outputText st <> EmptyString /\
        App.inputText st = EmptyString)) /\
    (App.mode st = TEXT -> App.outputText st <> EmptyString ->
     App.inputText st = EmptyString ->
     App.inputText (App.state twice) = App.outputText st /\
     App.outputText (App.state twice) = EmptyString))).
Proof.
  intros st once twice. subst once twice st.
  destruct w as [[sl tl it ot m md tn f tr er au sp ls] cr sr cs ss su rq co].
  unfold App.handleSwapLanguages. simpl.
  split.
  { intros ->. done. }
  intros Hs. rewrite (bool_decide_eq_false_2 _ Hs).
  destruct (mode_is m TEXT) eqn:Hm; simpl.
  - apply mode_is_spec in Hm. subst m.
    destruct (bool_decide (ot <> EmptyString)) eqn:Ho; simpl.
    + apply bool_decide_eq_true in Ho.
      split_and!; [done|done|]. intros Ht.
      rewrite (bool_decide_eq_false_2 _ Ht). simpl.
      change (mode_is TEXT TEXT) with true. simpl.
      destruct (bool_decide (it <> EmptyString)) eqn:Hi; simpl.
      * apply bool_decide_eq_true in Hi. split_and!; [done|done| |done].
        split; [|done]. intros _ (_ & _ & ?). done.
      * apply bool_decide_eq_false in Hi.
        assert (it = EmptyString) as -> by (by destruct (decide (it = ""))).
        split_and!; [done|done| |done]. split.
        -- intros [= ->]. done.
        -- intros Hn. destruct Hn. done.
    + apply bool_decide_eq_false in Ho.
      split_and!; [done|done|]. intros Ht.
      rewrite (bool_decide_eq_false_2 _ Ht). simpl.
      change (mode_is TEXT TEXT) with true. simpl.
      rewrite (bool_decide_eq_false_2 _ Ho).
      split_and!; [done|done| |done]. split; [|done].
      intros _ (_ & ? & _). done.
  - apply mode_is_false in Hm.
    split_and!; [done|done|]. intros Ht.
    rewrite (bool_decide_eq_false_2 _ Ht). simpl.
    rewrite (proj2 (mode_is_false m TEXT) Hm). simpl.
    split_and!; [done|done| |done]. split; [|done].
    intros _ (? & _). done.
Qed.

End Shell.

(** The exceptional case: a translation from English is showing and the
    input has been cleared.  After two swaps the translation sits in the
    input box and the output is empty. *)
Lemma swap_twice_witness :
  let w := ShellRun.run ([App.SelectSource 1] ++ ShellRun.translated ++
                         [App.EditInput EmptyString]) in
  let twice := App.handleSwapLanguages (App.handleSwapLanguages w) in
  App.sourceLang (App.state twice) = "en" /\
  App.targetLang (App.state twice) = "es" /\
  App.inputText (App.state twice) = "Buenos dias" /\
  App.outputText (App.state twice) = EmptyString /\
  twice <> w.
Proof.
  intros w twice.
  pose proof (swap_twice w) as [_ H].
  assert (Hs : App.sourceLang (App.state w) = "en") by (vm_compute; reflexivity).
  assert (Ht : App.targetLang (App.state w) = "es") by (vm_compute; reflexivity).
  assert (Ho : App.outputText (App.state w) = "Buenos dias")
    by (vm_compute; reflexivity).
  destruct H as (_ & _ & H); [by rewrite Hs|].
  destruct H as (H1 & H2 & H3 & H4); [by rewrite Ht|].
  destruct H4 as [H5 H6]; [vm_compute; reflexivity|by rewrite Ho|
                           vm_compute; reflexivity|].
  split_and!.
  - by rewrite <-Hs.
  - by rewrite <-Ht.
  - by rewrite <-Ho.
  - exact H6.
  - intros Heq. apply (proj1 H3) in Heq. apply Heq.
    split_and!; [vm_compute; reflexivity|by rewrite Ho|vm_compute; reflexivity].
Defined.

Section Translation.
Context {T : Type} {utils : AudioUtils T}.
Variable trim : string -> string.
Variable decodeFailure : string -> Js.Thrown.
Implicit Types (w : @App.World T) (h : Host).

(** X16: a text translation from click to answer.  The click shows the
    indicator, clears the error, keeps the previous output on screen and
    issues one request carrying the input as its single text part, for
    the model chosen.  The answer clears the indicator; a response with
    text replaces the output and logs nothing; a response without text,
    or a failure of the call, leaves the output, logs one line and shows
    the reason's message, or the default text when it has none. *)
Theorem text_translation h w outcome :
  App.mode (App.state w) = TEXT ->
  trim (App.inputText (App.state w)) <> EmptyString ->
  truthy (API_KEY h) = true ->
  let k := length (App.suspended w) in
  let w1 := App.step trim decodeFailure h App.Translate w in
  let w2 := App.step trim decodeFailure h (App.Answered k outcome) w1 in
  let dflt := "An unexpected error occurred during translation." in
  (App.isTranslating (App.state w1) = true /\
   App.error (App.state w1) = None /\
   App.outputText (App.state w1) = App.outputText (App.state w) /\
   exists ai params,
     App.requests w1 = App.requests w ++ [(ai, params)] /\
     GenAI.parts params
     = [GenAI.TextPart (Some (App.inputText (App.state w)))] /\
     GenAI.model params = App.model (App.state w)) /\
  App.isTranslating (App.state w2) = false /\
  App.requests w2 = App.requests w1 /\
  match outcome with
  | Js.Resolved response =>
      if truthy (GenAI.text response) then
        Some (App.outputText (App.state w2)) = GenAI.text response /\
        App.error (App.state w2) = None /\
        App.console w2 = App.console w
      else
        App.outputText (App.state w2) = App.outputText (App.state w) /\
        App.error (App.state w2)
        = Some "No translation returned from the model." /\
        App.console w2
        = App.console w ++
          [("Translation Error:",
            Js.Error "No translation returned from the model.")]
  | Js.Rejected e =>
      App.outputText (App.state w2) = App.outputText (App.state w) /\
      App.error (App.state w2) = Some (Js.or_else (Js.message e) dflt) /\
      App.console w2 = App.console w ++ [("Translation Error:", e)]
  end.
Proof.
  intros Hm Hin Hk k w1 w2 dflt. subst w2 w1 k.
  destruct w as [[sl tl it ot m md tn f tr er au sp ls] cr sr cs ss su rq co].
  simpl in Hm, Hin. subst m.
  assert (Hstart : App.step trim decodeFailure h App.Translate
    {| App.state := App.Build_State sl tl it ot TEXT md tn f tr er au sp ls;
       App.audioContextRef := cr; App.audioSourceRef := sr;
       App.contexts := cs; App.sources := ss; App.suspended := su;
       App.requests := rq; App.console := co |}
    = App.suspend App.Translating
        (App.upd_requests (fun l => l ++
           [({| GenAI.apiKey := default EmptyString (API_KEY h) |},
             {| GenAI.model := md; GenAI.role := Some "user";
                GenAI.parts := [GenAI.TextPart (Some it)];
                GenAI.config := GenAI.TranslationConfig
                  (Gemini.systemInstruction
                     {| TranslationRequest.sourceLang := sl;
                        TranslationRequest.targetLang := tl;
                        TranslationRequest.content := Some it;
                        TranslationRequest.mimeType := None;
                        TranslationRequest.mode := TEXT;
                        TranslationRequest.model := md;
                        TranslationRequest.tone := tn |}) 0.3 |})])
           (App.handleStopSpeaking
              (App.setError None (App.setIsTranslating true
                 {| App.state :=
                      App.Build_State sl tl it ot TEXT md tn f tr er au sp ls;
                    App.audioContextRef := cr; App.audioSourceRef := sr;
                    App.contexts := cs; App.sources := ss;
                    App.suspended := su; App.requests := rq;
                    App.console := co |}))))).
  { simpl. unfold App.handleTranslate. simpl.
    change (mode_is TEXT TEXT) with true. simpl.
    rewrite (bool_decide_eq_false_2 _ Hin). simpl.
    unfold App.await_translateContent, Gemini.translateContent_call,
      Gemini.getAiClient, Gemini.request_parts, Gemini.effectiveModel.
    rewrite Hk. simpl.
    change (mode_is TEXT TEXT) with true.
    change (mode_is TEXT IMAGE) with false. simpl.
    by destruct f. }
  rewrite Hstart. clear Hstart.
  unfold App.handleStopSpeaking. simpl.
  split.
  { destruct sr; simpl; split_and!; try done; by eexists _, _. }
  assert (Hlook : forall sus : list (@App.Suspended T),
    (sus ++ [App.Translating]) !! length sus = Some App.Translating).
  { intros sus. by rewrite lookup_app_r, Nat.sub_diag by lia. }
  destruct sr as [s|]; simpl; rewrite Hlook;
    unfold App.handleTranslate_answered, Gemini.translateContent_settle;
    (destruct outcome as [response|e]; simpl;
     [destruct (truthy (GenAI.text response)) eqn:Ht; simpl|]);
    split_and!; try done.
  all: try (rewrite app_nil_r; done).
  all: destruct (truthy_default _ Ht) as [Htext _]; by rewrite <- Htext.
Qed.

(** X17: a file translation up to its request.  The click clears the
    output, shows the indicator and starts reading the file; nothing is
    requested yet.  When the read fails, the indicator is cleared and the
    reason's message, or the default text, is shown.  When it succeeds
    for a file whose [type] is empty, the translation stops there with
    [MIME type is required for file translation.], nothing requested and
    nothing logged.  Otherwise one request goes out whose first part is
    the inline data of that type, holding what [fileToBase64] made of
    the reader's result, and the handler waits for the answer. *)
Theorem file_translation h w f result :
  App.mode (App.state w) <> TEXT ->
  App.file (App.state w) = Some f ->
  truthy (API_KEY h) = true ->
  let k := length (App.suspended w) in
  let w1 := App.step trim decodeFailure h App.Translate w in
  let w2 := App.step trim decodeFailure h (App.FileRead k result) w1 in
  let dflt := "An unexpected error occurred during translation." in
  (App.isTranslating (App.state w1) = true /\
   App.error (App.state w1) = None /\
   App.outputText (App.state w1) = EmptyString /\
   App.requests w1 = App.requests w) /\
  match result with
  | Js.Rejected e =>
      App.isTranslating (App.state w2) = false /\
      App.error (App.state w2) = Some (Js.or_else (Js.message e) dflt) /\
      App.requests w2 = App.requests w /\
      App.console w2 = App.console w
  | Js.Resolved dataURL =>
      if bool_decide (App.type f = EmptyString) then
        App.isTranslating (App.state w2) = false /\
        App.error (App.state w2)
        = Some "MIME type is required for file translation." /\
        App.requests w2 = App.requests w /\
        App.console w2 = App.console w
      else
        App.isTranslating (App.state w2) = true /\
        App.error (App.state w2) = None /\
        App.suspended w2 !! S k = Some App.Translating /\
        exists ai params,
          App.requests w2 = App.requests w ++ [(ai, params)] /\
          head (GenAI.parts params)
          = Some (GenAI.InlineDataPart (App.type f)
                    (App.fileToBase64_onload dataURL)) /\
          GenAI.model params
          = (if mode_is (App.mode (App.state w)) IMAGE
             then "gemini-2.5-pro-preview" else App.model (App.state w))
  end.
Proof.
  intros Hm Hf Hk k w1 w2 dflt. subst w2 w1 k.
  destruct w as [[sl tl it ot m md tn f' tr er au sp ls] cr sr cs ss su rq co].
  simpl in Hm, Hf. subst f'.
  apply mode_is_false in Hm.
  simpl. unfold App.handleTranslate. simpl. rewrite Hm. simpl.
  rewrite andb_false_r.
  unfold App.handleStopSpeaking. simpl.
  assert (Hlook : forall (sus : list (@App.Suspended T)) s,
    (sus ++ [s]) !! length sus = Some s).
  { intros sus s. by rewrite lookup_app_r, Nat.sub_diag by lia. }
  assert (Hwoken : forall (sus : list (@App.Suspended T)) s s',
    length (alter (fun _ => App.Done) (length sus) (sus ++ [s]) ++ [s'])
    = S (S (length sus)) /\
    (alter (fun _ => App.Done) (length sus) (sus ++ [s]) ++ [s'])
      !! S (length sus) = Some s').
  { intros sus s s'.
    assert (length (alter (fun _ => @App.Done T) (length sus) (sus ++ [s]))
            = S (length sus)) as Hl.
    { rewrite length_alter, length_app. simpl. lia. }
    split; [rewrite length_app, Hl; simpl; lia|].
    rewrite lookup_app_r by lia. rewrite Hl, Nat.sub_diag. done. }
  destruct sr as [s|]; simpl; (split; [done|]); rewrite Hlook;
    (destruct result as [dataURL|e]; simpl; [|done]);
    unfold App.await_translateContent, Gemini.translateContent_call,
      Gemini.getAiClient, Gemini.request_parts, Gemini.effectiveModel;
    rewrite Hk; simpl; rewrite Hm; simpl;
    (case_bool_decide as Hty; simpl;
     [rewrite bool_decide_eq_false_2 by (by intros H; apply H)
     |rewrite (bool_decide_eq_true_2 _ Hty)]); simpl.
  all: try done.
  all: split_and!; try done.
  all: try apply Hwoken.
  all: by eexists _, _.
Qed.

(** X18: an answer does not look at what has happened since its
    translation was started.  When the user has moved to another tab in
    the meantime, which clears output, error and file, the answer of the
    earlier translation is shown in that tab, and the indicator is
    cleared whatever else is still in flight: every other suspended
    handler is left as it is. *)
Theorem late_answer_lands_in_new_tab h w k id response resultText :
  App.suspended w !! k = Some App.Translating ->
  GenAI.text response = Some resultText ->
  resultText <> EmptyString ->
  let w' := App.run trim decodeFailure h
              [App.ClickTab id; App.Answered k (Js.Resolved response)] w in
  App.mode (App.state w') = id /\
  App.outputText (App.state w') = resultText /\
  App.error (App.state w') = None /\
  App.file (App.state w') = None /\
  App.isTranslating (App.state w') = false /\
  forall k', k' <> k -> App.suspended w' !! k' = App.suspended w !! k'.
Proof.
  intros Hsus Htext Hne w'. subst w'.
  destruct w as [[sl tl it ot m md tn f tr er au sp ls] cr sr cs ss su rq co].
  simpl in Hsus. unfold App.run. simpl.
  unfold App.ModeTab_onClick, App.handleStopSpeaking. simpl.
  assert (Ht : truthy (GenAI.text response) = true).
  { rewrite Htext. simpl. by apply bool_decide_eq_true. }
  destruct sr as [s|]; simpl; rewrite Hsus;
    unfold App.handleTranslate_answered, Gemini.translateContent_settle;
    simpl; rewrite Ht; simpl; rewrite Htext; simpl;
    (split_and!; try done);
    intros k' Hk'; by rewrite list_lookup_alter_ne.
Qed.

End Translation.

Section ShellInvariants.
Context {T : Type} {utils : AudioUtils T}.
Variable trim : string -> string.
Variable decodeFailure : string -> Js.Thrown.
Implicit Types (w : @App.World T) (h : Host).

(** A property that holds of the mounted component and that every turn
    keeps holds after every run. *)
Lemma shell_invariant h (I : @App.World T -> Prop) :
  I App.mount ->
  (forall e w, I w -> I (App.step trim decodeFailure h e w)) ->
  forall events, I (App.run trim decodeFailure h events App.mount).
Proof.
  intros Hm Hstep events. unfold App.run. generalize (@App.mount T) Hm.
  induction events as [|e events IH]; intros w Hw; [done|].
  apply IH, Hstep, Hw.
Qed.

Lemma options_spec (excludeAuto : bool) (code : string) :
  code ∈ Language.code <$> LanguageSelect.options excludeAuto <->
  code ∈ Language.code <$> constants.LANGUAGES /\
  (excludeAuto = true -> code <> "auto").
Proof.
  unfold LanguageSelect.options. rewrite !list_elem_of_fmap. split.
  - intros (l & -> & Hl). apply list_elem_of_In, filter_In in Hl as [Hl Hf].
    split; [exists l; split; [done|by apply list_elem_of_In]|].
    intros ->. by apply bool_decide_eq_true in Hf.
  - intros [(l & -> & Hl) Hx]. exists l. split; [done|].
    apply list_elem_of_In, filter_In. split; [by apply list_elem_of_In|].
    destruct excludeAuto; [|done]. apply bool_decide_eq_true. by apply Hx.
Qed.

Lemma offered_target_not_auto sourceLang targetLang model :
  App.offered sourceLang targetLang model -> targetLang <> "auto".
Proof. intros (_ & Ht & _). apply options_spec in Ht as [_ Ht]. by apply Ht. Qed.

Lemma offered_swap sourceLang targetLang model :
  sourceLang <> "auto" ->
  App.offered sourceLang targetLang model ->
  App.offered targetLang sourceLang model.
Proof.
  intros Hs (Hsl & Htl & Hm). split_and!; [| |done].
  - apply options_spec in Htl as [? _]. by apply options_spec.
  - apply options_spec in Hsl as [? _]. by apply options_spec.
Qed.

Lemma call_has_mime h request sent :
  Gemini.translateContent_call h request = inr sent ->
  TranslationRequest.mode request <> TEXT ->
  truthy (TranslationRequest.mimeType request) = true.
Proof.
  unfold Gemini.translateContent_call, Gemini.request_parts.
  intros Hc Hm%mode_is_false. rewrite Hm in Hc.
  destruct (Gemini.getAiClient h); [done|].
  by destruct (truthy (TranslationRequest.mimeType request)).
Qed.

(** The settings, the suspended handlers and the requests, which the
    invariant is about. *)
Lemma settled_keeps result w :
  let w' := App.handleTranslate_settled result w in
  App.sourceLang (App.state w') = App.sourceLang (App.state w) /\
  App.targetLang (App.state w') = App.targetLang (App.state w) /\
  App.model (App.state w') = App.model (App.state w) /\
  App.suspended w' = App.suspended w /\
  App.requests w' = App.requests w.
Proof. by destruct result. Qed.

Lemma await_keeps h request w :
  let w' := App.await_translateContent h request w in
  App.sourceLang (App.state w') = App.sourceLang (App.state w) /\
  App.targetLang (App.state w') = App.targetLang (App.state w) /\
  App.model (App.state w') = App.model (App.state w) /\
  (App.suspended w' = App.suspended w /\ App.requests w' = App.requests w \/
   exists sent,
     Gemini.translateContent_call h request = inr sent /\
     App.suspended w' = App.suspended w ++ [App.Translating] /\
     App.requests w' = App.requests w ++ [sent]).
Proof.
  unfold App.await_translateContent.
  destruct (Gemini.translateContent_call h request) as [e|sent].
  - destruct (settled_keeps (Js.Rejected e) w) as (? & ? & ? & ? & ?).
    split_and!; try done. by left.
  - simpl. split_and!; try done. right. by exists sent.
Qed.

(** The requests of the handlers suspended in a file read. *)
Lemma captured_alter (P : @App.Suspended T -> Prop) k l :
  P App.Done -> Forall P l -> Forall P (alter (fun _ => App.Done) k l).
Proof.
  intros Hd Hl. apply Forall_lookup. intros i s.
  destruct (decide (i = k)) as [->|Hne].
  - destruct (l !! k) eqn:Hk.
    + rewrite list_lookup_alter_eq, Hk. by intros [= <-].
    + rewrite list_lookup_alter_eq, Hk. done.
  - rewrite list_lookup_alter_ne by done.
    intros Hi. by eapply Forall_lookup_1.
Qed.

(** X19: in every state the component can reach, the languages and the
    model are among those the selects offer, and the target language is
    not [auto]; and every request it has issued is either a speech
    request for a text that is not empty, or the request of a
    translation with offered languages and model, which in text mode
    carries a text that is not blank and in the other modes a file with
    a MIME type. *)
Theorem settings_and_requests h events :
  let w := App.run trim decodeFailure h events App.mount in
  let st := App.state w in
  App.offered (App.sourceLang st) (App.targetLang st) (App.model st) /\
  App.targetLang st <> "auto" /\
  Forall (App.issued trim h) (App.requests w).
Proof.
  intros w st. subst st w.
  set (captured := fun s : @App.Suspended T =>
    match s with
    | App.ReadingFile request _ =>
        App.request_offered request /\
        TranslationRequest.mode request <> TEXT
    | _ => True
    end).
  cut (let w := App.run trim decodeFailure h events App.mount in
       App.offered (App.sourceLang (App.state w))
                   (App.targetLang (App.state w))
                   (App.model (App.state w)) /\
       Forall captured (App.suspended w) /\
       Forall (App.issued trim h) (App.requests w)).
  { intros (Ho & _ & Hr). split_and!; [done| |done].
    by eapply offered_target_not_auto. }
  apply (shell_invariant h (fun w =>
    App.offered (App.sourceLang (App.state w)) (App.targetLang (App.state w))
                (App.model (App.state w)) /\
    Forall captured (App.suspended w) /\
    Forall (App.issued trim h) (App.requests w))).
  { split_and!; [|constructor|constructor].
    unfold App.offered. split_and!; vm_compute;
      repeat (first [by apply list_elem_of_here | apply list_elem_of_further]). }
  assert (Hawait : forall request w,
    App.request_offered request ->
    (TranslationRequest.mode request = TEXT ->
     exists text, TranslationRequest.content request = Some text /\
                  trim text <> EmptyString) ->
    App.offered (App.sourceLang (App.state w)) (App.targetLang (App.state w))
                (App.model (App.state w)) ->
    Forall captured (App.suspended w) ->
    Forall (App.issued trim h) (App.requests w) ->
    let w' := App.await_translateContent h request w in
    App.offered (App.sourceLang (App.state w')) (App.targetLang (App.state w'))
                (App.model (App.state w')) /\
    Forall captured (App.suspended w') /\
    Forall (App.issued trim h) (App.requests w')).
  { intros request w Hreq Htext Ho Hc Hr w'. subst w'.
    destruct (await_keeps h request w)
      as (-> & -> & -> & [[-> ->]|(sent & Hsent & -> & ->)]); [done|].
    split_and!; [done| |].
    - apply Forall_app. split; [done|]. by repeat constructor.
    - apply Forall_app. split; [done|]. constructor; [|done].
      right. exists request. split_and!; [done|done|done|].
      exact (call_has_mime h request sent Hsent). }
  intros e w (Ho & Hc & Hr).
  destruct e as [i|i|i|i|value|checked|id| |files| | |k result|k outcome| |k|
                 |source]; simpl.
  - unfold App.chosen.
    destruct (LanguageSelect.options false !! i) as [l|] eqn:Hl; [|done].
    simpl. split_and!; [|done|done].
    destruct Ho as (_ & ? & ?). split_and!; [|done|done].
    apply list_elem_of_fmap. exists l. split; [done|].
    by eapply list_elem_of_lookup_2.
  - unfold App.chosen.
    destruct (LanguageSelect.options true !! i) as [l|] eqn:Hl; [|done].
    simpl. split_and!; [|done|done].
    destruct Ho as (? & _ & ?). split_and!; [done| |done].
    apply list_elem_of_fmap. exists l. split; [done|].
    by eapply list_elem_of_lookup_2.
  - unfold App.chosen. by destruct (constants.TONES !! i).
  - unfold App.chosen.
    destruct (constants.MODELS !! i) as [m|] eqn:Hm; [|done].
    simpl. split_and!; [|done|done].
    destruct Ho as (? & ? & _). split_and!; [done|done|].
    apply list_elem_of_fmap. exists m. split; [done|].
    by eapply list_elem_of_lookup_2.
  - done.
  - done.
  - unfold App.ModeTab_onClick, App.handleStopSpeaking. simpl.
    by destruct (App.audioSourceRef w).
  - unfold App.handleSwapLanguages.
    case_bool_decide as Hs; [done|].
    apply (offered_swap _ _ _ Hs) in Ho.
    by destruct (mode_is (App.mode (App.state w)) TEXT &&
                 bool_decide (App.outputText (App.state w) <> EmptyString)).
  - unfold App.handleFileUpload. by destruct files as [[|f fs]|].
  - done.
  - unfold App.handleTranslate.
    destruct (mode_is (App.mode (App.state w)) TEXT) eqn:Hm; simpl.
    + case_bool_decide as Hin; [done|].
      assert (Hgo : forall w0,
        App.sourceLang (App.state w0) = App.sourceLang (App.state w) ->
        App.targetLang (App.state w0) = App.targetLang (App.state w) ->
        App.model (App.state w0) = App.model (App.state w) ->
        App.suspended w0 = App.suspended w ->
        App.requests w0 = App.requests w ->
        let w' := App.await_translateContent h
          {| TranslationRequest.sourceLang := App.sourceLang (App.state w);
             TranslationRequest.targetLang := App.targetLang (App.state w);
             TranslationRequest.content := Some (App.inputText (App.state w));
             TranslationRequest.mimeType := None;
             TranslationRequest.mode := App.mode (App.state w);
             TranslationRequest.model := App.model (App.state w);
             TranslationRequest.tone := App.tone (App.state w) |} w0 in
        App.offered (App.sourceLang (App.state w'))
          (App.targetLang (App.state w')) (App.model (App.state w')) /\
        Forall captured (App.suspended w') /\
        Forall (App.issued trim h) (App.requests w')).
      { intros w0 H1 H2 H3 H4 H5. apply Hawait.
        - done.
        - intros _. by eexists.
        - by rewrite H1, H2, H3.
        - by rewrite H4.
        - by rewrite H5. }
      unfold App.handleStopSpeaking. simpl.
      destruct (App.file (App.state w)), (App.audioSourceRef w);
        by apply Hgo.
    + apply mode_is_false in Hm.
      destruct (negb (mode_is (App.mode (App.state w)) LIVE) &&
                bool_decide (App.file (App.state w) = None)); [done|].
      unfold App.handleStopSpeaking. simpl.
      destruct (App.file (App.state w)) as [f|].
      * destruct (App.audioSourceRef w); simpl;
          (split_and!; [done| |done]);
          (apply Forall_app; split; [done|]);
          apply Forall_singleton; (split; [exact Ho|exact Hm]).
      * destruct (App.audioSourceRef w); apply Hawait; try done;
          simpl; intros; done.
  - destruct (App.suspended w !! k) as [[request f| | | |]|] eqn:Hk;
      try done.
    assert (Hcap : captured (App.ReadingFile request f)).
    { by eapply Forall_lookup_1. }
    destruct Hcap as [Hoff Hmode].
    unfold App.handleTranslate_read.
    destruct result as [dataURL|error].
    + apply Hawait; try done.
      by apply captured_alter.
    + simpl. split_and!; [done| |done]. by apply captured_alter.
  - destruct (App.suspended w !! k) as [[request f| | | |]|] eqn:Hk;
      try done.
    + unfold App.handleTranslate_answered.
      destruct (Gemini.translateContent_settle outcome) as [result lines].
      match goal with |- context [App.handleTranslate_settled ?r ?x] =>
        destruct (settled_keeps r x) as (-> & -> & -> & -> & ->) end.
      simpl. split_and!; [done| |done]. by apply captured_alter.
    + unfold App.handleListen_answered.
      destruct (Gemini.generateSpeech_settle outcome) as [[d|e] lines];
        simpl.
      * destruct (decodeAudio d); simpl.
        -- split_and!; [done| |done].
           apply Forall_app. split; [by apply captured_alter|].
           by repeat constructor.
        -- split_and!; [done| |done]. by apply captured_alter.
      * split_and!; [done| |done]. by apply captured_alter.
  - unfold App.handleListen.
    case_bool_decide as Hout; simpl; [done|].
    destruct (App.isSpeaking (App.state w)); simpl; [done|].
    destruct (App.isLoadingSpeech (App.state w)); simpl; [done|].
    destruct (Gemini.generateSpeech_call h _) as [e|sent] eqn:Hcall; simpl.
    + done.
    + split_and!; [done| |].
      * apply Forall_app. split; [done|]. by repeat constructor.
      * apply Forall_app. split; [done|]. constructor; [|done].
        left. by eexists.
  - destruct (App.suspended w !! k) as [[| | |audioCtx audioBase64 r|]|] eqn:Hk;
      try done.
    unfold App.handleListen_decoded.
    destruct r; simpl; (split_and!; [done| |done]); by apply captured_alter.
  - unfold App.handleStopSpeaking. by destruct (App.audioSourceRef w).
  - by destruct (App.sources w !! source).
Qed.

End ShellInvariants.

Section Speech.
Context {T : Type} {utils : AudioUtils T}.
Variable trim : string -> string.
Variable decodeFailure : string -> Js.Thrown.
Implicit Types (w : @App.World T) (h : Host).

Lemma woken_count (P : @App.Suspended T -> bool) k l s :
  P App.Done = false ->
  l !! k = Some s ->
  (length (List.filter P (alter (fun _ => App.Done) k l)) +
   (if P s then 1 else 0) = length (List.filter P l))%nat.
Proof.
  intros Hd. revert k. induction l as [|x l IH]; intros k Hk; [done|].
  destruct k as [|k]; simpl in Hk.
  - injection Hk as ->. simpl. rewrite Hd. destruct (P s); simpl; lia.
  - specialize (IH k Hk). unfold alter in IH |- *. simpl.
    destruct (P x); simpl; lia.
Qed.

Lemma woken_exists (P : @App.Suspended T -> bool) k l s :
  l !! k = Some s ->
  P s = false ->
  Exists (fun x => P x = true) l ->
  Exists (fun x => P x = true) (alter (fun _ => App.Done) k l).
Proof.
  intros Hk Hs. rewrite !Exists_exists.
  intros (x & Hx & Px). exists x. split; [|done].
  apply list_elem_of_lookup in Hx as [i Hi].
  apply list_elem_of_lookup. exists i.
  rewrite list_lookup_alter_ne; [done|]. intros ->. congruence.
Qed.

(** X20: the two busy flags.  [isLoadingSpeech] is true exactly while a
    [handleListen] is suspended, and there is never more than one: the
    flag guards the handler.  [isTranslating] guards nothing: it is true
    only while some [handleTranslate] is suspended, but the first that
    settles clears it whatever else is in flight. *)
Theorem busy_flags h events :
  let w := App.run trim decodeFailure h events App.mount in
  length (List.filter App.listening (App.suspended w))
  = (if App.isLoadingSpeech (App.state w) then 1 else 0)%nat /\
  (App.isTranslating (App.state w) = true ->
   Exists (fun s => App.translating s = true) (App.suspended w)).
Proof.
  apply (shell_invariant trim decodeFailure h (fun w =>
    length (List.filter App.listening (App.suspended w))
    = (if App.isLoadingSpeech (App.state w) then 1 else 0)%nat /\
    (App.isTranslating (App.state w) = true ->
     Exists (fun s => App.translating s = true) (App.suspended w)))).
  { by split. }
  assert (Hsettled : forall result w,
    length (List.filter App.listening (App.suspended w))
    = (if App.isLoadingSpeech (App.state w) then 1 else 0)%nat ->
    let w' := App.handleTranslate_settled result w in
    length (List.filter App.listening (App.suspended w'))
    = (if App.isLoadingSpeech (App.state w') then 1 else 0)%nat /\
    (App.isTranslating (App.state w') = true ->
     Exists (fun s => App.translating s = true) (App.suspended w'))).
  { intros result w Hl. by destruct result. }
  assert (Hawait : forall request w,
    length (List.filter App.listening (App.suspended w))
    = (if App.isLoadingSpeech (App.state w) then 1 else 0)%nat ->
    let w' := App.await_translateContent h request w in
    length (List.filter App.listening (App.suspended w'))
    = (if App.isLoadingSpeech (App.state w') then 1 else 0)%nat /\
    (App.isTranslating (App.state w') = true ->
     Exists (fun s => App.translating s = true) (App.suspended w'))).
  { intros request w Hl. unfold App.await_translateContent.
    destruct (Gemini.translateContent_call h request); [by apply Hsettled|].
    simpl. rewrite List.filter_app, length_app. simpl. split; [lia|].
    intros _. apply Exists_app. right. by constructor. }
  intros e w [Hl Ht].
  destruct e as [i|i|i|i|value|checked|id| |files| | |k result|k outcome| |k|
                 |source]; simpl.
  - unfold App.chosen. by destruct (_ !! i).
  - unfold App.chosen. by destruct (_ !! i).
  - unfold App.chosen. by destruct (_ !! i).
  - unfold App.chosen. by destruct (_ !! i).
  - done.
  - done.
  - unfold App.ModeTab_onClick, App.handleStopSpeaking. simpl.
    by destruct (App.audioSourceRef w).
  - unfold App.handleSwapLanguages.
    case_bool_decide; [done|].
    by destruct (mode_is (App.mode (App.state w)) TEXT &&
                 bool_decide (App.outputText (App.state w) <> EmptyString)).
  - unfold App.handleFileUpload. by destruct files as [[|f fs]|].
  - done.
  - unfold App.handleTranslate.
    destruct (mode_is (App.mode (App.state w)) TEXT &&
              bool_decide (trim (App.inputText (App.state w)) = EmptyString));
      [done|].
    destruct (negb (mode_is (App.mode (App.state w)) TEXT) &&
              negb (mode_is (App.mode (App.state w)) LIVE) &&
              bool_decide (App.file (App.state w) = None)); [done|].
    assert (Hstop : forall w0,
      App.suspended w0 = App.suspended w ->
      App.isLoadingSpeech (App.state w0) = App.isLoadingSpeech (App.state w) ->
      App.suspended (App.handleStopSpeaking w0) = App.suspended w /\
      App.isLoadingSpeech (App.state (App.handleStopSpeaking w0))
      = App.isLoadingSpeech (App.state w)).
    { intros w0 H1 H2. unfold App.handleStopSpeaking.
      by destruct (App.audioSourceRef w0). }
    match goal with |- context [App.handleStopSpeaking ?x] =>
      destruct (Hstop x) as [Hs1 Hs2];
        [by destruct (negb (mode_is (App.mode (App.state w)) TEXT))
        |by destruct (negb (mode_is (App.mode (App.state w)) TEXT))|];
      set (w0 := App.handleStopSpeaking x) in * end.
    assert (Hread : forall request f,
      let w' := App.suspend (App.ReadingFile request f) w0 in
      length (List.filter App.listening (App.suspended w'))
      = (if App.isLoadingSpeech (App.state w') then 1 else 0)%nat /\
      (App.isTranslating (App.state w') = true ->
       Exists (fun s => App.translating s = true) (App.suspended w'))).
    { intros request f. simpl. rewrite Hs1, Hs2.
      rewrite List.filter_app, length_app. simpl. split; [lia|].
      intros _. apply Exists_app. right. by constructor. }
    assert (Hgo : forall request,
      let w' := App.await_translateContent h request w0 in
      length (List.filter App.listening (App.suspended w'))
      = (if App.isLoadingSpeech (App.state w') then 1 else 0)%nat /\
      (App.isTranslating (App.state w') = true ->
       Exists (fun s => App.translating s = true) (App.suspended w'))).
    { intros request. apply Hawait. by rewrite Hs1, Hs2. }
    destruct (App.file (App.state w)) as [f|]; [|apply Hgo].
    destruct (negb (mode_is (App.mode (App.state w)) TEXT));
      [apply Hread|apply Hgo].
  - destruct (App.suspended w !! k) as [[request f| | | |]|] eqn:Hk;
      try done.
    pose proof (woken_count App.listening k _ _ eq_refl Hk) as Hw.
    simpl in Hw.
    unfold App.handleTranslate_read.
    destruct result as [dataURL|error].
    + apply Hawait. simpl. lia.
    + apply Hsettled. simpl. lia.
  - destruct (App.suspended w !! k) as [[request f| | | |]|] eqn:Hk;
      try done.
    + pose proof (woken_count App.listening k _ _ eq_refl Hk) as Hw.
      simpl in Hw.
      unfold App.handleTranslate_answered.
      destruct (Gemini.translateContent_settle outcome) as [result lines].
      apply Hsettled. simpl. lia.
    + pose proof (woken_count App.listening k _ _ eq_refl Hk) as Hw.
      simpl in Hw.
      unfold App.handleListen_answered.
      destruct (App.isLoadingSpeech (App.state w)) eqn:Hload; [|lia].
      destruct (Gemini.generateSpeech_settle outcome) as [[d|e] lines];
        simpl.
      * destruct (decodeAudio d); simpl.
        -- rewrite List.filter_app, length_app, Hload. simpl.
           split; [lia|]. intros Htr. apply Exists_app. left.
           by eapply woken_exists; [done|done|apply Ht].
        -- split; [lia|]. intros Htr.
           by eapply woken_exists; [done|done|apply Ht].
      * split; [lia|]. intros Htr.
        by eapply woken_exists; [done|done|apply Ht].
  - unfold App.handleListen.
    case_bool_decide as Hout; simpl; [done|].
    destruct (App.isSpeaking (App.state w)); simpl; [done|].
    destruct (App.isLoadingSpeech (App.state w)) eqn:Hload; simpl;
      [by rewrite Hload|].
    destruct (Gemini.generateSpeech_call h _) as [e|sent]; simpl.
    + done.
    + rewrite List.filter_app, length_app. simpl. split; [lia|].
      intros Htr. apply Exists_app. left. by apply Ht.
  - destruct (App.suspended w !! k) as [[| | |audioCtx audioBase64 r|]|] eqn:Hk;
      try done.
    pose proof (woken_count App.listening k _ _ eq_refl Hk) as Hw.
    simpl in Hw.
    unfold App.handleListen_decoded.
    destruct (App.isLoadingSpeech (App.state w)); [|lia].
    destruct r; simpl; (split; [lia|]); intros Htr;
      by eapply woken_exists; [done|done|apply Ht].
  - unfold App.handleStopSpeaking. by destruct (App.audioSourceRef w).
  - by destruct (App.sources w !! source).
Qed.

(** X21: no handler closes an [AudioContext].  Every one that a
    [handleListen] has created is still running in every state the
    component can reach, and when the component is unmounted all but the
    one created last stay open. *)
Theorem speech_contexts_stay_open h events :
  let w := App.run trim decodeFailure h events App.mount in
  Forall (fun c => c = running) (App.contexts w) /\
  forall c, (S c < length (App.contexts w))%nat ->
            App.contexts (App.unmount h w) !! c = Some running.
Proof.
  intros w. subst w.
  cut (let w := App.run trim decodeFailure h events App.mount in
       Forall (fun c => c = running) (App.contexts w) /\
       forall c, App.audioContextRef w = Some c ->
                 S c = length (App.contexts w)).
  { intros [Hrun Href]. split; [done|]. intros c Hc.
    assert (Hc' : App.contexts
                    (App.run trim decodeFailure h events App.mount) !! c
                  = Some running).
    { destruct (lookup_lt_is_Some_2
        (App.contexts (App.run trim decodeFailure h events App.mount)) c)
        as [x Hx]; [lia|].
      rewrite Hx. f_equal. by eapply (Forall_lookup_1 _ _ _ _ Hrun). }
    unfold App.unmount.
    destruct (App.audioContextRef _) as [r|] eqn:Hr; [|done].
    destruct (throws h (CallClose r)); [done|]. simpl.
    specialize (Href r eq_refl).
    rewrite list_lookup_alter_ne; [done|]. lia. }
  apply (shell_invariant trim decodeFailure h (fun w =>
    Forall (fun c => c = running) (App.contexts w) /\
    forall c, App.audioContextRef w = Some c ->
              S c = length (App.contexts w))).
  { split; [constructor|done]. }
  assert (Hsettled : forall result w,
    App.contexts (App.handleTranslate_settled result w) = App.contexts w /\
    App.audioContextRef (App.handleTranslate_settled result w)
    = App.audioContextRef w).
  { intros result w. by destruct result. }
  assert (Hawait : forall request w,
    App.contexts (App.await_translateContent h request w) = App.contexts w /\
    App.audioContextRef (App.await_translateContent h request w)
    = App.audioContextRef w).
  { intros request w. unfold App.await_translateContent.
    destruct (Gemini.translateContent_call h request); [apply Hsettled|done]. }
  assert (Hstop : forall w,
    App.contexts (App.handleStopSpeaking w) = App.contexts w /\
    App.audioContextRef (App.handleStopSpeaking w) = App.audioContextRef w).
  { intros w. unfold App.handleStopSpeaking.
    by destruct (App.audioSourceRef w). }
  intros e w [Hrun Href].
  destruct e as [i|i|i|i|value|checked|id| |files| | |k result|k outcome| |k|
                 |source]; simpl.
  - unfold App.chosen. by destruct (_ !! i).
  - unfold App.chosen. by destruct (_ !! i).
  - unfold App.chosen. by destruct (_ !! i).
  - unfold App.chosen. by destruct (_ !! i).
  - done.
  - done.
  - unfold App.ModeTab_onClick.
    match goal with |- context [App.handleStopSpeaking ?x] =>
      destruct (Hstop x) as [-> ->] end. done.
  - unfold App.handleSwapLanguages.
    case_bool_decide; [done|].
    by destruct (mode_is (App.mode (App.state w)) TEXT &&
                 bool_decide (App.outputText (App.state w) <> EmptyString)).
  - unfold App.handleFileUpload. by destruct files as [[|f fs]|].
  - done.
  - unfold App.handleTranslate.
    destruct (mode_is (App.mode (App.state w)) TEXT &&
              bool_decide (trim (App.inputText (App.state w)) = EmptyString));
      [done|].
    destruct (negb (mode_is (App.mode (App.state w)) TEXT) &&
              negb (mode_is (App.mode (App.state w)) LIVE) &&
              bool_decide (App.file (App.state w) = None)); [done|].
    match goal with |- context [App.handleStopSpeaking ?x] =>
      destruct (Hstop x) as [Hs1 Hs2];
      set (w0 := App.handleStopSpeaking x) in * end.
    assert (App.contexts w0 = App.contexts w /\
            App.audioContextRef w0 = App.audioContextRef w) as [Hc0 Hr0].
    { rewrite Hs1, Hs2.
      by destruct (negb (mode_is (App.mode (App.state w)) TEXT)). }
    destruct (App.file (App.state w)) as [f|];
      [destruct (negb (mode_is (App.mode (App.state w)) TEXT))|];
      try (match goal with |- context [App.await_translateContent h ?r w0] =>
             destruct (Hawait r w0) as [-> ->] end);
      simpl; by rewrite Hc0, Hr0.
  - destruct (App.suspended w !! k) as [[request f| | | |]|] eqn:Hk;
      try done.
    unfold App.handleTranslate_read.
    destruct result as [dataURL|error].
    + match goal with |- context [App.await_translateContent h ?r ?x] =>
        destruct (Hawait r x) as [-> ->] end. done.
    + match goal with |- context [App.handleTranslate_settled ?r ?x] =>
        destruct (Hsettled r x) as [-> ->] end. done.
  - destruct (App.suspended w !! k) as [[request f| | | |]|] eqn:Hk;
      try done.
    + unfold App.handleTranslate_answered.
      destruct (Gemini.translateContent_settle outcome) as [result lines].
      match goal with |- context [App.handleTranslate_settled ?r ?x] =>
        destruct (Hsettled r x) as [-> ->] end. done.
    + unfold App.handleListen_answered.
      destruct (Gemini.generateSpeech_settle outcome) as [[d|e] lines];
        simpl; [|done].
      assert (Hnew : Forall (fun c => c = running)
                            (App.contexts w ++ [running]) /\
                     forall c, Some (length (App.contexts w)) = Some c ->
                       S c = length (App.contexts w ++ [running])).
      { split; [apply Forall_app; split; [done|by constructor]|].
        intros c [= <-]. rewrite length_app. simpl. lia. }
      by destruct (decodeAudio d).
  - unfold App.handleListen.
    case_bool_decide as Hout; simpl; [done|].
    destruct (App.isSpeaking (App.state w)); simpl; [done|].
    destruct (App.isLoadingSpeech (App.state w)); simpl; [done|].
    by destruct (Gemini.generateSpeech_call h _).
  - destruct (App.suspended w !! k) as [[| | |audioCtx audioBase64 r|]|] eqn:Hk;
      try done.
    unfold App.handleListen_decoded. by destruct r.
  - match goal with |- context [App.handleStopSpeaking ?x] =>
      destruct (Hstop x) as [-> ->] end. done.
  - by destruct (App.sources w !! source).
Qed.

(** X22: speech from click to sound.  The click sets the loading flag
    and requests the speech of the output text.  An answer without audio
    in its first part, or a failed call, shows [Failed to generate
    speech: ] followed by the reason's message and clears the flag, with
    no context created.  An answer with audio creates a context and
    stores it in [audioContextRef] before the audio is decoded: when
    [decodeAudio] throws or [decodeAudioData] rejects, the error is shown
    and the flag cleared, and the context stays open.  When the audio
    decodes, a source is created on that context and stored in
    [audioSourceRef], the speaking flag is set and the loading flag
    cleared. *)
Theorem speech_from_click_to_sound h w outcome :
  App.outputText (App.state w) <> EmptyString ->
  App.isSpeaking (App.state w) = false ->
  App.isLoadingSpeech (App.state w) = false ->
  truthy (API_KEY h) = true ->
  let k := length (App.suspended w) in
  let w1 := App.step trim decodeFailure h App.ClickListen w in
  let w2 := App.step trim decodeFailure h (App.Answered k outcome) w1 in
  let w3 := App.step trim decodeFailure h (App.Decoded (S k)) w2 in
  let failed e w' :=
    App.error (App.state w')
    = Some ("Failed to generate speech: " +:+ Js.to_string (Js.message e)) /\
    App.isLoadingSpeech (App.state w') = false /\
    App.isSpeaking (App.state w') = false /\
    App.sources w' = App.sources w in
  (App.isLoadingSpeech (App.state w1) = true /\
   exists ai params,
     App.requests w1 = App.requests w ++ [(ai, params)] /\
     GenAI.model params = "gemini-2.5-flash-preview-tts" /\
     GenAI.parts params
     = [GenAI.TextPart (Some (App.outputText (App.state w)))]) /\
  match Gemini.generateSpeech_settle outcome with
  | (Js.Rejected e, lines) =>
      failed e w2 /\
      App.contexts w2 = App.contexts w /\
      App.audioContextRef w2 = App.audioContextRef w /\
      App.console w2 = App.console w ++ lines
  | (Js.Resolved audioBase64, _) =>
      App.contexts w2 = App.contexts w ++ [running] /\
      App.audioContextRef w2 = Some (length (App.contexts w)) /\
      App.contexts w3 = App.contexts w2 /\
      match decodeAudio audioBase64 with
      | None => failed (decodeFailure audioBase64) w2
      | Some audioBytes =>
          App.isLoadingSpeech (App.state w2) = true /\
          match decodeAudioData audioBytes 24000 1 with
          | None => failed (decodeFailure audioBase64) w3
          | Some audioBuffer =>
              App.sources w3 = App.sources w ++
                [{| App.src_context := length (App.contexts w);
                    App.src_buffer := audioBuffer;
                    App.src_stopped := false |}] /\
              App.audioSourceRef w3 = Some (length (App.sources w)) /\
              App.isSpeaking (App.state w3) = true /\
              App.isLoadingSpeech (App.state w3) = false /\
              App.error (App.state w3) = App.error (App.state w)
          end
      end
  end.
Proof.
  intros Hout Hsp Hld Hk k w1 w2 w3 failed. subst failed w3 w2 w1 k.
  destruct w as [[sl tl it ot m md tn f tr er au sp ls] cr sr cs ss su rq co].
  simpl in Hout, Hsp, Hld. subst sp ls.
  simpl. unfold App.handleListen, Gemini.generateSpeech_call,
    Gemini.getAiClient. simpl.
  rewrite (bool_decide_eq_false_2 _ Hout), Hk. simpl.
  split.
  { split; [done|]. by eexists _, _. }
  assert (Hlook : forall (sus : list (@App.Suspended T)) s,
    (sus ++ [s]) !! length sus = Some s).
  { intros sus s. by rewrite lookup_app_r, Nat.sub_diag by lia. }
  assert (Hnext : forall (sus : list (@App.Suspended T)) s s',
    (alter (fun _ => App.Done) (length sus) (sus ++ [s]) ++ [s'])
      !! S (length sus) = Some s').
  { intros sus s s'.
    assert (length (alter (fun _ => @App.Done T) (length sus) (sus ++ [s]))
            = S (length sus)) as Hl.
    { rewrite length_alter, length_app. simpl. lia. }
    rewrite lookup_app_r by lia. by rewrite Hl, Nat.sub_diag. }
  assert (Hnone : forall (sus : list (@App.Suspended T)) s,
    alter (fun _ => App.Done) (length sus) (sus ++ [s]) !! S (length sus)
    = None).
  { intros sus s. apply lookup_ge_None_2.
    rewrite length_alter, length_app. simpl. lia. }
  rewrite Hlook. unfold App.handleListen_answered.
  destruct (Gemini.generateSpeech_settle outcome) as [[d|e] lines]; simpl.
  - destruct (decodeAudio d) as [bytes|]; simpl.
    + rewrite Hnext. unfold App.handleListen_decoded.
      by destruct (decodeAudioData bytes 24000 1).
    + by rewrite Hnone.
  - done.
Qed.

End Speech.

(** ** The properties of the service and of the shell on concrete runs *)

Lemma service_needs_api_key_witness :
  let h := {| API_KEY := Some EmptyString; throws := fun _ => false |} in
  (Gemini.generateSpeech h (fun _ _ => Js.Resolved (ShellRun.spoken "half"))
     "Buenos dias").1
  = Js.Rejected (Js.Error
      "API Key is missing. Please ensure process.env.API_KEY is available.").
Proof.
  intros h.
  exact (f_equal fst (proj2 (service_needs_api_key h
    (fun _ _ => Js.Resolved (ShellRun.spoken "half"))
    (ShellRun.request TEXT "Good morning" None) "Buenos dias" eq_refl))).
Defined.

Lemma image_model_is_not_offered_witness :
  "gemini-2.5-pro-preview" ∉ ModelOption.id <$> constants.MODELS.
Proof.
  eassert (Hc : Gemini.translateContent_call Fixture.host
                  (ShellRun.request IMAGE "iVBORw0KGgo=" (Some "image/png"))
                = inr (_, _)) by (vm_compute; reflexivity).
  exact (image_model_is_not_offered _ _ _ _ Hc eq_refl).
Defined.

Lemma text_translation_witness :
  let w := ShellRun.run [App.EditInput "Good morning"] in
  let answer := Js.Resolved (ShellRun.answer "Buenos dias") in
  Some (App.outputText (App.state
    (App.step ShellRun.trim ShellRun.decodeFailure Fixture.host
       (App.Answered 0 answer)
       (App.step ShellRun.trim ShellRun.decodeFailure Fixture.host
          App.Translate w))))
  = Some "Buenos dias".
Proof.
  intros w answer.
  assert (Hin : ShellRun.trim (App.inputText (App.state w)) <> EmptyString)
    by (vm_compute; discriminate).
  pose proof (text_translation ShellRun.trim ShellRun.decodeFailure
                Fixture.host w answer eq_refl Hin eq_refl)
    as (_ & _ & _ & H & _).
  exact H.
Defined.

Lemma file_translation_witness :
  let w := ShellRun.run ShellRun.picture in
  let result := Js.Resolved "data:image/png;base64,iVBORw0KGgo=" in
  App.isTranslating (App.state
    (App.step ShellRun.trim ShellRun.decodeFailure Fixture.host
       (App.FileRead 0 result)
       (App.step ShellRun.trim ShellRun.decodeFailure Fixture.host
          App.Translate w)))
  = true.
Proof.
  intros w result.
  assert (Hm : App.mode (App.state w) <> TEXT) by (vm_compute; discriminate).
  pose proof (file_translation ShellRun.trim ShellRun.decodeFailure
                Fixture.host w _ result Hm eq_refl eq_refl)
    as (_ & H & _).
  exact H.
Defined.

Lemma late_answer_lands_in_new_tab_witness :
  let w' := App.run ShellRun.trim ShellRun.decodeFailure Fixture.host
              [App.ClickTab DOCUMENT;
               App.Answered 0 (Js.Resolved (ShellRun.answer "Buenos dias"))]
              (ShellRun.run ShellRun.asked) in
  App.mode (App.state w') = DOCUMENT /\
  App.outputText (App.state w') = "Buenos dias".
Proof.
  intros w'.
  assert (Hne : "Buenos dias" <> EmptyString) by discriminate.
  pose proof (late_answer_lands_in_new_tab ShellRun.trim ShellRun.decodeFailure
                Fixture.host (ShellRun.run ShellRun.asked) 0 DOCUMENT
                (ShellRun.answer "Buenos dias") "Buenos dias"
                eq_refl eq_refl Hne)
    as (H1 & H2 & _).
  exact (conj H1 H2).
Defined.

Lemma speech_from_click_to_sound_witness :
  let w := ShellRun.run ShellRun.translated in
  let w3 :=
    App.step ShellRun.trim ShellRun.decodeFailure Fixture.host (App.Decoded 2)
      (App.step ShellRun.trim ShellRun.decodeFailure Fixture.host
         (App.Answered 1 (Js.Resolved (ShellRun.spoken "half")))
         (App.step ShellRun.trim ShellRun.decodeFailure Fixture.host
            App.ClickListen w)) in
  App.audioSourceRef w3 = Some 0%nat /\
  App.isSpeaking (App.state w3) = true.
Proof.
  intros w w3.
  assert (Hout : App.outputText (App.state (ShellRun.run ShellRun.translated))
                 <> EmptyString) by (vm_compute; discriminate).
  pose proof (speech_from_click_to_sound ShellRun.trim ShellRun.decodeFailure
                Fixture.host (ShellRun.run ShellRun.translated)
                (Js.Resolved (ShellRun.spoken "half"))
                Hout eq_refl eq_refl eq_refl)
    as (_ & _ & _ & _ & _ & _ & H1 & H2 & _).
  exact (conj H1 H2).
Defined.
